(** * Evernode JS client: a shallow embedding of the ledger-client layer

    The development follows the JavaScript sources:

    - [src/clients/host-client.js], class [XrplApi]: the constructor and the
      reconnection loops, paginated requests, the ledger queries, address
      subscriptions, the transaction listener, the finality wait loop and
      multi-signing;
    - [src/clients/host-client.js], class [HostClient]: the retry wrapper,
      the registration checks and the hook parameters of [register],
      [deregister], [heartbeat] and [extendSuccess], the registration status,
      [prepareAccount], the wait of [transfer] and [acquireSuccess];
    - the [EvernodeHook] class: configuration cache, moment computation, the
      hook event extractor and [readUInt];
    - the [EvernodeClient] class: the memos of its requests.

    JavaScript values are embedded as the type [val]; objects are finite maps
    from property names to values; a string is the sequence of its code
    units, each below 256; a [Buffer] is a list of bytes.  The numbers of the
    moment computation are integers held in doubles, and are rounded as
    doubles are.  Code that
    talks to the network is written in a small state-and-exception monad over
    an explicit world, or takes the answers of its collaborators as
    arguments.

    The first part is the embedding, class by class, each with the simulated
    collaborators used in the examples.  The second part states and proves
    the properties. *)

From Stdlib Require Import ZArith QArith Qround String Ascii List Permutation Lia.
From stdpp Require Import base option list gmap strings pretty.

#[local] Set Warnings "-register-all".
#[local] Open Scope string_scope.
#[local] Open Scope list_scope.
#[local] Open Scope Z_scope.

(** * Part I: the embedding *)

(** ** JavaScript values *)

Module JS.

Inductive val : Type :=
  | VUndef
  | VNull
  | VBool (b : bool)
  | VNum (z : Z)
  | VStr (s : string)
  | VObj (o : gmap string val)
  | VArr (l : list val).

(** What a JavaScript computation ends in: a returned value or a thrown one. *)
Inductive outcome (A : Type) : Type :=
  | Return (a : A)
  | Throw (e : val).
Arguments Return {A} a.
Arguments Throw {A} e.

Definition newline : string := String "010"%char "".

Definition obind {A B} (o : outcome A) (k : A -> outcome B) : outcome B :=
  match o with Return a => k a | Throw e => Throw e end.

Definition TypeError (msg : string) : val :=
  VObj (<["name" := VStr "TypeError"]> (<["message" := VStr msg]> ∅)).

(** [v == null] *)
Definition nullish (v : val) : bool :=
  match v with VUndef | VNull => true | _ => false end.

(** ToBoolean.  Numbers are integers here, so there is no NaN. *)
Definition truthy (v : val) : bool :=
  match v with
  | VUndef | VNull => false
  | VBool b => b
  | VNum z => negb (z =? 0)
  | VStr s => negb (bool_decide (s = ""))
  | VObj _ | VArr _ => true
  end.

(** [v === "s"] for a string literal. *)
Definition str_eq (v : val) (s : string) : bool :=
  match v with VStr t => bool_decide (t = s) | _ => false end.

(** [a === b]; two object values never are the same reference here. *)
Definition strict_eq (a b : val) : bool :=
  match a, b with
  | VUndef, VUndef | VNull, VNull => true
  | VBool x, VBool y => bool_decide (x = y)
  | VNum x, VNum y => bool_decide (x = y)
  | VStr x, VStr y => bool_decide (x = y)
  | _, _ => false
  end.

(** [v.k]: a TypeError on [null] and [undefined], [undefined] when the
    property is missing.  The built-in properties of strings, numbers and
    arrays (such as [length]) are not among the keys read here. *)
Definition get (v : val) (k : string) : outcome val :=
  match v with
  | VUndef | VNull =>
      Throw (TypeError ("Cannot read properties of null or undefined (reading '" +:+ k +:+ "')"))
  | VObj o => Return (default VUndef (o !! k))
  | _ => Return VUndef
  end.

(** [v?.k] *)
Definition opt_get (v : val) (k : string) : val :=
  match v with
  | VObj o => default VUndef (o !! k)
  | _ => VUndef
  end.

(** The own enumerable properties copied by [{...v}]. *)
Definition spread (v : val) : gmap string val :=
  match v with
  | VObj o => o
  | VArr l => list_to_map (imap (fun i x => (pretty i, x)) l)
  | VStr s =>
      list_to_map (imap (fun i c => (pretty i, VStr (String c ""))) (list_ascii_of_string s))
  | _ => ∅
  end.

(** [{...a, ...b}]: properties of [b] win. *)
Definition obj_merge (a b : gmap string val) : gmap string val := b ∪ a.

Definition obj (kvs : list (string * val)) : val :=
  VObj (fold_left (fun m kv => <[kv.1 := kv.2]> m) kvs ∅).

(** [s.toLowerCase()].  A string is the sequence of its UTF-16 code units,
    and the code units of a [string] here are below 256.  Among these the
    upper-case letters are A to Z (65 to 90) and the accented letters U+00C0
    to U+00DE without the multiplication sign U+00D7; the lower-case letter
    of each is 32 code units on, and every other code unit below 256 is its
    own lower case. *)
Definition lower_char (ch : ascii) : ascii :=
  let n := nat_of_ascii ch in
  if ((65 <=? n)%nat && (n <=? 90)%nat)
     || ((192 <=? n)%nat && (n <=? 222)%nat && negb (n =? 215)%nat)
  then ascii_of_nat (n + 32) else ch.

Fixpoint toLowerCase (s : string) : string :=
  match s with
  | EmptyString => EmptyString
  | String ch rest => String (lower_char ch) (toLowerCase rest)
  end.

(** A number given by a caller: a finite value, taken as a rational, or one
    of the three special values. *)
Inductive number : Type :=
  | Fin (q : Q)
  | NaN
  | PosInf
  | NegInf.

(** [!x] *)
Definition number_falsy (x : number) : bool :=
  match x with Fin q => Qnum q =? 0 | NaN => true | _ => false end.

(** [isNaN(x)] *)
Definition isNaN (x : number) : bool :=
  match x with NaN => true | _ => false end.

(** [x % 1 != 0]: the remainder of an infinity is NaN, which differs from 0. *)
Definition has_fraction (x : number) : bool :=
  match x with Fin q => negb (Qnum q mod Z.pos (Qden q) =? 0) | _ => true end.

(** [x < 0] *)
Definition negative (x : number) : bool :=
  match x with Fin q => Qnum q <? 0 | NegInf => true | _ => false end.

End JS.
Import JS.

(** ** State and exceptions *)

(** A computation over a world [W]: it ends in an outcome and a new world. *)
Definition M (W A : Type) : Type := W -> outcome A * W.

Definition ret {W A} (a : A) : M W A := fun w => (Return a, w).
Definition throw {W A} (e : val) : M W A := fun w => (Throw e, w).
Definition bind {W A B} (m : M W A) (k : A -> M W B) : M W B :=
  fun w => match m w with
           | (Return a, w') => k a w'
           | (Throw e, w') => (Throw e, w')
           end.

Declare Scope js_scope.
Delimit Scope js_scope with js.
Notation "x <- m ;; k" := (bind m (fun x => k))
  (at level 100, m at next level, right associativity) : js_scope.
Notation "m ;;; k" := (bind m (fun _ => k))
  (at level 100, right associativity) : js_scope.

(** ** Doubles *)

(** The numbers the hook client computes with are integers held in doubles.
    A finite double is [m * 2 ^ e] with [m] below [2 ^ 53] in size and [e] at
    least [-1074]; an operation gives the double nearest to the exact result,
    a tie going to the one with the even [m]. *)
Module Double.

(** The integer nearest to [n / d], a tie going to the even one; [n] is not
    negative and [d] is positive. *)
Definition nearest_even (n d : Z) : Z :=
  let q := n / d in
  let r := n mod d in
  if (d <? 2 * r) || ((2 * r =? d) && Z.odd q) then q + 1 else q.

(** [Number(n)] for a [BigInt] that is not negative: the nearest double, a
    tie going to the even one.  Up to [2 ^ 53] every integer is a double. *)
Definition Number_of_BigInt (n : Z) : Z :=
  if n <? 2 ^ 53 then n
  else
    let e := Z.log2 n - 52 in
    let q := n / 2 ^ e in
    let r := n mod 2 ^ e in
    let half := 2 ^ (e - 1) in
    (if (half <? r) || ((r =? half) && Z.odd q) then q + 1 else q) * 2 ^ e.

(** The double nearest to an integer of either sign. *)
Definition of_Z (n : Z) : Z :=
  if n <? 0 then - Number_of_BigInt (- n) else Number_of_BigInt n.

(** [a - b] for integers [a] and [b] that are doubles: their difference is
    an integer, and the result is the double nearest to it. *)
Definition subtract (a b : Z) : Z := of_Z (a - b).

(** The whole part of the binary logarithm of [n / d], for positive [n] and
    [d]. *)
Definition log2_ratio (n d : Z) : Z :=
  let k := Z.log2 n - Z.log2 d in
  if 0 <=? k then (if d * 2 ^ k <=? n then k else k - 1)
  else (if d <=? n * 2 ^ (- k) then k else k - 1).

(** [a / b] for integers [a] and [b] that are doubles.  The quotient is
    rounded to 53 significant bits, or to a multiple of [2 ^ -1074] where it
    is smaller than the normal doubles; it cannot overflow, being at most [a]
    in size.  A division by zero gives an infinity, or NaN for [0 / 0]. *)
Definition divide (a b : Z) : number :=
  if b =? 0 then (if a =? 0 then NaN else if 0 <? a then PosInf else NegInf)
  else if a =? 0 then Fin 0
  else
    let n := Z.abs a in
    let d := Z.abs b in
    let e := Z.max (log2_ratio n d - 52) (-1074) in
    let sign := Z.sgn a * Z.sgn b in
    if 0 <=? e then Fin (inject_Z (sign * (nearest_even n (d * 2 ^ e) * 2 ^ e)))
    else Fin (Qmake (sign * nearest_even (n * 2 ^ (- e)) d) (Z.to_pos (2 ^ (- e)))).

(** [Math.floor(x)] *)
Definition floor (x : number) : number :=
  match x with Fin q => Fin (inject_Z (Qfloor q)) | _ => x end.

End Double.

(** ** XrplApi *)

Module XrplApi.

Definition MAX_PAGE_LIMIT : Z := 400.
Definition LEDGER_CLOSE_TIME : Z := 1000.

(** A handler is a function object, compared by identity; [handler_ref]
    names the function. *)
Definition handler_ref := nat.

Record subscription := Sub { address : string; handler : handler_ref }.

#[global] Instance subscription_eq_dec : EqDecision subscription.
Proof. solve_decision. Defined.

(** The network side, an [xrpl.Client]: what a request made at a time
    (milliseconds slept so far) ends in. *)
Record client := Client {
  request : Z -> val -> outcome val;
  getLedgerIndex : Z -> outcome Z
}.

(** The fields of an [XrplApi] object the embedded methods use, the requests
    sent so far (oldest first) and the time slept so far. *)
Record world := World {
  addressSubscriptions : list subscription;
  requests : list val;
  now : Z
}.

Definition set_subscriptions (f : list subscription -> list subscription) (w : world) : world :=
  World (f (addressSubscriptions w)) (requests w) (now w).
Definition log_request (r : val) (w : world) : world :=
  World (addressSubscriptions w) (requests w ++ [r]) (now w).
(** [await new Promise(r => setTimeout(r, ms))] moves the time on. *)
Definition advance (ms : Z) (w : world) : world :=
  World (addressSubscriptions w) (requests w) (now w + ms).

Definition modify (f : world -> world) : M world unit := fun w => (Return tt, f w).

Section WithClient.
Variable c : client.

(** [#handleClientRequest]: in a sequential run the connection flag is free,
    so the request goes out at once; its failure is rethrown unchanged. *)
Definition handleClientRequest (req : val) : M world val :=
  fun w => (request c (now w) req, log_request req w).

(** *** Address subscriptions *)

Definition same_pair (a : string) (h : handler_ref) (s : subscription) : bool :=
  bool_decide (address s = a) && bool_decide (handler s = h).

(** [subscribeToAddress]: push, then subscribe on the network. *)
Definition subscribeToAddress (a : string) (h : handler_ref) : M world unit :=
  (modify (set_subscriptions (fun l => l ++ [Sub a h])) ;;;
   _ <- handleClientRequest (obj [("command", VStr "subscribe"); ("accounts", VArr [VStr a])]) ;;
   ret tt)%js.

(** The loop of [unsubscribeFromAddress], [n] being [i + 1]:
    [for (i = length - 1; i >= 0; i--) if (match) splice(i, 1)].
    Reading a property of a missing element is a TypeError. *)
Fixpoint unsubscribe_loop (a : string) (h : handler_ref) (n : nat)
    (subs : list subscription) : outcome (list subscription) :=
  match n with
  | O => Return subs
  | S i =>
      match subs !! i with
      | None => Throw (TypeError "Cannot read properties of undefined (reading 'address')")
      | Some sub =>
          unsubscribe_loop a h i (if same_pair a h sub then delete i subs else subs)
      end
  end.

Definition unsubscribeFromAddress (a : string) (h : handler_ref) : M world unit :=
  fun w =>
    match unsubscribe_loop a h (length (addressSubscriptions w)) (addressSubscriptions w) with
    | Throw e => (Throw e, w)
    | Return subs' =>
        (_ <- handleClientRequest (obj [("command", VStr "unsubscribe"); ("accounts", VArr [VStr a])]) ;;
         ret tt)%js (set_subscriptions (fun _ => subs') w)
    end.

(** *** Paginated requests *)

(** [count] holds [requestObj?.limit]: a number or [undefined]. *)
Definition count_truthy (count : option Z) : bool :=
  match count with Some z => negb (z =? 0) | None => false end.
Definition count_positive (count : option Z) : bool :=
  match count with Some z => 0 <? z | None => false end.

(** [Math.min(count, MAX_PAGE_LIMIT)] or [MAX_PAGE_LIMIT] *)
Definition page_limit (count : option Z) : Z :=
  match count with
  | Some z => if negb (z =? 0) then Z.min z MAX_PAGE_LIMIT else MAX_PAGE_LIMIT
  | None => MAX_PAGE_LIMIT
  end.

Definition marker_of (resp : val) : val := opt_get (opt_get resp "result") "marker".

(** [res.push(...v)] for the value under [resp.result[requestType]]. *)
Definition iterate (v : val) : outcome (list val) :=
  match v with
  | VArr l => Return l
  | VStr s => Return (map (fun ch => VStr (String ch "")) (list_ascii_of_string s))
  | _ => Throw (TypeError "Spread syntax requires ...iterable[Symbol.iterator] to be a function")
  end.

Definition page_items (requestType : string) (resp : val) : outcome (list val) :=
  let result := opt_get resp "result" in
  if truthy result && truthy (opt_get result requestType)
  then iterate (opt_get result requestType)
  else Return [].

(** The [while] loop of [#requestWithPaging]; [None] when the fuel runs out
    (the endpoint keeps sending markers). *)
Fixpoint paging_loop (fuel : nat) (requestType : string) (requestObj : gmap string val)
    (res : list val) (checked : bool) (resp : val) (count : option Z) (w : world)
    : option (outcome (list val) * world) :=
  match fuel with
  | O => None
  | S fuel' =>
      if (negb (count_truthy count) || count_positive count)
         && (negb checked || truthy (marker_of resp))
      then
        let limit := page_limit count in
        let requestObj := <["limit" := VNum limit]> requestObj in
        let requestObj :=
          if truthy (marker_of resp) then <["marker" := marker_of resp]> requestObj
          else delete "marker" requestObj in
        match handleClientRequest (VObj requestObj) w with
        | (Throw e, w') => Some (Throw e, w')
        | (Return resp', w') =>
            match page_items requestType resp' with
            | Throw e => Some (Throw e, w')
            | Return items =>
                let count' := if count_truthy count then (fun z => z - limit) <$> count else count in
                paging_loop fuel' requestType requestObj (res ++ items) true resp' count' w'
            end
        end
      else Some (Return res, w)
  end.

(** [requestObj?.limit] is a number or absent; a limit of another type is
    outside the model and read as absent. *)
Definition requested_count (requestObj : gmap string val) : option Z :=
  match requestObj !! "limit" with Some (VNum z) => Some z | _ => None end.

Definition requestWithPaging (fuel : nat) (requestObj : gmap string val)
    (requestType : string) : world -> option (outcome (list val) * world) :=
  paging_loop fuel requestType requestObj [] false VUndef (requested_count requestObj).

End WithClient.

(** *** The transaction listener *)

(** A message of the transaction stream. *)
Record tx_message := TxMessage {
  validated : val;
  transaction : gmap string val;
  ledger_hash : val;
  ledger_index : Z;
  meta : val;
  engine_result : val;
  engine_result_message : val
}.

(** One call [s.handler(eventName, tx, error)]; a missing third argument is
    [undefined]. *)
Record handler_call := Call {
  callee : handler_ref;
  eventName : string;
  payload : val;
  error : val
}.

Section Listener.
(** [XrplAccount.getURITokens] for an address and a ledger index, and the two
    deserializers of [TransactionHelper]; all three live in other files. *)
Variable getURITokens : string -> Z -> outcome (list val).
Variable deserializeMemos : val -> outcome val.
Variable deserializeHookParams : val -> outcome val.

(** [offers.find(o => o.index === id && o.Amount)] *)
Fixpoint find_offer (id : val) (offers : list val) : outcome (option val) :=
  match offers with
  | [] => Return None
  | o :: rest =>
      obind (get o "index") (fun index =>
        if strict_eq index id
        then obind (get o "Amount") (fun amount =>
               if truthy amount then Return (Some o) else find_offer id rest)
        else find_offer id rest)
  end.

(** The loop over the subscriptions for a [URITokenBuy]: the first
    subscribed address that held the bought token as an offer in the ledger
    before becomes the destination. *)
Fixpoint resolve_buyer (subs : list subscription) (data : tx_message)
    (tr : gmap string val) : outcome (gmap string val) :=
  match subs with
  | [] => Return tr
  | s :: rest =>
      obind (getURITokens (address s) (ledger_index data - 1)) (fun offers =>
        obind (find_offer (default VUndef (tr !! "URITokenID")) offers) (fun found =>
          match found with
          | Some offer =>
              if truthy offer
              then Return (<["URITokenSellOffer" := offer]>
                             (<["Destination" := VStr (address s)]> tr))
              else resolve_buyer rest data tr
          | None => resolve_buyer rest data tr
          end))
  end.

Definition routed (subs : list subscription) (data : tx_message) : outcome (gmap string val) :=
  if str_eq (default VUndef (transaction data !! "TransactionType")) "URITokenBuy"
  then resolve_buyer subs data (transaction data)
  else Return (transaction data).

(** [this.#addressSubscriptions.filter(s => s.address === Destination)] *)
Definition matches (subs : list subscription) (tr : gmap string val) : list subscription :=
  List.filter (fun s => strict_eq (VStr (address s)) (default VUndef (tr !! "Destination"))) subs.

(** [tx.TransactionType.toLowerCase()] *)
Definition event_name (tx : gmap string val) : outcome string :=
  match default VUndef (tx !! "TransactionType") with
  | VStr s => Return (toLowerCase s)
  | VUndef | VNull =>
      Throw (TypeError "Cannot read properties of undefined (reading 'toLowerCase')")
  | _ => Throw (TypeError "tx.TransactionType.toLowerCase is not a function")
  end.

(** The object [tx] handed to the handlers before the memos are decoded. *)
Definition event_tx (data : tx_message) (tr : gmap string val) : gmap string val :=
  let tx := obj_merge (spread (obj [("LedgerHash", ledger_hash data);
                                    ("LedgerIndex", VNum (ledger_index data))])) tr in
  if truthy (opt_get (meta data) "delivered_amount")
  then <["DeliveredAmount" := opt_get (meta data) "delivered_amount"]> tx
  else tx.

Definition decoded (tx : gmap string val) : outcome (gmap string val) :=
  obind (deserializeMemos (default VUndef (tx !! "Memos"))) (fun memos =>
    let tx := <["Memos" := memos]> tx in
    obind (deserializeHookParams (default VUndef (tx !! "HookParameters"))) (fun params =>
      Return (<["HookParameters" := params]> tx))).

(** The listener of the ["transaction"] event: the calls it makes to the
    handlers, in order. *)
Definition onTransaction (subs : list subscription) (data : tx_message)
    : outcome (list handler_call) :=
  if truthy (validated data) then
    obind (routed subs data) (fun tr =>
      let found := matches subs tr in
      if (0 <? length found)%nat then
        let tx := event_tx data tr in
        obind (event_name tx) (fun name =>
          if str_eq (engine_result data) "tesSUCCESS" then
            obind (decoded tx) (fun tx =>
              Return (map (fun s => Call (handler s) name (VObj tx) VUndef) found))
          else
            Return (map (fun s => Call (handler s) name VNull (engine_result_message data))
                      found))
      else Return [])
  else Return [].

End Listener.

(** *** Reliable submission *)

(** An outbound transaction: its [LastLedgerSequence], a number when present,
    and its other fields. *)
Record submitted_transaction := Tx {
  LastLedgerSequence : option Z;
  tx_fields : gmap string val
}.

Definition tx_json (tx : submitted_transaction) : val :=
  VObj (match LastLedgerSequence tx with
        | Some z => <["LastLedgerSequence" := VNum z]> (tx_fields tx)
        | None => delete "LastLedgerSequence" (tx_fields tx)
        end).

Definition MISSING_LAST_LEDGER : string :=
  "Transaction must contain a LastLedgerSequence value for reliable submission.".

(** How one run of the finality wait ends.  [Expired] is the branch that
    throws the [TOOK_LONG] object, [Failed] every other throw. *)
Inductive wait_exit : Type :=
  | Validated (txResponse : val)
  | Expired (latestLedger lastLedger : Z)
  | Failed (e : val).

Definition expired_message (latestLedger lastLedger : Z) : string :=
  "The latest ledger sequence " +:+ pretty latestLedger +:+
  " is greater than the transaction's LastLedgerSequence (" +:+ pretty lastLedger +:+ ")".

(** [{ status: 'TOOK_LONG', error: `...`, ...submissionResult }] *)
Definition expired_error (latestLedger lastLedger : Z) (submissionResult : val) : val :=
  VObj (obj_merge
          (spread (obj [("status", VStr "TOOK_LONG");
                        ("error", VStr (expired_message latestLedger lastLedger))]))
          (spread submissionResult)).

Definition thrown_or_returned (submissionResult : val) (x : wait_exit) : outcome val :=
  match x with
  | Validated txResponse => Return txResponse
  | Expired latestLedger lastLedger => Throw (expired_error latestLedger lastLedger submissionResult)
  | Failed e => Throw e
  end.

(** [submissionResult.result.tx_json.hash] *)
Definition submission_hash (submissionResult : val) : outcome val :=
  obind (get submissionResult "result") (fun r => obind (get r "tx_json") (fun t => get t "hash")).

Section Submission.
Variable c : client.
(** [JSON.stringify(v, null, 2)] and the string conversion of a template
    literal, both built into the language. *)
Variable JSON_stringify : val -> string.
Variable ToString : val -> string.
(** The callback of [HookExecutions.map] in [#prepareResponse]; it decodes one
    entry with [TransactionHelper.hexToASCII], which lives in another file. *)
Variable hookExecution : val -> outcome val.

Definition getTxnInfo_request (txnHash options : val) : val :=
  VObj (obj_merge
          (spread (obj [("command", VStr "tx"); ("transaction", txnHash); ("binary", VBool false)]))
          (spread options)).

(** [getTxnInfo]: [resp?.result] of a [tx] request. *)
Definition getTxnInfo (txnHash options : val) : M world val :=
  (resp <- handleClientRequest c (getTxnInfo_request txnHash options) ;;
   ret (opt_get resp "result"))%js.

Definition other_error_text (message submissionResult error : val) : string :=
  ToString message +:+ " " +:+ newline +:+ " Preliminary result: " +:+
  JSON_stringify submissionResult +:+ "." +:+ newline +:+
  "Full error details: " +:+ JSON_stringify error.

(** [#waitForFinalTransactionOutcome].  Each call sleeps one ledger close
    time, reads the ledger index and asks for the transaction; it calls itself
    from the [catch] handler when the transaction is not found and after a
    response that is not validated yet.  [#getLedgerIndex] hands on what the
    client answers.  [None] when the fuel runs out. *)
Fixpoint wait_core (fuel : nat) (txHash : val) (lastLedger : option Z)
    (submissionResult : val) (w : world) : option (wait_exit * world) :=
  match fuel with
  | O => None
  | S fuel' =>
      match lastLedger with
      | None => Some (Failed (VStr MISSING_LAST_LEDGER), w)
      | Some last =>
          let w := advance LEDGER_CLOSE_TIME w in
          match getLedgerIndex c (now w) with
          | Throw e => Some (Failed e, w)
          | Return latestLedger =>
              if last <? latestLedger then Some (Expired latestLedger last, w)
              else
                let after_response (txResponse : val) (w : world) :=
                  match get txResponse "validated" with
                  | Throw e => Some (Failed e, w)
                  | Return v =>
                      if truthy v then Some (Validated txResponse, w)
                      else wait_core fuel' txHash lastLedger submissionResult w
                  end in
                match getTxnInfo txHash VUndef w with
                | (Return txResponse, w) => after_response txResponse w
                | (Throw error, w) =>
                    let message := opt_get (opt_get error "data") "error" in
                    if str_eq message "txnNotFound" then
                      match wait_core fuel' txHash lastLedger submissionResult w with
                      | Some (Validated txResponse, w) => after_response txResponse w
                      | other => other
                      end
                    else Some (Failed (VStr (other_error_text message submissionResult error)), w)
                end
          end
      end
  end.

Definition waitForFinalTransactionOutcome (fuel : nat) (txHash : val) (lastLedger : option Z)
    (submissionResult : val) (w : world) : option (outcome val * world) :=
  match wait_core fuel txHash lastLedger submissionResult w with
  | Some (x, w') => Some (thrown_or_returned submissionResult x, w')
  | None => None
  end.

Fixpoint map_outcome {A B} (f : A -> outcome B) (l : list A) : outcome (list B) :=
  match l with
  | [] => Return []
  | x :: l' => obind (f x) (fun y => obind (map_outcome f l') (fun ys => Return (y :: ys)))
  end.

(** [txResult.details?.meta?.HookExecutions?.map(...)] *)
Definition hookExecRes (result : val) : outcome val :=
  match opt_get (opt_get result "meta") "HookExecutions" with
  | VUndef | VNull => Return VUndef
  | VArr l => obind (map_outcome hookExecution l) (fun l' => Return (VArr l'))
  | _ => Throw (TypeError "txResult.details?.meta?.HookExecutions?.map is not a function")
  end.

(** [#prepareResponse] *)
Definition prepareResponse (fuel : nat) (tx : submitted_transaction) (submissionResult : val)
    (w : world) : option (outcome val * world) :=
  match submission_hash submissionResult with
  | Throw e => Some (Throw e, w)
  | Return hash =>
      match waitForFinalTransactionOutcome fuel hash (LastLedgerSequence tx) submissionResult w with
      | None => None
      | Some (Throw e, w') => Some (Throw e, w')
      | Some (Return result, w') =>
          let code := opt_get (opt_get result "meta") "TransactionResult" in
          let txResult :=
            spread (obj [("id", opt_get result "hash"); ("code", code); ("details", result)]) in
          match hookExecRes result with
          | Throw e => Some (Throw e, w')
          | Return execs =>
              let answer :=
                VObj (obj_merge txResult
                        (if truthy execs then {["hookExecutionResult" := execs]} else ∅)) in
              if str_eq code "tesSUCCESS" then Some (Return answer, w')
              else Some (Throw answer, w')
          end
      end
  end.

Definition submit_request (tx_blob : val) : val :=
  obj [("command", VStr "submit"); ("tx_blob", tx_blob)].

(** [submitAndWait] *)
Definition submitAndWait (fuel : nat) (tx : submitted_transaction) (tx_blob : val) (w : world)
    : option (outcome val * world) :=
  match handleClientRequest c (submit_request tx_blob) w with
  | (Throw e, w') => Some (Throw e, w')
  | (Return submissionResult, w') => prepareResponse fuel tx submissionResult w'
  end.

Definition clear_signing_key (tx : submitted_transaction) : submitted_transaction :=
  Tx (LastLedgerSequence tx) (<["SigningPubKey" := VStr ""]> (tx_fields tx)).

Definition submit_multisigned_request (tx : submitted_transaction) : val :=
  obj [("command", VStr "submit_multisigned"); ("tx_json", tx_json tx)].

(** [submitMultisignedAndWait] *)
Definition submitMultisignedAndWait (fuel : nat) (tx : submitted_transaction) (w : world)
    : option (outcome val * world) :=
  let tx := clear_signing_key tx in
  match handleClientRequest c (submit_multisigned_request tx) w with
  | (Throw e, w') => Some (Throw e, w')
  | (Return submissionResult, w') => prepareResponse fuel tx submissionResult w'
  end.

(** **** One poll of the wait loop *)

Inductive seen : Type :=
  | SeenPending
  | SeenExit (x : wait_exit).

(** What the body of the wait does in a world that has just slept. *)
Definition poll (txHash : val) (last : Z) (submissionResult : val) (w : world) : seen * world :=
  match getLedgerIndex c (now w) with
  | Throw e => (SeenExit (Failed e), w)
  | Return latestLedger =>
      if last <? latestLedger then (SeenExit (Expired latestLedger last), w)
      else
        let w' := log_request (getTxnInfo_request txHash VUndef) w in
        match request c (now w) (getTxnInfo_request txHash VUndef) with
        | Throw error =>
            let message := opt_get (opt_get error "data") "error" in
            if str_eq message "txnNotFound" then (SeenPending, w')
            else (SeenExit (Failed (VStr (other_error_text message submissionResult error))), w')
        | Return resp =>
            match get (opt_get resp "result") "validated" with
            | Throw e => (SeenExit (Failed e), w')
            | Return v =>
                if truthy v then (SeenExit (Validated (opt_get resp "result")), w')
                else (SeenPending, w')
            end
        end
  end.

(** **** The wait loop against a simulated ledger *)

(** The time of the [j]-th poll (from 0) of a wait that starts at [t0]. *)
Definition poll_time (t0 : Z) (j : nat) : Z := t0 + (Z.of_nat j + 1) * LEDGER_CLOSE_TIME.

(** The transaction query says "not found", or answers with a transaction
    that is not validated. *)
Definition not_validated_yet (o : outcome val) : Prop :=
  (exists error, o = Throw error /\
     str_eq (opt_get (opt_get error "data") "error") "txnNotFound" = true)
  \/ (exists resp v, o = Return resp /\
        get (opt_get resp "result") "validated" = Return v /\ truthy v = false).

(** The transaction query answers with the validated transaction [r]. *)
Definition found_validated (o : outcome val) (r : val) : Prop :=
  exists resp v, o = Return resp /\ r = opt_get resp "result" /\
    get r "validated" = Return v /\ truthy v = true.

(** At time [t] the ledger index has not passed [E] and the transaction is
    not found as validated. *)
Definition pending_at (txHash : val) (E t : Z) : Prop :=
  exists L, getLedgerIndex c t = Return L /\ L <= E /\
    not_validated_yet (request c t (getTxnInfo_request txHash VUndef)).

End Submission.

(** *** Multi-signing *)

Definition EMPTY_TRANSACTION_LIST : string := "Transaction list is empty for multi-signing.".

Section MultiSign.
(** [xrpl.multisign] of the xrpl package. *)
Variable xrpl_multisign : list val -> outcome val.

(** [multiSign] *)
Definition multiSign (transactions : list val) : outcome val :=
  if (0 <? length transactions)%nat then xrpl_multisign transactions
  else Throw (VStr EMPTY_TRANSACTION_LIST).

End MultiSign.

(** *** Vocabulary of the paging properties *)

(** A page request whose limit is within the cap. *)
Definition limit_capped (req : val) : Prop :=
  exists l, opt_get req "limit" = VNum l /\ l <= MAX_PAGE_LIMIT.

(** The items of the answer to a page request sent at time [t]. *)
Definition page_of (c : client) (t : Z) (requestType : string) (req : val) (items : list val)
    : Prop :=
  exists resp, request c t req = Return resp /\ page_items requestType resp = Return items.

(** *** Simulated collaborators *)

(** A stream message of a payment to [rHost] that the engine refused. *)
Definition failed_payment : tx_message :=
  TxMessage (VBool true)
    (spread (obj [("TransactionType", VStr "Payment"); ("Account", VStr "rTenant");
                  ("Destination", VStr "rHost")]))
    (VStr "E3F1") 120 VUndef (VStr "tecUNFUNDED_PAYMENT") (VStr "Insufficient balance to send.").

Definition no_tokens (a : string) (i : Z) : outcome (list val) := Return [].

Definition fresh : world := World [] [] 0.

(** A simulated ledger: the index is 100 at the start and grows by one each
    second; a submission is accepted provisionally with hash [ABC]; the
    transaction shows up validated from time [validated_from] on (never, when
    that is [None]). *)
Definition provisional : val :=
  obj [("result", obj [("engine_result", VStr "tesSUCCESS");
                       ("tx_json", obj [("hash", VStr "ABC")])])].

Definition validated_payment : val :=
  obj [("hash", VStr "ABC"); ("validated", VBool true);
       ("meta", obj [("TransactionResult", VStr "tesSUCCESS")])].

Definition simulated_ledger (validated_from : option Z) : client :=
  Client
    (fun t req =>
       if str_eq (opt_get req "command") "tx" then
         match validated_from with
         | Some t0 =>
             if t0 <=? t
             then Return (obj [("result", validated_payment)])
             else Throw (obj [("data", obj [("error", VStr "txnNotFound")])])
         | None => Throw (obj [("data", obj [("error", VStr "txnNotFound")])])
         end
       else Return provisional)
    (fun t => Return (100 + t / 1000)).

Definition no_text (v : val) : string := "".

Definition unsigned_payment : submitted_transaction :=
  Tx None (spread (obj [("TransactionType", VStr "Payment"); ("Account", VStr "rHost")])).

(** A simulated endpoint with three pages of 400, 400 and 50 lines, the first
    two carrying a marker. *)
Definition page (from n : Z) (marker : list (string * val)) : val :=
  obj [("result", obj (("lines", VArr (VNum <$> seqZ from n)) :: marker))].

Definition three_pages : client :=
  Client
    (fun _ req =>
       match opt_get req "marker" with
       | VUndef => Return (page 0 400 [("marker", VStr "m1")])
       | VStr "m1" => Return (page 400 400 [("marker", VStr "m2")])
       | VStr "m2" => Return (page 800 50 [])
       | _ => Return (page 0 0 [])
       end)
    (fun _ => Return 1).

Definition account_lines (limit : list (string * val)) : gmap string val :=
  spread (obj (("command", VStr "account_lines") :: ("account", VStr "rHost") :: limit)).

End XrplApi.

(** ** HostClient *)

Module HostClient.

Definition TX_RETRY_INTERVAL : Z := 3000.

(** [options.retryOptions]; either field may be missing. *)
Record retry_options := RetryOptions {
  maxRetryAttempts : option Z;
  feeUplift : option Z
}.

(** [options?.maxRetryAttempts || 1] *)
Definition max_attempts (options : option retry_options) : Z :=
  match options with
  | Some o =>
      match maxRetryAttempts o with
      | Some z => if z =? 0 then 1 else z
      | None => 1
      end
  | None => 1
  end.

(** [options?.feeUplift || 0] *)
Definition fee_increment (options : option retry_options) : Z :=
  match options with
  | Some o => default 0 (feeUplift o)
  | None => 0
  end.

(** What a run of the wrapper does, in order. *)
Inductive event : Type :=
  | Attempt (feeUplift : Z)
  | Sleep (ms : Z).

#[global] Instance event_eq_dec : EqDecision event.
Proof. solve_decision. Defined.

Definition terminal_code (code : val) : bool :=
  str_eq code "tecDUPLICATE" || str_eq code "tefPAST_SEQ" || str_eq code "tefALREADY".

Section Retry.
(** The submission callback. It is called with the fee uplift alone; the
    number of the attempt (from 1) stands for whatever else its answer
    depends on. *)
Variable callback : nat -> Z -> outcome val.
Variable options : option retry_options.

(** The [while] loop of [#submitWithRetry]; [attempt] and [feeUplift] are the
    loop variables. *)
Fixpoint retry_loop (fuel : nat) (attempt : nat) (feeUplift : Z) (trace : list event)
    : option (outcome val * list event) :=
  match fuel with
  | O => None
  | S fuel' =>
      if Z.of_nat attempt <=? max_attempts options then
        let attempt := S attempt in
        let trace := trace ++ [Attempt feeUplift] in
        match callback attempt feeUplift with
        | Return v => Some (Return v, trace)
        | Throw e =>
            if Z.of_nat attempt =? max_attempts options then Some (Throw e, trace)
            else
              match get e "code" with
              | Throw type_error => Some (Throw type_error, trace)
              | Return code =>
                  if terminal_code code then Some (Throw e, trace)
                  else
                    let feeUplift :=
                      if str_eq (opt_get e "status") "TOOK_LONG"
                      then feeUplift + fee_increment options
                      else feeUplift in
                    retry_loop fuel' attempt feeUplift (trace ++ [Sleep TX_RETRY_INTERVAL])
              end
        end
      else Some (Return VUndef, trace)
  end.

Definition submitWithRetry : option (outcome val * list event) :=
  retry_loop (S (Z.to_nat (max_attempts options))) 0 0 [].

Definition is_attempt (ev : event) : bool :=
  match ev with Attempt _ => true | Sleep _ => false end.

(** The number of times the callback was called. *)
Definition attempts (trace : list event) : nat := length (List.filter is_attempt trace).

(** The failure carries one of the three terminal codes. *)
Definition terminal (e : val) : bool :=
  match get e "code" with Return code => terminal_code code | Throw _ => false end.

(** The uplift the next attempt is called with. *)
Definition next_uplift (feeUplift : Z) (e : val) : Z :=
  if str_eq (opt_get e "status") "TOOK_LONG" then feeUplift + fee_increment options
  else feeUplift.

(** What a failed attempt is followed by, for the attempt at position [2 * n]
    of a trace. *)
Definition after_failure (res : outcome val) (trace : list event) (n : nat) : Prop :=
  forall fee e,
    trace !! (2 * n)%nat = Some (Attempt fee) -> callback (S n) fee = Throw e ->
    (terminal e = true -> res = Throw e /\ length trace = S (2 * n))
    /\ (Z.of_nat (S n) = max_attempts options -> res = Throw e /\ length trace = S (2 * n))
    /\ (Z.of_nat (S n) <> max_attempts options -> nullish e = false -> terminal e = false ->
        trace !! (S (2 * n)) = Some (Sleep TX_RETRY_INTERVAL)
        /\ trace !! (S (S (2 * n))) = Some (Attempt (next_uplift fee e))).

End Retry.

(** *** Registration checks *)

Record registration := Registration {
  countryCode : string;
  cpuMicroSec : number;
  ramMb : number;
  diskMb : number;
  totalInstanceCount : number;
  cpuModel : string;
  cpuCount : number;
  cpuSpeed : number;
  description : string;
  emailAddress : string
}.

Definition code (ch : ascii) : nat := nat_of_ascii ch.

(** [[A-Z]] *)
Definition upper (ch : ascii) : bool := (65 <=? code ch)%nat && (code ch <=? 90)%nat.

(** [/^([A-Z]{2})$/.test(s)] *)
Definition country_code_matches (s : string) : bool :=
  match s with
  | String a (String b EmptyString) => upper a && upper b
  | _ => false
  end.

(** [!x || isNaN(x) || x % 1 != 0 || x < 0] *)
Definition not_positive_integer (x : number) : bool :=
  number_falsy x || isNaN x || has_fraction x || negative x.

(** [/^((?![;])[\x00-\x7F]){0,26}$/.test(s)] *)
Definition description_char (ch : ascii) : bool :=
  negb (bool_decide (ch = ";"%char)) && (code ch <=? 127)%nat.
Definition description_matches (s : string) : bool :=
  forallb description_char (list_ascii_of_string s) && (String.length s <=? 26)%nat.

(** [.] of a regular expression: any character but a line terminator. *)
Definition dot (ch : ascii) : bool := negb ((code ch =? 10)%nat || (code ch =? 13)%nat).

(** [/.+@.+/.test(s)]: somewhere an [@] stands between two characters that
    [.] accepts. *)
Fixpoint at_between (s : string) : bool :=
  match s with
  | EmptyString => false
  | String a rest =>
      match rest with
      | String b (String ch _) => dot a && bool_decide (b = "@"%char) && dot ch
      | _ => false
      end || at_between rest
  end.

(** [!s || !(/.+@.+/.test(s)) || s.length > 40] *)
Definition email_rejected (s : string) : bool :=
  bool_decide (s = "") || negb (at_between s) || (40 <? String.length s)%nat.

(** The chain of checks at the head of [register]: the message of the first
    check that fails. *)
Definition registration_error (r : registration) : option string :=
  if negb (country_code_matches (countryCode r))
  then Some "countryCode should consist of 2 uppercase alphabetical characters"
  else if not_positive_integer (cpuMicroSec r)
  then Some "cpuMicroSec should be a positive integer"
  else if not_positive_integer (ramMb r)
  then Some "ramMb should be a positive integer"
  else if not_positive_integer (diskMb r)
  then Some "diskMb should be a positive integer"
  else if not_positive_integer (totalInstanceCount r)
  then Some "totalInstanceCount should be a positive intiger"
  else if not_positive_integer (cpuCount r)
  then Some "CPU count should be a positive integer"
  else if not_positive_integer (cpuSpeed r)
  then Some "CPU speed should be a positive integer"
  else if bool_decide (cpuModel r = "")
  then Some "cpu model cannot be empty"
  else if negb (description_matches (description r))
  then Some "description should consist of 0-26 ascii characters except ';'"
  else if email_rejected (emailAddress r)
  then Some "Email address should be valid and can not have more than 40 characters."
  else None.

Section Register.
(** The state of the host and of the ledger as the host sees it, and the part
    of [register] that follows the checks, from [await this.isRegistered()]
    on: every ledger request and every change of state is made there. *)
Variable W : Type.
Variable register_after_checks : registration -> M W val.

Definition register (r : registration) : M W val :=
  match registration_error r with
  | Some message => throw (VStr message)
  | None => register_after_checks r
  end.

End Register.

(** What the checks are meant to let through. *)
Definition two_uppercase_letters (s : string) : Prop :=
  exists a b, s = String a (String b "") /\
    (65 <= code a <= 90)%nat /\ (65 <= code b <= 90)%nat.

Definition positive_integer (x : number) : Prop :=
  exists n q, 0 < n /\ x = Fin q /\ (q == inject_Z n)%Q.

Definition contains (ch : ascii) (s : string) : Prop := In ch (list_ascii_of_string s).

Definition at_with_text_around (s : string) : Prop :=
  exists before after, s = before +:+ String "@" after /\ before <> "" /\ after <> "".

Definition invalid_registration (r : registration) : Prop :=
  ~ two_uppercase_letters (countryCode r)
  \/ ~ positive_integer (cpuMicroSec r) \/ ~ positive_integer (ramMb r)
  \/ ~ positive_integer (diskMb r) \/ ~ positive_integer (totalInstanceCount r)
  \/ ~ positive_integer (cpuCount r) \/ ~ positive_integer (cpuSpeed r)
  \/ cpuModel r = ""
  \/ (26 < String.length (description r))%nat \/ contains ";" (description r)
  \/ ~ at_with_text_around (emailAddress r) \/ (40 < String.length (emailAddress r))%nat.

Definition registration_messages : list string :=
  [ "countryCode should consist of 2 uppercase alphabetical characters";
    "cpuMicroSec should be a positive integer";
    "ramMb should be a positive integer";
    "diskMb should be a positive integer";
    "totalInstanceCount should be a positive intiger";
    "CPU count should be a positive integer";
    "CPU speed should be a positive integer";
    "cpu model cannot be empty";
    "description should consist of 0-26 ascii characters except ';'";
    "Email address should be valid and can not have more than 40 characters." ].

(** *** Simulated input *)

Definition well_formed_host : registration :=
  Registration "AU" (Fin 800000) (Fin 4096) (Fin 51200) (Fin 3) "Intel Xeon" (Fin 4) (Fin 2400)
    "sample host" "ops@example.org".

Definition lowercase_country : registration :=
  Registration "us" (Fin 1) (Fin 1) (Fin 1) (Fin 1) "x" (Fin 1) (Fin 1) "" "a@b".

End HostClient.

(** ** EvernodeHook *)

Module EvernodeHook.

(** The tables of [evernode-common] the hook reads.  The file that defines
    them is not part of the sources at hand, so their values are taken as
    given: memo types and formats, the currency code, the keys of the hook
    states and the defaults of the configuration. *)
Record common := Common {
  EVR : string;
  REDEEM : string;
  REDEEM_REF : string;
  REDEEM_RESP : string;
  REFUND : string;
  HOST_REG : string;
  HOST_DEREG : string;
  AUDIT_REQ : string;
  AUDIT_SUCCESS : string;
  BINARY : string;
  JSON : string;
  TEXT : string;
  KEY_HOST_REG_FEE : string;
  KEY_MOMENT_SIZE : string;
  KEY_REDEEM_WINDOW : string;
  KEY_MIN_REDEEM : string;
  KEY_MOMENT_BASE_IDX : string;
  DEFAULT_HOST_REG_FEE : val;
  DEFAULT_MOMENT_SIZE : Z;
  DEFAULT_REDEEM_WINDOW : Z;
  DEFAULT_MIN_REDEEM : Z;
  DEFAULT_MOMENT_BASE_IDX : Z
}.

(** *** Events *)

Record memo := Memo { type : val; format : val; data : val }.

(** A received payment: the fields the extractor reads.  [Memos] is absent
    or an array of memo records. *)
Record payment := Payment {
  Account : val;
  Destination : val;
  Amount : val;
  Memos : option (list memo)
}.

(** [{ name: HookEvents.X, data: { ... } }], one constructor for each name. *)
Inductive hook_event : Type :=
  | Reward (transaction : payment) (host amount : val)
  | Redeem (transaction : payment) (user host token moments payload : val)
  | RedeemError (transaction : payment) (redeemTxHash reason : val)
  | RedeemSuccess (transaction : payment) (redeemTxHash payload : val)
  | RefundRequest (transaction : payment) (redeemTxHash : val)
  | HostRegistered (transaction : payment) (host token instanceSize location : val)
  | HostDeregistered (transaction : payment) (host : val)
  | AuditRequest (transaction : payment) (auditor : val)
  | AuditSuccess (transaction : payment) (auditor : val).

(** [typeof v === 'object'] *)
Definition typeof_object (v : val) : bool :=
  match v with VObj _ | VArr _ | VNull => true | _ => false end.

(** [s.split(';')] *)
Fixpoint split_semicolon (s : string) : list string :=
  match s with
  | EmptyString => [""]
  | String ch rest =>
      if bool_decide (ch = ";"%char) then "" :: split_semicolon rest
      else match split_semicolon rest with
           | [] => [String ch ""]
           | part :: parts => String ch part :: parts
           end
  end.

Definition part (parts : list string) (i : nat) : val :=
  match parts !! i with Some p => VStr p | None => VUndef end.

Section Extractor.
Variable K : common.
(** The address of the hook account, the addresses of the registered hosts
    ([getHosts] decodes them from the hook states with the address codec of
    another package), and two functions of the language. *)
Variable hookAddress : val.
Variable hostAddresses : outcome (list val).
Variable JSON_parse : val -> outcome val.
Variable parseInt : val -> val.

(** The first test of the extractor: an outgoing payment in EVR to a
    registered host. *)
Definition is_reward (tx : payment) : outcome bool :=
  if strict_eq (Account tx) hookAddress && typeof_object (Amount tx) then
    obind (get (Amount tx) "currency") (fun currency =>
      if str_eq currency (EVR K) then
        obind hostAddresses (fun hosts =>
          Return (existsb (fun h => strict_eq h (Destination tx)) hosts))
      else Return false)
  else Return false.

(** The second test on the memos: at least two memos, the first a binary
    [REDEEM_REF] with data, the second a [REDEEM_RESP] with data.  It gives
    the second memo when it holds. *)
Definition redeem_response (m0 : memo) (rest : list memo) : option memo :=
  match rest with
  | m1 :: _ =>
      if str_eq (format m0) (BINARY K) && str_eq (type m0) (REDEEM_REF K) && truthy (data m0)
         && str_eq (type m1) (REDEEM_RESP K) && truthy (data m1)
      then Some m1 else None
  | [] => None
  end.

(** The chain of tests on the memos, for a non-empty array [m0 :: rest]. *)
Definition by_memos (tx : payment) (m0 : memo) (rest : list memo)
    : outcome (option hook_event) :=
  if str_eq (format m0) (BINARY K) && str_eq (type m0) (REDEEM K) && truthy (data m0) then
    obind (get (Amount tx) "issuer") (fun issuer =>
      obind (get (Amount tx) "currency") (fun currency =>
        obind (get (Amount tx) "value") (fun value =>
          Return (Some (Redeem tx (Account tx) issuer currency (parseInt value) (data m0))))))
  else
    match redeem_response m0 rest with
    | Some m1 =>
        let redeemTxHash := data m0 in
        let payload := data m1 in
        if str_eq (format m1) (JSON K) then
          obind (JSON_parse payload) (fun error =>
            obind (get error "reason") (fun reason =>
              Return (Some (RedeemError tx redeemTxHash reason))))
        else Return (Some (RedeemSuccess tx redeemTxHash payload))
    | None =>
        if str_eq (format m0) (BINARY K) && str_eq (type m0) (REFUND K) && truthy (data m0) then
          Return (Some (RefundRequest tx (data m0)))
        else if str_eq (format m0) (TEXT K) && str_eq (type m0) (HOST_REG K) && truthy (data m0) then
          match data m0 with
          | VStr text =>
              let parts := split_semicolon text in
              Return (Some (HostRegistered tx (Account tx) (part parts 0) (part parts 1)
                              (part parts 2)))
          | _ => Throw (TypeError "tx.Memos[0].data.split is not a function")
          end
        else if str_eq (type m0) (HOST_DEREG K) then
          Return (Some (HostDeregistered tx (Account tx)))
        else if str_eq (format m0) (BINARY K) && str_eq (type m0) (AUDIT_REQ K) then
          Return (Some (AuditRequest tx (Account tx)))
        else if str_eq (format m0) (BINARY K) && str_eq (type m0) (AUDIT_SUCCESS K) then
          Return (Some (AuditSuccess tx (Account tx)))
        else Return None
    end.

(** [#extractEvernodeHookEvent]; [None] is the [null] of the source. *)
Definition extractEvernodeHookEvent (tx : payment) : outcome (option hook_event) :=
  obind (is_reward tx) (fun reward =>
    if reward then
      obind (get (Amount tx) "value") (fun amount =>
        Return (Some (Reward tx (Destination tx) amount)))
    else
      match Memos tx with
      | None | Some [] => Return None
      | Some (m0 :: rest) => by_memos tx m0 rest
      end).

End Extractor.

(** *** Configuration and moments *)

Record config := Config {
  hostRegFee : val;
  momentSize : Z;
  redeemWindow : Z;
  minRedeem : Z;
  momentBaseIdx : Z
}.

(** A hook state after [Buffer.from(s.data, 'hex')]: its key and its bytes. *)
Definition hook_state : Type := string * list Z.

(** The hook object and what it sees: the cached configuration, the number
    of times the hook states were read from the ledger, and the ledger version
    the API holds ([None] before the first ledger is known). *)
Record hook_world := HookWorld {
  cachedConfig : option config;
  reads : nat;
  ledgerVersion : option Z
}.

Definition RangeError : val :=
  obj [("name", VStr "RangeError"); ("code", VStr "ERR_OUT_OF_RANGE")].

(** What a read past the end of a buffer throws. *)
Definition OutOfBounds : val :=
  obj [("name", VStr "RangeError"); ("code", VStr "ERR_BUFFER_OUT_OF_BOUNDS")].

Definition big_endian (bytes : list Z) : Z := fold_left (fun acc b => acc * 256 + b) bytes 0.

(** [buf.readUInt16BE()] and [buf.readBigUInt64BE()], the latter a [BigInt]:
    the exact integer of the first [width] bytes. *)
Definition readUIntBE (width : nat) (buf : list Z) : outcome Z :=
  if (length buf <? width)%nat then Throw OutOfBounds
  else Return (big_endian (take width buf)).

(** [readUInt(buf, 16)] and [readUInt(buf, 64)] as [getConfig] calls them, the
    second being [Number(buf.readBigUInt64BE())]. *)
Definition readUInt16 (buf : list Z) : outcome Z := readUIntBE 2 buf.
Definition readUInt64 (buf : list Z) : outcome Z :=
  obind (readUIntBE 8 buf) (fun n => Return (Double.Number_of_BigInt n)).

Definition readBigInt64BE (buf : list Z) : outcome Z :=
  obind (readUIntBE 8 buf) (fun u => Return (if 2 ^ 63 <=? u then u - 2 ^ 64 else u)).

(** [getStateData]: the data of the first state with the key. *)
Definition getStateData (states : list hook_state) (key : string) : option (list Z) :=
  snd <$> List.find (fun s => bool_decide (key = fst s)) states.

(** The states hold [bytes] under [key]: the first state with this key has
    them.  And: no state has the key. *)
Definition holds (states : list hook_state) (key : string) (bytes : list Z) : Prop :=
  exists pre post,
    states = pre ++ (key, bytes) :: post /\ forall s, s ∈ pre -> fst s <> key.

Definition lacks (states : list hook_state) (key : string) : Prop :=
  forall s, s ∈ states -> fst s <> key.

(** [Math.floor(a / b)] for integers that are doubles. *)
Definition floor_div (a b : Z) : number := Double.floor (Double.divide a b).

Section Config.
Variable K : common.
(** The hook states as the [n]-th read of the ledger gives them (from 0), and
    [XflHelpers.toString] of another file. *)
Variable getHookStates : nat -> outcome (list hook_state).
Variable xfl_toString : Z -> outcome val.

(** [buf ? readUInt(buf, base) : default] *)
Definition uint_or (states : list hook_state) (key : string)
    (readUInt : list Z -> outcome Z) (default : Z) : outcome Z :=
  match getStateData states key with
  | Some buf => readUInt buf
  | None => Return default
  end.

(** The configuration that [getConfig] builds from the states. *)
Definition decode_config (states : list hook_state) : outcome config :=
  obind (match getStateData states (KEY_HOST_REG_FEE K) with
         | Some buf => obind (readBigInt64BE buf) xfl_toString
         | None => Return (DEFAULT_HOST_REG_FEE K)
         end) (fun fee =>
  obind (uint_or states (KEY_MOMENT_SIZE K) readUInt16 (DEFAULT_MOMENT_SIZE K)) (fun size =>
  obind (uint_or states (KEY_REDEEM_WINDOW K) readUInt16 (DEFAULT_REDEEM_WINDOW K)) (fun window =>
  obind (uint_or states (KEY_MIN_REDEEM K) readUInt16 (DEFAULT_MIN_REDEEM K)) (fun redeem =>
  obind (uint_or states (KEY_MOMENT_BASE_IDX K) readUInt64 (DEFAULT_MOMENT_BASE_IDX K)) (fun base =>
  Return (Config fee size window redeem base)))))).

(** [getConfig]: read the states, build the configuration, cache it. *)
Definition getConfig : M hook_world config :=
  fun w =>
    match obind (getHookStates (reads w)) decode_config with
    | Throw e => (Throw e, HookWorld (cachedConfig w) (S (reads w)) (ledgerVersion w))
    | Return cfg => (Return cfg, HookWorld (Some cfg) (S (reads w)) (ledgerVersion w))
    end.

(** [getMoment]; the argument is [None] for [null].  The ledger version and
    the numbers of the configuration are integers that are doubles. *)
Definition getMoment (version : option Z) : M hook_world number :=
  (_ <- (fun w => match cachedConfig w with
                  | None => getConfig w
                  | Some cfg => (Return cfg, w)
                  end) ;;
   fun w =>
     let lv := match version with
               | Some z => if z =? 0 then ledgerVersion w else Some z
               | None => ledgerVersion w
               end in
     match cachedConfig w with
     | None => (Throw (TypeError "Cannot read properties of null (reading 'momentBaseIdx')"), w)
     | Some cfg =>
         (Return (match lv with
                  | Some lv =>
                      floor_div (Double.subtract lv (momentBaseIdx cfg)) (momentSize cfg)
                  | None => NaN
                  end), w)
     end)%js.

End Config.

(** *** Simulated collaborators *)

(** A sample of the tables: the values that the copy of [evernode-common]
    inside [host-client.js] gives, and sample values for the entries that
    copy lacks. *)
Definition sample_common : common :=
  {| EVR := "EVR";
     REDEEM := "evnRedeem";
     REDEEM_REF := "evnRedeemRef";
     REDEEM_RESP := "evnRedeemResp";
     REFUND := "evnRefund";
     HOST_REG := "evnHostReg";
     HOST_DEREG := "evnHostDereg";
     AUDIT_REQ := "evnAuditRequest";
     AUDIT_SUCCESS := "evnAuditSuccess";
     BINARY := "binary";
     JSON := "text/json";
     TEXT := "text/plain";
     KEY_HOST_REG_FEE := "4556520100000000000000000000000000000000000000000000000000000003";
     KEY_MOMENT_SIZE := "4556520100000000000000000000000000000000000000000000000000000001";
     KEY_REDEEM_WINDOW := "4556520100000000000000000000000000000000000000000000000000000005";
     KEY_MIN_REDEEM := "4556520100000000000000000000000000000000000000000000000000000006";
     KEY_MOMENT_BASE_IDX := "4556523400000000000000000000000000000000000000000000000000000000";
     DEFAULT_HOST_REG_FEE := VStr "5120";
     DEFAULT_MOMENT_SIZE := 72;
     DEFAULT_REDEEM_WINDOW := 12;
     DEFAULT_MIN_REDEEM := 12;
     DEFAULT_MOMENT_BASE_IDX := 0 |}.

(** The text [{"type":"REDEEM_ERR","reason":"NO_CAPACITY"}] and a JSON
    reader that knows this one text. *)
Definition quoted (s : string) : string :=
  String (ascii_of_nat 34) s +:+ String (ascii_of_nat 34) "".

Definition no_capacity : string :=
  "{" +:+ quoted "type" +:+ ":" +:+ quoted "REDEEM_ERR" +:+ "," +:+
  quoted "reason" +:+ ":" +:+ quoted "NO_CAPACITY" +:+ "}".

Definition parse_one (v : val) : outcome val :=
  if str_eq v no_capacity
  then Return (obj [("type", VStr "REDEEM_ERR"); ("reason", VStr "NO_CAPACITY")])
  else Throw (VStr "SyntaxError").

Definition redeem_memos (fmt payload : string) : list memo :=
  [Memo (VStr "evnRedeemRef") (VStr "binary") (VStr "A1B2");
   Memo (VStr "evnRedeemResp") (VStr fmt) (VStr payload)].

Definition redeem_failed : payment :=
  Payment (VStr "rHost") (VStr "rHook") (VStr "1")
    (Some (redeem_memos "text/json" no_capacity)).


Definition sample_states (n : nat) : outcome (list hook_state) :=
  Return [(KEY_MOMENT_SIZE sample_common, [0; 72]);
          (KEY_MOMENT_BASE_IDX sample_common, [0; 0; 0; 0; 0; 0; 0; 100])].

(** States whose base index is [2 ^ 63] and whose moment size is 1. *)
Definition far_states (n : nat) : outcome (list hook_state) :=
  Return [(KEY_MOMENT_SIZE sample_common, [0; 1]);
          (KEY_MOMENT_BASE_IDX sample_common, [128; 0; 0; 0; 0; 0; 0; 0])].

Definition sample_config : config := Config (VStr "5120") 72 12 12 100.

Definition decimal (z : Z) : outcome val := Return (VStr (pretty z)).

End EvernodeHook.

(** ** XrplApi: vocabulary of the further properties *)

Module XrplApiTerms.
Import XrplApi.

(** A page request of a run that started from [requestObj]: the caller's
    request with a limit between 1 and [MAX_PAGE_LIMIT]; only [limit] and
    [marker] differ from what the caller gave. *)
Definition page_request_of (requestObj : gmap string val) (req : val) : Prop :=
  exists o l,
    req = VObj o /\ o !! "limit" = Some (VNum l) /\ 1 <= l <= MAX_PAGE_LIMIT
    /\ forall k, k <> "limit" -> k <> "marker" -> o !! k = requestObj !! k.

End XrplApiTerms.

(** ** XrplApi: single requests *)

Module LedgerQueries.
Import XrplApi.

Section WithClient.
Variable c : client.

Definition account_info_request (address : val) : val :=
  obj [("command", VStr "account_info"); ("account", address)].

(** [isAccountExists]: the [catch] handler reads [e.data.error] without
    guarding, so a failure without [data] ends in a TypeError. *)
Definition isAccountExists (address : val) : M world bool :=
  fun w =>
    match handleClientRequest c (account_info_request address) w with
    | (Return _, w') => (Return true, w')
    | (Throw e, w') =>
        match obind (get e "data") (fun data => get data "error") with
        | Throw type_error => (Throw type_error, w')
        | Return code =>
            if str_eq code "actNotFound" then (Return false, w') else (Throw e, w')
        end
    end.

(** [getAccountInfo]: [resp?.result?.account_data] *)
Definition getAccountInfo (address : val) : M world val :=
  (resp <- handleClientRequest c (account_info_request address) ;;
   ret (opt_get (opt_get resp "result") "account_data"))%js.

Definition ledger_entry_request (index options : val) : val :=
  VObj (obj_merge
          (spread (obj [("command", VStr "ledger_entry"); ("index", index);
                        ("ledger_index", VStr "validated")]))
          (spread options)).

(** [getLedgerEntry]: [resp?.result?.node], or [null] when the entry is not
    found; the handler reads [e?.data?.error]. *)
Definition getLedgerEntry (index options : val) : M world val :=
  fun w =>
    match handleClientRequest c (ledger_entry_request index options) w with
    | (Return resp, w') => (Return (opt_get (opt_get resp "result") "node"), w')
    | (Throw e, w') =>
        if str_eq (opt_get (opt_get e "data") "error") "entryNotFound"
        then (Return VNull, w')
        else (Throw e, w')
    end.

(** [getTransactionFee]: [fees?.result?.drops?.base_fee] *)
Definition getTransactionFee (txBlob : val) : M world val :=
  (fees <- handleClientRequest c (obj [("command", VStr "fee"); ("tx_blob", txBlob)]) ;;
   ret (opt_get (opt_get (opt_get fees "result") "drops") "base_fee"))%js.

(** *** [HostClient.isTransferee] *)

(** The two functions of [StateHelpers], which live in another file. *)
Variable generateTransfereeAddrStateKey : val -> outcome val.
Variable getHookStateIndex : val -> val -> outcome val.

Definition isTransferee (governorAddress hostAddress : val) : M world bool :=
  fun w =>
    match obind (generateTransfereeAddrStateKey hostAddress)
            (getHookStateIndex governorAddress) with
    | Throw e => (Throw e, w)
    | Return stateTransfereeAddrIndex =>
        (res <- getLedgerEntry stateTransfereeAddrIndex VUndef ;;
         ret (truthy res && truthy (opt_get res "HookStateData")))%js w
    end.

End WithClient.

(** *** Simulated collaborators *)

(** A client that is not connected: every request fails with an error that
    has a message and no [data]. *)
Definition not_connected : val := obj [("message", VStr "NotConnectedError")].
Definition offline : client := Client (fun _ _ => Throw not_connected) (fun _ => Throw not_connected).

(** A ledger that knows no entry and no account. *)
Definition empty_ledger : client :=
  Client
    (fun _ req =>
       if str_eq (opt_get req "command") "ledger_entry"
       then Throw (obj [("data", obj [("error", VStr "entryNotFound")])])
       else Throw (obj [("data", obj [("error", VStr "actNotFound")])]))
    (fun _ => Return 1).

End LedgerQueries.

(** ** XrplApi: construction and reconnection *)

Module Connection.

(** [Defaults.values], of another file: either entry may be missing. *)
Record defaults := Defaults {
  default_rippledServer : option string;
  default_fallbackRippledServers : option (list string)
}.

(** The [options] of the constructor; a missing property is [None] or
    [undefined]. *)
Record options := Options {
  fallbackRippledServers : option (list string);
  xrplClientOptions : val;
  autoReconnect : val
}.

(** The private fields the constructor sets. *)
Record api := Api {
  primaryServer : option string;
  fallbackServers : list string;
  clientOptions : val;
  autoReconnects : val
}.

(** [!s] for a string or [null] *)
Definition no_server (s : option string) : bool :=
  match s with Some s => bool_decide (s = "") | None => true end.

Definition SERVER_REQUIRED : string := "Either primaryServer or fallbackServers required.".

(** The constructor; [rippledServer] is a string, or [None] for [null]. *)
Definition new_XrplApi (D : defaults) (rippledServer : option string) (o : options)
    : outcome api :=
  let primary :=
    if bool_decide (rippledServer = Some "-") then None
    else if no_server rippledServer then default_rippledServer D else rippledServer in
  let fallback :=
    match fallbackRippledServers o with
    | Some l => l
    | None => default [] (default_fallbackRippledServers D)
    end in
  if no_server primary && (length fallback =? 0)%nat
  then Throw (VStr SERVER_REQUIRED)
  else Return (Api primary fallback (xrplClientOptions o)
                 (if nullish (autoReconnect o) then VBool true else autoReconnect o)).

(** *** Reconnection *)

(** The three connection flags of an [XrplApi] object. *)
Record flags := Flags {
  isPermanentlyDisconnected : bool;
  isPrimaryServerConnected : bool;
  isFallbackServerConnected : bool
}.

(** What a reconnection loop does, in order. *)
Inductive step : Type :=
  | Connect (server : string)
  | Backoff (ms : Z).

#[global] Instance step_eq_dec : EqDecision step.
Proof. solve_decision. Defined.

(** [!maxAttempts || attempt < maxAttempts], for a limit that is a number or
    [null]. *)
Definition may_retry (limit : option Z) (n : nat) : bool :=
  match limit with
  | Some z => (z =? 0) || (Z.of_nat n <? z)
  | None => true
  end.

Definition primary_failed (server : string) : string :=
  "Primary server " +:+ server +:+ " connection max attempts failed.".
Definition fallback_failed (server : string) : string :=
  "Fallback server " +:+ server +:+ " connection max attempts failed.".

Section Reconnect.
(** The surroundings of a loop.  [connect server n fl] is the body of the
    [try] for the [n]-th connection the loop makes (from 1): creating the
    client and awaiting [#handleClientConnect]; it ends in success or failure
    and may find the flags changed by the other tasks that ran meanwhile, as
    they are after [disconnect()].  [asleep ms fl] is what the other tasks
    have made of the flags when a sleep of [ms] milliseconds ends. *)
Variable connect : string -> nat -> flags -> outcome unit * flags.
Variable asleep : Z -> flags -> flags.

(** The [while] loop of [#attemptPrimaryServerReconnect]; [attempt] is the
    loop variable.  [None] when the fuel runs out. *)
Fixpoint primary_loop (server : string) (maxAttempts : option Z) (fuel : nat) (attempt : nat)
    (fl : flags) (trace : list step) : option (outcome unit * flags * list step) :=
  match fuel with
  | O => None
  | S fuel' =>
      if negb (isPermanentlyDisconnected fl) && negb (isPrimaryServerConnected fl) then
        let attempt := S attempt in
        let trace := trace ++ [Connect server] in
        match connect server attempt fl with
        | (Return _, fl) =>
            Some (Return tt, Flags (isPermanentlyDisconnected fl) true false, trace)
        | (Throw e, fl) =>
            if negb (isPermanentlyDisconnected fl) then
              let delaySec := 2 * Z.of_nat attempt in
              if may_retry maxAttempts attempt then
                primary_loop server maxAttempts fuel' attempt (asleep (delaySec * 1000) fl)
                  (trace ++ [Backoff (delaySec * 1000)])
              else Some (Throw (VStr (primary_failed server)), fl, trace)
            else primary_loop server maxAttempts fuel' attempt fl trace
        end
      else Some (Return tt, fl, trace)
  end.

Definition attemptPrimaryServerReconnect (server : string) (maxAttempts : option Z)
    (fuel : nat) (fl : flags) : option (outcome unit * flags * list step) :=
  primary_loop server maxAttempts fuel 0 fl [].

(** How the inner loops of [#attemptFallbackServerReconnect] end: the labelled
    [break] leaves the walk over the servers, a server whose attempts are used
    up hands over to the next one, and a [throw] ends the call. *)
Inductive walk : Type :=
  | Break
  | NextServer
  | Thrown (e : val).

(** [for (let attempt = 0; attempt < attemptsPerServer;)] for one server;
    [left] is [attemptsPerServer - attempt], [n] counts the connections made
    by the call so far. *)
Fixpoint server_attempts (maxRounds : option Z) (round : nat) (server : string) (left : nat)
    (n : nat) (fl : flags) (trace : list step) : walk * nat * flags * list step :=
  match left with
  | O => (NextServer, n, fl, trace)
  | S left' =>
      if isPrimaryServerConnected fl || isPermanentlyDisconnected fl
      then (Break, n, fl, trace)
      else
        (* [fl] says the primary server is not connected, so the test inside
           the [try] holds *)
        let n := S n in
        let trace := trace ++ [Connect server] in
        match connect server n fl with
        | (Return _, fl) =>
            (Break, n,
             Flags (isPermanentlyDisconnected fl) (isPrimaryServerConnected fl) true, trace)
        | (Throw e, fl) =>
            if negb (isPermanentlyDisconnected fl) then
              if may_retry maxRounds round then
                let ms := 2 * Z.of_nat round * 1000 in
                server_attempts maxRounds round server left' n (asleep ms fl)
                  (trace ++ [Backoff ms])
              else (Thrown (VStr (fallback_failed server)), n, fl, trace)
            else server_attempts maxRounds round server left' n fl trace
        end
  end.

(** [for (let serverIndex in fallbackServers)] *)
Fixpoint server_walk (maxRounds : option Z) (round : nat) (attemptsPerServer : nat)
    (servers : list string) (n : nat) (fl : flags) (trace : list step)
    : walk * nat * flags * list step :=
  match servers with
  | [] => (NextServer, n, fl, trace)
  | server :: rest =>
      match server_attempts maxRounds round server attemptsPerServer n fl trace with
      | (NextServer, n, fl, trace) =>
          server_walk maxRounds round attemptsPerServer rest n fl trace
      | ended => ended
      end
  end.

(** The [while] loop of [#attemptFallbackServerReconnect]. *)
Fixpoint fallback_loop (servers : list string) (maxRounds : option Z) (attemptsPerServer : nat)
    (fuel : nat) (round : nat) (n : nat) (fl : flags) (trace : list step)
    : option (outcome unit * flags * list step) :=
  match fuel with
  | O => None
  | S fuel' =>
      if (0 <? length servers)%nat && negb (isPermanentlyDisconnected fl)
         && negb (isPrimaryServerConnected fl) && negb (isFallbackServerConnected fl)
         && may_retry maxRounds round
      then
        let round := S round in
        match server_walk maxRounds round attemptsPerServer servers n fl trace with
        | (Thrown e, _, fl, trace) => Some (Throw e, fl, trace)
        | (_, n, fl, trace) =>
            fallback_loop servers maxRounds attemptsPerServer fuel' round n fl trace
        end
      else Some (Return tt, fl, trace)
  end.

Definition attemptFallbackServerReconnect (servers : list string) (maxRounds : option Z)
    (attemptsPerServer : nat) (fuel : nat) (fl : flags)
    : option (outcome unit * flags * list step) :=
  fallback_loop servers maxRounds attemptsPerServer fuel 0 0 fl [].

End Reconnect.

(** The trace of [k] failed connections to the primary server, numbered from
    [from] on, each followed by its sleep: the [m]-th failure is followed by
    [2 * m] seconds. *)
Fixpoint failed_attempts (server : string) (from k : nat) : list step :=
  match k with
  | O => []
  | S k' =>
      Connect server :: Backoff (2 * Z.of_nat from * 1000) :: failed_attempts server (S from) k'
  end.





(** A walk that the flags have ended: whatever the loop tests next fails. *)
Definition ended (w : walk) (fl : flags) : Prop :=
  (w = Break
   /\ (isPrimaryServerConnected fl = true \/ isPermanentlyDisconnected fl = true
       \/ isFallbackServerConnected fl = true))
  \/ (w = NextServer /\ isPermanentlyDisconnected fl = true).

(** The number of connections a trace holds. *)
Definition connections (trace : list step) : nat :=
  length (List.filter (fun s => match s with Connect _ => true | Backoff _ => false end) trace).

(** *** Simulated surroundings *)

Definition disconnected : flags := Flags false false false.

(** A network on which the first [k] connections fail. *)
Definition down_for (k : nat) (server : string) (n : nat) (fl : flags) : outcome unit * flags :=
  if (n <=? k)%nat then (Throw (VStr "ECONNREFUSED"), fl) else (Return tt, fl).

(** A network on which one server is up. *)
Definition only_up (up : string) (server : string) (n : nat) (fl : flags)
    : outcome unit * flags :=
  if bool_decide (server = up) then (Return tt, fl) else (Throw (VStr "ECONNREFUSED"), fl).

Definition undisturbed (ms : Z) (fl : flags) : flags := fl.

End Connection.

(** ** Node buffers *)

(** The part of [Buffer] the clients use.  A buffer is the list of its bytes,
    each between 0 and 255. *)
Module Buffer.

Definition buffer : Type := list Z.

(** [Buffer.alloc(size, 0)] *)
Definition alloc (size : nat) : buffer := repeat 0 size.

(** [source.copy(target, targetStart)]: the bytes of [source] that fit are
    written over [target] from [targetStart] on; the length of [target] stays. *)
Definition copy (source target : buffer) (targetStart : nat) : buffer :=
  take (length target)
    (take targetStart target ++ source ++ drop (targetStart + length source) target).

(** The [width] low bytes of [z], lowest first. *)
Fixpoint little_endian (width : nat) (z : Z) : list Z :=
  match width with
  | O => []
  | S width' => z mod 256 :: little_endian width' (z / 256)
  end.

(** The value of bytes read lowest first. *)
Fixpoint from_little_endian (bytes : list Z) : Z :=
  match bytes with
  | [] => 0
  | b :: rest => b + 256 * from_little_endian rest
  end.

(** The number a write stores once the range check has passed: the fraction
    is dropped, and NaN, which passes the check, is stored as 0. *)
Definition stored (x : number) : Z :=
  match x with
  | Fin q => Qnum q / Z.pos (Qden q)
  | _ => 0
  end.

(** [value > max || value < 0], the range check of the unsigned writes. *)
Definition out_of_range (x : number) (max : Z) : bool :=
  match x with
  | Fin q => (max * Z.pos (Qden q) <? Qnum q) || (Qnum q <? 0)
  | NaN => false
  | PosInf | NegInf => true
  end.

(** [buf.writeUIntLE]-style writes of [width] bytes.  The value is checked
    first: out of range it is a RangeError.  Then the bounds: bytes that
    would not fit are out of bounds when the buffer is shorter than the
    write, and a RangeError for the offset otherwise. *)
Definition write_unsigned (bytes_of : nat -> Z -> list Z) (width : nat) (value : number)
    (offset : nat) (buf : buffer) : outcome buffer :=
  if out_of_range value (2 ^ (8 * Z.of_nat width) - 1) then Throw EvernodeHook.RangeError
  else if (length buf <? offset + width)%nat
  then Throw (if (length buf <? width)%nat then EvernodeHook.OutOfBounds
              else EvernodeHook.RangeError)
  else Return (copy (bytes_of width (stored value)) buf offset).

Definition writeUInt8 : number -> nat -> buffer -> outcome buffer :=
  write_unsigned little_endian 1.
Definition writeUInt16LE : number -> nat -> buffer -> outcome buffer :=
  write_unsigned little_endian 2.
Definition writeUInt32LE : number -> nat -> buffer -> outcome buffer :=
  write_unsigned little_endian 4.
Definition writeUInt32BE : number -> nat -> buffer -> outcome buffer :=
  write_unsigned (fun width z => rev (little_endian width z)) 4.

(** [Buffer.from(s, 'utf-8')] for a string of characters below U+0100, which
    is what a [string] holds: one byte below U+0080, two from there on. *)
Definition utf8_char (ch : ascii) : list Z :=
  let n := Z.of_nat (nat_of_ascii ch) in
  if n <? 128 then [n] else [192 + n / 64; 128 + n mod 64].

Definition utf8 (s : string) : buffer := concat (map utf8_char (list_ascii_of_string s)).

(** [buf.toString('hex')] *)
Definition hex_digit (n : Z) : ascii :=
  if n <? 10 then ascii_of_nat (Z.to_nat (48 + n)) else ascii_of_nat (Z.to_nat (87 + n)).

Fixpoint toString_hex (buf : buffer) : string :=
  match buf with
  | [] => ""
  | b :: rest => String (hex_digit (b / 16)) (String (hex_digit (b mod 16)) (toString_hex rest))
  end.

(** [Buffer.from(s, 'hex')]: pairs of hex digits, up to the first pair that
    is not one; a last single character is dropped. *)
Definition hex_value (ch : ascii) : option Z :=
  let n := Z.of_nat (nat_of_ascii ch) in
  if (48 <=? n) && (n <=? 57) then Some (n - 48)
  else if (97 <=? n) && (n <=? 102) then Some (n - 87)
  else if (65 <=? n) && (n <=? 70) then Some (n - 55)
  else None.

Fixpoint from_hex (s : string) : buffer :=
  match s with
  | String a (String b rest) =>
      match hex_value a, hex_value b with
      | Some x, Some y => (16 * x + y) :: from_hex rest
      | _, _ => []
      end
  | _ => []
  end.

(** The string is made of pairs of hex digits: it decodes as a whole. *)
Fixpoint hex_pairs (s : string) : bool :=
  match s with
  | EmptyString => true
  | String a (String b rest) =>
      match hex_value a, hex_value b with
      | Some _, Some _ => hex_pairs rest
      | _, _ => false
      end
  | _ => false
  end.

(** [s.toUpperCase()] on the letters a to z. *)
Definition upper_char (ch : ascii) : ascii :=
  let n := nat_of_ascii ch in
  if (97 <=? n)%nat && (n <=? 122)%nat then ascii_of_nat (n - 32) else ch.

Fixpoint toUpperCase (s : string) : string :=
  match s with
  | EmptyString => EmptyString
  | String ch rest => String (upper_char ch) (toUpperCase rest)
  end.

(** A buffer holds bytes. *)
Definition bytes (buf : buffer) : Prop := Forall (fun b => 0 <= b < 256) buf.

(** All characters of the string are below U+0080. *)
Definition ascii_only (s : string) : bool :=
  forallb (fun ch => (nat_of_ascii ch <? 128)%nat) (list_ascii_of_string s).

(** A field of [width] bytes that holds [content] from its start, the rest
    zero. *)
Definition field (width : nat) (content : buffer) : buffer :=
  content ++ repeat 0 (width - length content).

End Buffer.

(** ** HostClient: the binary parameters *)

Module HostParams.
Import HostClient Buffer.

Definition HOST_COUNTRY_CODE_PARAM_OFFSET : nat := 0.
Definition HOST_CPU_MICROSEC_PARAM_OFFSET : nat := 2.
Definition HOST_RAM_MB_PARAM_OFFSET : nat := 6.
Definition HOST_DISK_MB_PARAM_OFFSET : nat := 10.
Definition HOST_TOT_INS_COUNT_PARAM_OFFSET : nat := 14.
Definition HOST_CPU_MODEL_NAME_PARAM_OFFSET : nat := 18.
Definition HOST_CPU_COUNT_PARAM_OFFSET : nat := 58.
Definition HOST_CPU_SPEED_PARAM_OFFSET : nat := 60.
Definition HOST_DESCRIPTION_PARAM_OFFSET : nat := 62.
Definition HOST_EMAIL_ADDRESS_PARAM_OFFSET : nat := 88.
Definition HOST_REG_PARAM_SIZE : nat := 128.

(** The buffer [paramBuf] that [register] fills, write after write. *)
Definition register_paramBuf (r : registration) : outcome buffer :=
  let paramBuf := alloc HOST_REG_PARAM_SIZE in
  let paramBuf :=
    copy (utf8 (substring 0 2 (countryCode r))) paramBuf HOST_COUNTRY_CODE_PARAM_OFFSET in
  obind (writeUInt32LE (cpuMicroSec r) HOST_CPU_MICROSEC_PARAM_OFFSET paramBuf) (fun paramBuf =>
  obind (writeUInt32LE (ramMb r) HOST_RAM_MB_PARAM_OFFSET paramBuf) (fun paramBuf =>
  obind (writeUInt32LE (diskMb r) HOST_DISK_MB_PARAM_OFFSET paramBuf) (fun paramBuf =>
  obind (writeUInt32LE (totalInstanceCount r) HOST_TOT_INS_COUNT_PARAM_OFFSET paramBuf)
    (fun paramBuf =>
  let paramBuf :=
    copy (utf8 (substring 0 40 (cpuModel r))) paramBuf HOST_CPU_MODEL_NAME_PARAM_OFFSET in
  obind (writeUInt16LE (cpuCount r) HOST_CPU_COUNT_PARAM_OFFSET paramBuf) (fun paramBuf =>
  obind (writeUInt16LE (cpuSpeed r) HOST_CPU_SPEED_PARAM_OFFSET paramBuf) (fun paramBuf =>
  let paramBuf :=
    copy (utf8 (substring 0 26 (description r))) paramBuf HOST_DESCRIPTION_PARAM_OFFSET in
  let paramBuf :=
    copy (utf8 (substring 0 40 (emailAddress r))) paramBuf HOST_EMAIL_ADDRESS_PARAM_OFFSET in
  Return paramBuf)))))).

(** The value of the hook parameter: [paramBuf.toString('hex').toUpperCase()]. *)
Definition register_event_data (r : registration) : outcome string :=
  obind (register_paramBuf r) (fun paramBuf => Return (toUpperCase (toString_hex paramBuf))).

(** A numeric argument that does not fit its field. *)
Definition register_out_of_range (r : registration) : bool :=
  out_of_range (cpuMicroSec r) (2 ^ 32 - 1) || out_of_range (ramMb r) (2 ^ 32 - 1)
  || out_of_range (diskMb r) (2 ^ 32 - 1) || out_of_range (totalInstanceCount r) (2 ^ 32 - 1)
  || out_of_range (cpuCount r) (2 ^ 16 - 1) || out_of_range (cpuSpeed r) (2 ^ 16 - 1).

(** The layout that the comment in [register] gives:
    [<country_code(2)><cpu_microsec(4)><ram_mb(4)><disk_mb(4)>
     <no_of_total_instances(4)><cpu_model(40)><cpu_count(2)><cpu_speed(2)>
     <description(26)><email_address(40)>]. *)
Definition register_layout (r : registration) : buffer :=
  utf8 (countryCode r)
  ++ little_endian 4 (stored (cpuMicroSec r))
  ++ little_endian 4 (stored (ramMb r))
  ++ little_endian 4 (stored (diskMb r))
  ++ little_endian 4 (stored (totalInstanceCount r))
  ++ field 40 (utf8 (substring 0 40 (cpuModel r)))
  ++ little_endian 2 (stored (cpuCount r))
  ++ little_endian 2 (stored (cpuSpeed r))
  ++ field 26 (utf8 (description r))
  ++ field 40 (utf8 (emailAddress r)).

(** *** Simulated input *)

Definition many_cores : registration :=
  Registration "AU" (Fin 800000) (Fin 4096) (Fin 51200) (Fin 3) "Intel Xeon" (Fin 70000)
    (Fin 2400) "sample host" "ops@example.org".

End HostParams.

(** ** The integer reader of the hook client *)

Module HookReader.
Import Buffer Double.

Definition INVALID_BASE : string := "Invalid base value".

(** [buf.readUInt16BE()] and the like, at offset 0; a buffer too short for
    the read is out of bounds. *)
Definition read_unsigned (width : nat) (bigEndian : bool) (buf : buffer) : outcome Z :=
  if (length buf <? width)%nat then Throw EvernodeHook.OutOfBounds
  else Return (from_little_endian (if bigEndian then rev (take width buf) else take width buf)).

(** [readUInt(buf, base, isBE)] *)
Definition readUInt (buf : buffer) (base : Z) (isBE : bool) : outcome Z :=
  if base =? 8 then read_unsigned 1 true buf
  else if base =? 16 then read_unsigned 2 isBE buf
  else if base =? 32 then read_unsigned 4 isBE buf
  else if base =? 64 then obind (read_unsigned 8 isBE buf) (fun n => Return (Number_of_BigInt n))
  else Throw (VStr INVALID_BASE).

End HookReader.

(** ** HostClient: parameters and memos built from buffers *)

Module HostMessages.
Import Buffer.

(** *** [deregister] *)

(** [paramBuf] of [deregister]: [<token_id(32)><error(1)>]. *)
Definition deregister_paramBuf (index : string) (error : val) : outcome buffer :=
  let paramBuf := alloc 33 in
  let paramBuf := copy (from_hex index) paramBuf 0 in
  if truthy error then writeUInt8 (Fin 1) 32 paramBuf else Return paramBuf.

Definition deregister_event_data (index : string) (error : val) : outcome string :=
  obind (deregister_paramBuf index error) (fun paramBuf =>
    Return (toUpperCase (toString_hex paramBuf))).

(** *** [extendSuccess] *)

(** The memo data of [extendSuccess].  [Buffer.allocUnsafe(4)] gives four
    bytes of whatever the memory held, [unsafe] here. *)
Definition extendSuccess_memo_data (unsafe : buffer) (expiryMoment : number) : outcome string :=
  obind (writeUInt32BE expiryMoment 0 unsafe) (fun buf => Return (toString_hex buf)).

(** *** [heartbeat] *)

Definition VOTE_VALIDATION_ERR : string := "VOTE_VALIDATION_ERR".

(** The properties of [voteInfo] that [heartbeat] reads, a hex string and a
    number when they are present, and the number of its other keys. *)
Record vote_info := VoteInfo {
  candidate : option string;
  vote : option number;
  other_keys : nat
}.

(** [Object.keys(voteInfo).length] *)
Definition keys (voteInfo : vote_info) : nat :=
  (match candidate voteInfo with Some _ => 1 | None => 0 end
   + match vote voteInfo with Some _ => 1 | None => 0 end
   + other_keys voteInfo)%nat.

(** [data]: [undefined] unless [voteInfo] has more than one key. *)
Definition vote_data (voteInfo : vote_info) : outcome val :=
  if (1 <? keys voteInfo)%nat then
    match candidate voteInfo with
    | None =>
        Throw (TypeError "The first argument must be of type string or an instance of Buffer")
    | Some hex =>
        let voteBuf := alloc 33 in
        let voteBuf := copy (from_hex hex) voteBuf 0 in
        obind (writeUInt8 (default NaN (vote voteInfo)) 32 voteBuf) (fun voteBuf =>
          Return (VStr (toUpperCase (toString_hex voteBuf))))
    end
  else Return VUndef.

(** [haystack.includes(needle)] on strings *)
Fixpoint includes (needle haystack : string) : bool :=
  String.prefix needle haystack
  || match haystack with
     | EmptyString => false
     | String _ rest => includes needle rest
     end.

(** [r.message.includes(VOTE_VALIDATION_ERR)]: strings and arrays have an
    [includes]. *)
Definition names_vote_validation (r : val) : outcome bool :=
  obind (get r "message") (fun message =>
    match message with
    | VStr text => Return (includes VOTE_VALIDATION_ERR text)
    | VArr items => Return (existsb (fun item => str_eq item VOTE_VALIDATION_ERR) items)
    | VUndef | VNull =>
        Throw (TypeError "Cannot read properties of undefined (reading 'includes')")
    | _ => Throw (TypeError "r.message.includes is not a function")
    end).

(** [results.find(r => r.message.includes(VOTE_VALIDATION_ERR))] *)
Fixpoint find_validation_error (results : list val) : outcome (option val) :=
  match results with
  | [] => Return None
  | r :: rest =>
      obind (names_vote_validation r) (fun found =>
        if found then Return (Some r) else find_validation_error rest)
  end.

(** The [catch] handler of [heartbeat]: what it throws for the failure [e]
    of the payment. *)
Definition heartbeat_failure (e : val) : val :=
  let found :=
    match opt_get e "hookExecutionResult" with
    | VUndef | VNull => Return None
    | VArr results => find_validation_error results
    | _ => Throw (TypeError "e?.hookExecutionResult?.find is not a function")
    end in
  match found with
  | Throw type_error => type_error
  | Return (Some validationErr) =>
      if truthy validationErr
      then obj [("code", VStr VOTE_VALIDATION_ERR); ("error", opt_get validationErr "message")]
      else e
  | Return None => e
  end.

Section Heartbeat.
(** [this.xrplAcc.makePayment] with its arguments in order, the names of
    [HookParamKeys] and [EventTypes] and the minimum amount, all of other
    files, and the two values the call reads from the client. *)
Variable makePayment : list val -> outcome val.
Variable PARAM_EVENT_TYPE_KEY PARAM_EVENT_DATA1_KEY HEARTBEAT MIN_DROPS : val.
Variable heartbeatAddress : val.
Variable ledgerIndex : Z.

Definition MAX_HOST_LEDGER_OFFSET : Z := 30.

(** [#getMaxLedgerSequence] *)
Definition getMaxLedgerSequence : Z := ledgerIndex + MAX_HOST_LEDGER_OFFSET.

Definition hook_param (name value : val) : val := obj [("name", name); ("value", value)].

Definition heartbeat_options (data transactionOptions : val) : val :=
  VObj (obj_merge
          (spread (obj [("hookParams",
                         VArr (hook_param PARAM_EVENT_TYPE_KEY HEARTBEAT
                               :: (if truthy data then [hook_param PARAM_EVENT_DATA1_KEY data]
                                   else [])));
                        ("maxLedgerIndex", VNum getMaxLedgerSequence)]))
          (spread transactionOptions)).

(** [heartbeat]; [transactionOptions] is [options.transactionOptions]. *)
Definition heartbeat (voteInfo : vote_info) (transactionOptions : val) : outcome val :=
  obind (vote_data voteInfo) (fun data =>
    match makePayment [heartbeatAddress; MIN_DROPS; VNull; VNull; VNull;
                       heartbeat_options data transactionOptions] with
    | Return res => Return res
    | Throw e => Throw (heartbeat_failure e)
    end).

End Heartbeat.

(** *** Simulated input *)

Definition token_id : string :=
  "0A1B2C3D4E5F60718293A4B5C6D7E8F90a1b2c3d4e5f60718293a4b5c6d7e8f9".

Definition rejected_vote : val :=
  obj [("code", VStr "tecHOOK_REJECTED");
       ("hookExecutionResult",
        VArr [obj [("result", VNum 3); ("message", VStr "Evernode: heartbeat accepted")];
              obj [("result", VNum 4);
                   ("message", VStr "Evernode: VOTE_VALIDATION_ERR - Voting time elapsed")]])].

End HostMessages.

(** ** EvernodeClient *)

Module EvernodeClient.
Import EvernodeHook.

(** The memos of the payments that the client makes to the hook. *)

(** [redeemSubmit]: the encrypted requirement. *)
Definition redeem_memos (K : common) (encrypted : val) : list memo :=
  [Memo (VStr (REDEEM K)) (VStr (BINARY K)) encrypted].

(** [refund] *)
Definition refund_memos (K : common) (redeemTxHash : val) : list memo :=
  [Memo (VStr (REFUND K)) (VStr (BINARY K)) redeemTxHash].

(** [registerHost]: [`${hostingToken};${instanceSize};${location}`] *)
Definition host_reg_data (hostingToken instanceSize location : string) : string :=
  hostingToken +:+ ";" +:+ instanceSize +:+ ";" +:+ location.

Definition registerHost_memos (K : common) (hostingToken instanceSize location : string)
    : list memo :=
  [Memo (VStr (HOST_REG K)) (VStr (TEXT K))
     (VStr (host_reg_data hostingToken instanceSize location))].

(** [deregisterHost] *)
Definition deregisterHost_memos (K : common) : list memo :=
  [Memo (VStr (HOST_DEREG K)) (VStr (TEXT K)) (VStr "")].

(** [redeemSuccess] *)
Definition redeemSuccess_memos (K : common) (txHash encrypted : val) : list memo :=
  [Memo (VStr (REDEEM_REF K)) (VStr (BINARY K)) txHash;
   Memo (VStr (REDEEM_RESP K)) (VStr (BINARY K)) encrypted].

(** [requestAudit] and [auditSuccess] *)
Definition requestAudit_memos (K : common) : list memo :=
  [Memo (VStr (AUDIT_REQ K)) (VStr (BINARY K)) (VStr "")].
Definition auditSuccess_memos (K : common) : list memo :=
  [Memo (VStr (AUDIT_SUCCESS K)) (VStr (BINARY K)) (VStr "")].

Section Client.
Variable K : common.
(** [XrplAccount.makePayment] with its five arguments, the encryption helper
    and the key lookups, all of other files; the constants of
    [RippleConstants]; and the fields of the client. *)
Variable makePayment : val -> val -> val -> val -> list memo -> outcome val.
Variable encrypt : val -> val -> outcome val.
Variable getEncryptionKey : val -> outcome val.
Variable isValidKeyForAddress : val -> val -> outcome val.
Variable toString : val -> outcome val.
Variable MIN_XRP_AMOUNT XRP : val.
Variable hookAddress : val.
Variable hostRegFee : val.

(** [redeemSubmit] *)
Definition redeemSubmit (hostingToken hostAddress amount requirement : val) : outcome val :=
  obind (getEncryptionKey hostAddress) (fun encKey =>
    if negb (truthy encKey) then Throw (VStr "Host encryption key not set.")
    else
      obind (encrypt encKey requirement) (fun ecrypted =>
        obind (toString amount) (fun amount =>
          makePayment hookAddress amount hostingToken hostAddress (redeem_memos K ecrypted)))).

(** [registerHost] *)
Definition registerHost (hostingToken instanceSize location : string) : outcome val :=
  obind (toString hostRegFee) (fun fee =>
    makePayment hookAddress fee (VStr (EVR K)) hookAddress
      (registerHost_memos K hostingToken instanceSize location)).

(** [deregisterHost] *)
Definition deregisterHost : outcome val :=
  makePayment hookAddress MIN_XRP_AMOUNT XRP VNull (deregisterHost_memos K).

(** [redeemSuccess] *)
Definition redeemSuccess (txHash userAddress userPubKey instanceInfo : val) : outcome val :=
  obind (isValidKeyForAddress userPubKey userAddress) (fun valid =>
    if negb (truthy valid)
    then Throw (VStr "Invalid public key for redeem response encryption.")
    else
      obind (encrypt userPubKey instanceInfo) (fun encrypted =>
        makePayment hookAddress MIN_XRP_AMOUNT XRP VNull
          (redeemSuccess_memos K txHash encrypted))).

End Client.

(** *** Vocabulary: what an event says about the payment it came from *)

Section Evidence.
Variable K : common.
Variable hookAddress : val.
Variable hostAddresses : outcome (list val).
Variable JSON_parse : val -> outcome val.
Variable parseInt : val -> val.
Variable tx : payment.

(** The first memo has the given format and type. *)
Definition first_memo (fmt type_name : string) (m0 : memo) : Prop :=
  format m0 = VStr fmt /\ type m0 = VStr type_name.

(** What the payment must look like for the event to come out of it. *)
Definition evidence (ev : hook_event) : Prop :=
  match ev with
  | Reward t host amount =>
      t = tx /\ host = Destination tx /\ strict_eq (Account tx) hookAddress = true
      /\ get (Amount tx) "currency" = Return (VStr (EVR K))
      /\ get (Amount tx) "value" = Return amount
      /\ exists hosts, hostAddresses = Return hosts
           /\ existsb (fun h => strict_eq h (Destination tx)) hosts = true
  | Redeem t user host token moments payload =>
      t = tx /\ user = Account tx
      /\ get (Amount tx) "issuer" = Return host
      /\ get (Amount tx) "currency" = Return token
      /\ (exists value, get (Amount tx) "value" = Return value /\ moments = parseInt value)
      /\ exists m0 rest, Memos tx = Some (m0 :: rest)
           /\ first_memo (BINARY K) (REDEEM K) m0 /\ truthy (data m0) = true
           /\ payload = data m0
  | RedeemError t redeemTxHash reason =>
      t = tx
      /\ exists m0 m1 rest, Memos tx = Some (m0 :: m1 :: rest)
           /\ first_memo (BINARY K) (REDEEM_REF K) m0 /\ truthy (data m0) = true
           /\ type m1 = VStr (REDEEM_RESP K) /\ truthy (data m1) = true
           /\ format m1 = VStr (JSON K) /\ redeemTxHash = data m0
           /\ exists error, JSON_parse (data m1) = Return error
                /\ get error "reason" = Return reason
  | RedeemSuccess t redeemTxHash payload =>
      t = tx
      /\ exists m0 m1 rest, Memos tx = Some (m0 :: m1 :: rest)
           /\ first_memo (BINARY K) (REDEEM_REF K) m0 /\ truthy (data m0) = true
           /\ type m1 = VStr (REDEEM_RESP K) /\ truthy (data m1) = true
           /\ format m1 <> VStr (JSON K) /\ redeemTxHash = data m0 /\ payload = data m1
  | RefundRequest t redeemTxHash =>
      t = tx
      /\ exists m0 rest, Memos tx = Some (m0 :: rest)
           /\ first_memo (BINARY K) (REFUND K) m0 /\ truthy (data m0) = true
           /\ redeemTxHash = data m0
  | HostRegistered t host token instanceSize location =>
      t = tx /\ host = Account tx
      /\ exists m0 rest text, Memos tx = Some (m0 :: rest)
           /\ first_memo (TEXT K) (HOST_REG K) m0 /\ data m0 = VStr text /\ text <> ""
           /\ token = part (split_semicolon text) 0
           /\ instanceSize = part (split_semicolon text) 1
           /\ location = part (split_semicolon text) 2
  | HostDeregistered t host =>
      t = tx /\ host = Account tx
      /\ exists m0 rest, Memos tx = Some (m0 :: rest) /\ type m0 = VStr (HOST_DEREG K)
  | AuditRequest t auditor =>
      t = tx /\ auditor = Account tx
      /\ exists m0 rest, Memos tx = Some (m0 :: rest)
           /\ first_memo (BINARY K) (AUDIT_REQ K) m0
  | AuditSuccess t auditor =>
      t = tx /\ auditor = Account tx
      /\ exists m0 rest, Memos tx = Some (m0 :: rest)
           /\ first_memo (BINARY K) (AUDIT_SUCCESS K) m0
  end.

End Evidence.

(** The type names are different from one another, and so are the text and
    the binary format. *)
Definition tables_distinct (K : common) : Prop :=
  NoDup [REDEEM K; REDEEM_REF K; REFUND K; HOST_REG K; HOST_DEREG K; AUDIT_REQ K;
         AUDIT_SUCCESS K]
  /\ TEXT K <> BINARY K.

(** The string has no semicolon. *)
Definition no_semicolon (s : string) : Prop := ~ In ";"%char (list_ascii_of_string s).

End EvernodeClient.

(** ** HostClient: registration status, account preparation and transfer *)

Module HostStatus.
Import HostClient.

(** In a run of the retry wrapper with this callback, the attempt at position
    [2 * n] of the trace returned [v]. *)
Definition returned (callback : nat -> Z -> outcome val) (trace : list event) (n : nat)
    (v : val) : Prop :=
  exists fee, trace !! (2 * n)%nat = Some (Attempt fee) /\ callback (S n) fee = Return v.

(** A URI token as the ledger gives it: the fields the client reads. *)
Record uri_token := UriToken {
  index : string;
  URI : string;
  Issuer : string
}.

(** The host info of [getHostInfo], a function of the base client; the
    token id may be missing. *)
Record host_info := HostInfo {
  uriTokenId : option string;
  info : val
}.

Section Registration.
(** What [this.xrplAcc.getURITokens()] and [this.getHostInfo()] end in, the
    token prefix of [EvernodeConstants] and the registry address of the
    configuration. *)
Variable getURITokens : outcome (list uri_token).
Variable getHostInfo : outcome (option host_info).
Variable TOKEN_PREFIX_HEX : string.
Variable registryAddress : string.

(** [n.URI.startsWith(TOKEN_PREFIX_HEX) && n.Issuer === registryAddress] *)
Definition registration_token (n : uri_token) : bool :=
  String.prefix TOKEN_PREFIX_HEX (URI n) && bool_decide (Issuer n = registryAddress).

(** [getRegistrationUriToken]: the first such token, or [null]. *)
Definition getRegistrationUriToken : outcome (option uri_token) :=
  obind getURITokens (fun tokens => Return (List.find registration_token tokens)).

(** [getRegistration]: the host info when its token id is the index of that
    token, [null] otherwise; the host info is only asked for when there is a
    token. *)
Definition getRegistration : outcome (option host_info) :=
  obind getRegistrationUriToken (fun regUriToken =>
    match regUriToken with
    | Some regUriToken =>
        obind getHostInfo (fun host =>
          Return (match host with
                  | Some h =>
                      if bool_decide (uriTokenId h = Some (index regUriToken)) then Some h
                      else None
                  | None => None
                  end))
    | None => Return None
    end).

(** [isRegistered] *)
Definition isRegistered : outcome bool :=
  obind getRegistration (fun registration => Return (bool_decide (is_Some registration))).

End Registration.

(** *** The wait at the end of [transfer] *)

Definition OFFER_WAIT_TIMEOUT : nat := 60.
Definition TRANSFER_TIMEOUT : string := "Token hasn't transferred within timeout.".

Section TransferWait.
(** The tokens of the registry account as the [k]-th poll finds them (from
    0), and the index of the registration token that was sold. *)
Variable getURITokens : nat -> outcome (list uri_token).
Variable wanted : string.

(** The [while] loop: [left] is [OFFER_WAIT_TIMEOUT - attempts].  It gives
    what the wait ends in and the number of one-second sleeps it took. *)
Fixpoint transfer_loop (left attempts : nat) : outcome unit * nat :=
  match left with
  | O => (Throw (VStr TRANSFER_TIMEOUT), attempts)
  | S left' =>
      match getURITokens attempts with
      | Throw e => (Throw e, attempts)
      | Return tokens =>
          match List.find (fun o => bool_decide (index o = wanted)) tokens with
          | Some _ => (Return tt, attempts)
          | None => transfer_loop left' (S attempts)
          end
      end
  end.

Definition transfer_wait : outcome unit * nat := transfer_loop OFFER_WAIT_TIMEOUT 0.

(** The token is not among those of the [k]-th poll. *)
Definition not_yet (k : nat) : Prop :=
  exists tokens, getURITokens k = Return tokens
    /\ Forall (fun o => index o <> wanted) tokens.

End TransferWait.

(** *** [prepareAccount] *)

(** What [prepareAccount] submits, in order. *)
Inductive submission : Type :=
  | SetAccountFields (fields : gmap string val) (feeUplift : Z)
  | SetTrustLine (feeUplift : Z).

Section PrepareAccount.
(** The four reads that [Promise.all] joins: the flags, the trust lines for
    EVR, the message key and the domain of the account; the public key of the
    client; and the two setters of [XrplAccount], which answer the [n]-th
    attempt of a submission. *)
Variable account : outcome (val * list val * val * val).
Variable publicKey : val.
Variable setAccountFields : gmap string val -> nat -> Z -> outcome val.
Variable setTrustLine : nat -> Z -> outcome val.

(** [accountSetFields], built up field by field. *)
Definition accountSetFields (flags msgKey curDomain : val) (domain : string)
    : outcome (gmap string val) :=
  obind (get flags "lsfDefaultRipple") (fun defaultRipple =>
    let fields : gmap string val := ∅ in
    let fields :=
      if truthy defaultRipple
      then obj_merge fields {["Flags" := obj [("asfDefaultRipple", VBool false)]]}
      else fields in
    let fields :=
      if negb (truthy msgKey) then obj_merge fields {["MessageKey" := publicKey]} else fields in
    let domain := toLowerCase domain in
    let fields :=
      if negb (truthy curDomain) || negb (strict_eq curDomain (VStr domain))
      then obj_merge fields {["Domain" := VStr domain]}
      else fields in
    Return fields).

(** The callbacks await the setter and give nothing back. *)
Definition awaited (setter : nat -> Z -> outcome val) (attempt : nat) (feeUplift : Z)
    : outcome val :=
  obind (setter attempt feeUplift) (fun _ => Return VUndef).

(** The attempts of a retried submission, each tagged with what is
    submitted. *)
Definition tagged (tag : Z -> submission) (trace : list event) : list submission :=
  omap (fun ev => match ev with Attempt fee => Some (tag fee) | Sleep _ => None end) trace.

(** [prepareAccount]: what it ends in and what it has submitted. *)
Definition prepareAccount (domain : string) (retryOptions : option retry_options)
    : option (outcome unit * list submission) :=
  match account with
  | Throw e => Some (Throw e, [])
  | Return (flags, trustLines, msgKey, curDomain) =>
      match accountSetFields flags msgKey curDomain domain with
      | Throw e => Some (Throw e, [])
      | Return fields =>
          let first :=
            if negb (bool_decide (fields = ∅))
            then
              match submitWithRetry (awaited (setAccountFields fields)) retryOptions with
              | Some (res, trace) => Some (res, tagged (SetAccountFields fields) trace)
              | None => None
              end
            else Some (Return VUndef, []) in
          match first with
          | None => None
          | Some (Throw e, done) => Some (Throw e, done)
          | Some (Return _, done) =>
              if (length trustLines =? 0)%nat
              then
                match submitWithRetry (awaited setTrustLine) retryOptions with
                | Some (Throw e, trace) => Some (Throw e, done ++ tagged SetTrustLine trace)
                | Some (Return _, trace) => Some (Return tt, done ++ tagged SetTrustLine trace)
                | None => None
                end
              else Some (Return tt, done)
          end
      end
  end.

End PrepareAccount.

(** *** Simulated surroundings *)

Definition registry_tokens (k : nat) : outcome (list uri_token) :=
  if (k <? 3)%nat then Return [UriToken "00AA" "657672686F7374AA" "rRegistry"]
  else Return [UriToken "00AA" "657672686F7374AA" "rRegistry";
               UriToken "00BB" "657672686F7374BB" "rRegistry"].

Definition prepared_account : outcome (val * list val * val * val) :=
  Return (obj [("lsfDefaultRipple", VBool false)], [obj [("currency", VStr "EVR")]],
          VStr "02ABCDEF", VStr "host.example.org").

End HostStatus.

(** ** HostClient: the answer to an acquired lease *)

Module HostAcquire.
Import Buffer HostMessages.

Definition KEY_NOT_VALID : string := "Tenant encryption key not valid.".
Definition KEY_NOT_SET : string := "Tenant encryption key not set.".

Section AcquireSuccess.
(** [JSON.stringify]; the test of [RegExp.PublicPrivateKey], the message key
    of the tenant's account and [EncryptionHelper.encrypt], all of other
    files; the two base64 conversions of [Buffer]; and [makePayment] with the
    names and values it is called with, as for [heartbeat]. *)
Variable JSON_stringify : val -> outcome val.
Variable PublicPrivateKey_test : val -> bool.
Variable getMessageKey : outcome val.
Variable encrypt : val -> val -> outcome val.
Variable from_base64 : val -> outcome buffer.
Variable to_base64 : buffer -> string.
Variable makePayment : list val -> outcome val.
Variable PARAM_EVENT_TYPE_KEY PARAM_EVENT_DATA1_KEY ACQUIRE_SUCCESS MIN_DROPS : val.
Variable ledgerIndex : Z.

(** [Buffer.from(JSON.stringify(instanceInfo))] *)
Definition stringified (instanceInfo : val) : outcome buffer :=
  obind (JSON_stringify instanceInfo) (fun text =>
    match text with
    | VStr s => Return (utf8 s)
    | _ => Throw (TypeError "The first argument must be of type string or an instance of Buffer")
    end).

(** The key to encrypt with and whether to encrypt. *)
Definition encryption_key (options : gmap string val) : outcome (val * bool) :=
  match options !! "messageKey" with
  | Some messageKey =>
      if negb (strict_eq messageKey (VStr "none")) && PublicPrivateKey_test messageKey
      then Return (messageKey, true)
      else if strict_eq messageKey (VStr "none") then Return (VNull, false)
      else Throw (VStr KEY_NOT_VALID)
  | None => obind getMessageKey (fun encKey => Return (encKey, true))
  end.

(** The memo data of [acquireSuccess]. *)
Definition acquire_data (instanceInfo : val) (options : gmap string val) : outcome string :=
  obind (stringified instanceInfo) (fun clear =>
    let data := to_base64 ([0] ++ clear) in
    obind (encryption_key options) (fun '(encKey, doEncrypt) =>
      if doEncrypt then
        if negb (truthy encKey) then Throw (VStr KEY_NOT_SET)
        else
          obind (encrypt encKey instanceInfo) (fun encrypted =>
            obind (from_base64 encrypted) (fun cipher =>
              Return (to_base64 ([1] ++ cipher))))
      else Return data)).

(** The arguments of the payment that carries [data]. *)
Definition acquire_payment (txHash tenantAddress : val) (options : gmap string val)
    (data : string) : list val :=
  [tenantAddress; MIN_DROPS; VNull; VNull;
   VArr [obj [("type", ACQUIRE_SUCCESS); ("format", VStr "base64"); ("data", VStr data)]];
   VObj (obj_merge
           (spread (obj [("hookParams",
                          VArr [hook_param PARAM_EVENT_TYPE_KEY ACQUIRE_SUCCESS;
                                hook_param PARAM_EVENT_DATA1_KEY txHash]);
                         ("maxLedgerIndex", VNum (getMaxLedgerSequence ledgerIndex))]))
           (spread (default VUndef (options !! "transactionOptions"))))].

(** [acquireSuccess] *)
Definition acquireSuccess (txHash tenantAddress instanceInfo : val)
    (options : gmap string val) : outcome val :=
  obind (acquire_data instanceInfo options) (fun data =>
    makePayment (acquire_payment txHash tenantAddress options data)).

End AcquireSuccess.

(** *** Simulated surroundings *)

Definition quoted (v : val) : outcome val :=
  match v with
  | VStr s => Return (VStr (String (ascii_of_nat 34) s +:+ String (ascii_of_nat 34) ""))
  | _ => Return VUndef
  end.

Definition sealed (key info : val) : outcome val := Return (VStr "c2VhbGVk").

(** What a payment function that hands back its arguments gives for the
    instance info ["ip"] sent in the clear to [rTenant], the base64 text
    written in hex. *)
Definition acquire_receipt : val :=
  VArr [VStr "rTenant"; VStr "1"; VNull; VNull;
        VArr [obj [("type", VStr "evnAcquireSuccess"); ("format", VStr "base64");
                   ("data", VStr "0022697022")]];
        obj [("hookParams",
              VArr [obj [("name", VStr "10"); ("value", VStr "evnAcquireSuccess")];
                    obj [("name", VStr "11"); ("value", VStr "E3F1")]]);
             ("maxLedgerIndex", VNum 530)]].

End HostAcquire.

(** * Part II: properties *)

(** ** JavaScript values *)

Module JSFacts.

Lemma str_eq_true v s : str_eq v s = true <-> v = VStr s.
Proof.
  destruct v; simpl; try (split; [done|by intros [=]]).
  rewrite bool_decide_eq_true. split; [by intros ->|by intros [=]].
Qed.

Lemma str_eq_refl s : str_eq (VStr s) s = true.
Proof. simpl. by rewrite bool_decide_true. Qed.

Lemma str_eq_ne s t : s <> t -> str_eq (VStr s) t = false.
Proof. intros H. simpl. by rewrite bool_decide_false. Qed.

Lemma str_eq_false v s : v <> VStr s -> str_eq v s = false.
Proof.
  intros H. destruct v; try done. simpl. apply bool_decide_false. by intros ->.
Qed.

Lemma get_throws_nullish e k te : get e k = Throw te -> nullish e = true.
Proof. by destruct e. Qed.

(** Lower case beyond A to Z: [CAF\u00C9.org] becomes [caf\u00E9.org], the
    accented letter being the code unit 201 and its lower case 233; the
    multiplication sign (215) and the sharp s (223) stay. *)
Example toLowerCase_accented :
  toLowerCase ("CAF" +:+ String (ascii_of_nat 201) ".org")
  = "caf" +:+ String (ascii_of_nat 233) ".org"
  /\ toLowerCase (String (ascii_of_nat 215) (String (ascii_of_nat 223) ""))
     = String (ascii_of_nat 215) (String (ascii_of_nat 223) "").
Proof. split; reflexivity. Qed.

End JSFacts.

(** ** Doubles *)

Module DoubleFacts.
Import Double.

Lemma nearest_even_cases n d :
  0 < d ->
  let q := n / d in
  let r := n mod d in
  n = d * q + r /\ 0 <= r < d
  /\ ((nearest_even n d = q /\ 2 * r <= d) \/ (nearest_even n d = q + 1 /\ d <= 2 * r)).
Proof.
  intros Hd q r.
  pose proof (Z.div_mod n d ltac:(lia)) as Hn.
  pose proof (Z.mod_pos_bound n d Hd) as Hr.
  unfold nearest_even. fold q r in Hn, Hr |- *. clearbody q r.
  split; [done|]. split; [done|].
  destruct (Z.ltb_spec d (2 * r)); cbn [orb]; [right; lia|].
  destruct (Z.eqb_spec (2 * r) d); cbn [andb]; [|left; lia].
  destruct (Z.odd q); [right|left]; lia.
Qed.

Lemma nearest_even_upper n d B :
  0 < d -> 2 * n + d < 2 * d * B -> nearest_even n d < B.
Proof.
  intros Hd Hlt. destruct (nearest_even_cases n d Hd) as (Hn & Hr & [[-> _]|[-> Hup]]); nia.
Qed.

Lemma nearest_even_lower n d A :
  0 < d -> d * A <= n -> A <= nearest_even n d.
Proof.
  intros Hd Hle. destruct (nearest_even_cases n d Hd) as (Hn & Hr & [[-> _]|[-> Hup]]); nia.
Qed.

Lemma nearest_even_le n d B :
  0 < d -> n <= d * B -> nearest_even n d <= B.
Proof.
  intros Hd Hle. destruct (nearest_even_cases n d Hd) as (Hn & Hr & [[-> _]|[-> Hup]]); nia.
Qed.

Lemma nearest_even_gt n d A h :
  0 < d -> d * A + h <= n -> d < 2 * h -> A < nearest_even n d.
Proof.
  intros Hd Hle Hh. destruct (nearest_even_cases n d Hd) as (Hn & Hr & [[-> Hdown]|[-> Hup]]); nia.
Qed.

Lemma log2_ratio_lower n d :
  0 < n -> 0 < d ->
  (0 <= log2_ratio n d -> d * 2 ^ log2_ratio n d <= n)
  /\ (log2_ratio n d < 0 -> d <= n * 2 ^ (- log2_ratio n d)).
Proof.
  intros Hn Hd. unfold log2_ratio.
  pose proof (Z.log2_spec n Hn) as [Hn1 Hn2]. pose proof (Z.log2_spec d Hd) as [Hd1 Hd2].
  pose proof (Z.log2_nonneg n). pose proof (Z.log2_nonneg d).
  set (ln := Z.log2 n) in *. set (ld := Z.log2 d) in *.
  destruct (Z.leb_spec 0 (ln - ld)) as [Hk|Hk].
  - destruct (Z.leb_spec (d * 2 ^ (ln - ld)) n) as [Hle|Hgt]; [split; [done|lia]|].
    split.
    + intros Hl.
      assert (2 ^ ln = 2 ^ (ld + 1) * 2 ^ (ln - ld - 1)) by (rewrite <- Z.pow_add_r by lia; f_equal; lia).
      assert (0 < 2 ^ (ln - ld - 1)) by (apply Z.pow_pos_nonneg; lia). nia.
    + intros Hl. assert (ln = ld) as -> by lia.
      replace (- (ld - ld - 1)) with 1 by lia. rewrite Z.pow_succ_r in Hd2 by lia. lia.
  - destruct (Z.leb_spec d (n * 2 ^ (- (ln - ld)))) as [Hle|Hgt]; [split; [lia|done]|].
    split; [lia|]. intros _.
    assert (2 ^ (ld + 1) = 2 ^ ln * 2 ^ (- (ln - ld - 1))) by (rewrite <- Z.pow_add_r by lia; f_equal; lia).
    assert (0 < 2 ^ (- (ln - ld - 1))) by (apply Z.pow_pos_nonneg; lia). nia.
Qed.

Lemma of_Z_exact n : - 2 ^ 53 < n < 2 ^ 53 -> of_Z n = n.
Proof.
  intros Hn. unfold of_Z, Number_of_BigInt.
  destruct (Z.ltb_spec n 0).
  - destruct (Z.ltb_spec (- n) (2 ^ 53)); lia.
  - destruct (Z.ltb_spec n (2 ^ 53)); lia.
Qed.

(** For a dividend below [2 ^ 53] the rounding of the quotient does not
    show in its floor. *)
Lemma floor_divide_exact a b :
  - 2 ^ 53 < a < 2 ^ 53 -> 0 < b < 2 ^ 1024 ->
  floor (divide a b) = Fin (inject_Z (a / b)).
Proof.
  intros Ha Hb. unfold divide.
  destruct (Z.eqb_spec b 0) as [|_]; [lia|].
  destruct (Z.eqb_spec a 0) as [->|Ha0]; [by rewrite Z.div_0_l by lia|].
  rewrite (Z.abs_eq b), (Z.sgn_pos b), Z.mul_1_r by lia.
  assert (Hn : 0 < Z.abs a < 2 ^ 53) by lia.
  destruct (log2_ratio_lower (Z.abs a) b) as [Hl1 Hl2]; [lia|lia|].
  set (l := log2_ratio (Z.abs a) b) in *.
  destruct (Z.leb_spec 0 (Z.max (l - 52) (-1074))) as [He|He].
  - (* the quotient is an integer of 53 bits *)
    assert (Hl : 52 <= l) by lia.
    assert (Hpow : 2 ^ l = 2 ^ 52 * 2 ^ (l - 52)) by (rewrite <- Z.pow_add_r by lia; f_equal; lia).
    assert (Hpos : 0 < 2 ^ (l - 52)) by (apply Z.pow_pos_nonneg; lia).
    specialize (Hl1 ltac:(lia)).
    assert (b = 1) as -> by nia.
    assert (2 ^ (l - 52) = 1) as Hone by nia.
    rewrite Z.max_l by lia. rewrite Hone, Z.mul_1_l, Z.mul_1_r.
    assert (nearest_even (Z.abs a) 1 = Z.abs a) as ->.
    { unfold nearest_even. rewrite Z.mod_1_r, Z.div_1_r. reflexivity. }
    simpl. unfold Qfloor, inject_Z. rewrite !Z.div_1_r. do 2 f_equal. lia.
  - set (p := - Z.max (l - 52) (-1074)) in *.
    replace (Z.max (l - 52) (-1074)) with (- p) in * by lia.
    rewrite ?Z.opp_involutive.
    assert (Hp : 1 <= p <= 1074) by lia.
    assert (HP : 0 < 2 ^ p) by (apply Z.pow_pos_nonneg; lia).
    assert (Hd : b < 2 * 2 ^ p).
    { destruct (Z.max_spec (l - 52) (-1074)) as [[_ Hm]|[_ Hm]].
      - assert (p = 1074) as -> by lia.
        assert (2 ^ 1024 < 2 * 2 ^ 1074) by (apply Z.pow_lt_mono_r with (a := 2) (b := 1024) (c := 1075); lia || (change (2 * 2 ^ 1074) with (2 ^ 1075); lia)).
        lia.
      - assert (l = 52 - p) by lia.
        destruct (Z.leb_spec 0 l) as [Hl|Hl].
        + specialize (Hl1 Hl).
          assert (2 ^ 53 = 2 ^ l * (2 * 2 ^ p)).
          { rewrite <- Z.pow_succ_r, <- Z.pow_add_r by lia. f_equal. lia. }
          assert (0 < 2 ^ l) by (apply Z.pow_pos_nonneg; lia). nia.
        + specialize (Hl2 Hl).
          assert (2 ^ 53 * 2 ^ (- l) = 2 * 2 ^ p).
          { rewrite <- Z.pow_succ_r, <- Z.pow_add_r by lia. f_equal. lia. }
          assert (0 < 2 ^ (- l)) by (apply Z.pow_pos_nonneg; lia). nia. }
    simpl. unfold Qfloor. rewrite Z2Pos.id by lia. do 2 f_equal.
    set (P := 2 ^ p) in *. clearbody P.
    pose proof (Z.div_mod a b ltac:(lia)) as Hdiv.
    pose proof (Z.mod_pos_bound a b ltac:(lia)) as Hmod.
    set (q0 := a / b) in *. set (r0 := a mod b) in *.
    destruct (Z.ltb_spec 0 a) as [Hpos|Hneg].
    + rewrite Z.abs_eq, Z.sgn_pos, Z.mul_1_l by lia.
      assert (Hlow : q0 * P <= nearest_even (a * P) b) by (apply nearest_even_lower; nia).
      assert (Hup : nearest_even (a * P) b < (q0 + 1) * P) by (apply nearest_even_upper; nia).
      symmetry. apply Z.div_unique with (r := nearest_even (a * P) b - q0 * P); lia.
    + rewrite Z.abs_neq, Z.sgn_neg by lia.
      assert (Hup : nearest_even (- a * P) b <= - q0 * P) by (apply nearest_even_le; nia).
      assert (Hlow : (- q0 - 1) * P < nearest_even (- a * P) b).
      { apply nearest_even_gt with (h := P); nia. }
      symmetry. apply Z.div_unique with (r := - q0 * P - nearest_even (- a * P) b); lia.
Qed.

Lemma divide_opp a b : b <> 0 -> divide (- a) (- b) = divide a b.
Proof.
  intros Hb. unfold divide. rewrite !Z.abs_opp, !Z.sgn_opp, Z.mul_opp_opp.
  destruct (Z.eqb_spec b 0) as [|_]; [done|].
  destruct (Z.eqb_spec (- b) 0); [lia|].
  destruct (Z.eqb_spec a 0) as [->|Ha]; [done|].
  by destruct (Z.eqb_spec (- a) 0); [lia|].
Qed.

(** The same for a divisor of either sign. *)
Lemma floor_divide_exact_signed a b :
  - 2 ^ 53 < a < 2 ^ 53 -> b <> 0 -> - 2 ^ 1024 < b < 2 ^ 1024 ->
  floor (divide a b) = Fin (inject_Z (a / b)).
Proof.
  intros Ha Hb Hbound. destruct (Z.ltb_spec 0 b) as [Hpos|Hneg].
  - apply floor_divide_exact; lia.
  - rewrite <- divide_opp, <- Z.div_opp_opp by done.
    apply floor_divide_exact; lia.
Qed.

End DoubleFacts.

(** ** XrplApi *)

Module XrplApiFacts.
Import XrplApi JSFacts.

(** *** Address subscriptions *)

(** The loop removes the matching entries of the part it has walked and
    keeps everything else in place. *)
Lemma unsubscribe_loop_app a h pre suf :
  unsubscribe_loop a h (length pre) (pre ++ suf) =
    Return (List.filter (fun s => negb (same_pair a h s)) pre ++ suf).
Proof.
  revert suf. induction pre as [|x pre IH] using rev_ind; intros suf; [done|].
  rewrite length_app, Nat.add_comm. simpl.
  rewrite <- (assoc_L (++)). simpl.
  rewrite list_lookup_middle by done.
  rewrite List.filter_app. simpl.
  destruct (same_pair a h x); simpl.
  - rewrite delete_middle, IH. by rewrite app_nil_r.
  - rewrite IH. by rewrite <- (assoc_L (++)).
Qed.

Lemma unsubscribe_loop_filter a h subs :
  unsubscribe_loop a h (length subs) subs =
    Return (List.filter (fun s => negb (same_pair a h s)) subs).
Proof.
  rewrite <- (app_nil_r subs) at 2.
  rewrite unsubscribe_loop_app. by rewrite app_nil_r.
Qed.

Lemma same_pair_true a h s : same_pair a h s = true <-> s = Sub a h.
Proof.
  unfold same_pair. destruct s as [a' h']; simpl.
  rewrite andb_true_iff, !bool_decide_eq_true. split.
  - by intros [-> ->].
  - by intros [= -> ->].
Qed.

Lemma subscriptions_after_unsubscribe c a h w :
  addressSubscriptions (unsubscribeFromAddress c a h w).2 =
    List.filter (fun s => negb (same_pair a h s)) (addressSubscriptions w).
Proof.
  unfold unsubscribeFromAddress. rewrite unsubscribe_loop_filter.
  unfold bind, handleClientRequest. simpl.
  by destruct (request c (now w) _).
Qed.

Lemma subscriptions_after_subscribe c a h w :
  addressSubscriptions (subscribeToAddress c a h w).2 = addressSubscriptions w ++ [Sub a h].
Proof.
  unfold subscribeToAddress, bind, modify, handleClientRequest. simpl.
  by destruct (request c (now w) _).
Qed.

(** C7. Unsubscribing an (address, handler) pair removes exactly the entries
    identical to that pair: the new list is the old one without them, in the
    old order, so every other entry (also another handler on the same address)
    stays; and after subscribing the same pair twice, one unsubscribe leaves
    no entry for the pair. *)
Theorem unsubscribe_removes_exact_pair (c : client) (a : string) (h : handler_ref) (w : world) :
  let after := addressSubscriptions (unsubscribeFromAddress c a h w).2 in
  after = List.filter (fun s => negb (bool_decide (s = Sub a h))) (addressSubscriptions w)
  /\ (Sub a h ∉ after)
  /\ (forall s, s <> Sub a h -> s ∈ addressSubscriptions w -> s ∈ after)
  /\ (forall h', h' <> h -> Sub a h' ∈ addressSubscriptions w -> Sub a h' ∈ after)
  /\ (let w1 := (subscribeToAddress c a h w).2 in
      let w2 := (subscribeToAddress c a h w1).2 in
      let w3 := (unsubscribeFromAddress c a h w2).2 in
      (Sub a h ∉ addressSubscriptions w3)
      /\ addressSubscriptions w3
         = List.filter (fun s => negb (bool_decide (s = Sub a h))) (addressSubscriptions w)).
Proof.
  assert (Hext : forall l, List.filter (fun s => negb (same_pair a h s)) l =
                           List.filter (fun s => negb (bool_decide (s = Sub a h))) l).
  { intros l. apply List.filter_ext. intros s. f_equal.
    apply eq_true_iff_eq. by rewrite same_pair_true, bool_decide_eq_true. }
  assert (Hin : forall l s, s ∈ List.filter (fun s => negb (bool_decide (s = Sub a h))) l
                            <-> s ∈ l /\ s <> Sub a h).
  { intros l s. rewrite !list_elem_of_In, List.filter_In, negb_true_iff, bool_decide_eq_false.
    tauto. }
  simpl. rewrite subscriptions_after_unsubscribe, Hext.
  split; [done|]. split; [|split; [|split; [|split]]].
  - rewrite Hin. tauto.
  - intros s Hs Hel. apply Hin. tauto.
  - intros h' Hh Hel. apply Hin. split; [done|]. by intros [= ->].
  - rewrite subscriptions_after_unsubscribe, Hext, Hin. tauto.
  - rewrite subscriptions_after_unsubscribe, Hext, !subscriptions_after_subscribe.
    rewrite !List.filter_app. simpl. rewrite bool_decide_true by done. simpl.
    by rewrite !app_nil_r.
Qed.

(** *** Paginated requests *)

Lemma page_limit_capped count : page_limit count <= MAX_PAGE_LIMIT.
Proof.
  unfold page_limit, MAX_PAGE_LIMIT. destruct count as [z|]; [|lia].
  destruct (z =? 0); simpl; lia.
Qed.

(** Every page request carries a limit of at most [MAX_PAGE_LIMIT], whatever
    count the caller asked for. *)
Lemma paging_loop_limit_capped c fuel requestType requestObj res checked resp count w r w' :
  paging_loop c fuel requestType requestObj res checked resp count w = Some (r, w') ->
  exists sent, requests w' = requests w ++ sent /\ Forall limit_capped sent.
Proof.
  revert requestObj res checked resp count w.
  induction fuel as [|fuel IH]; intros requestObj res checked resp count w; [done|].
  simpl. destruct (_ && _).
  2:{ intros [= <- <-]. exists []. by rewrite app_nil_r. }
  set (ro := if truthy (marker_of resp) then _ else _).
  assert (Hcap : limit_capped (VObj ro)).
  { exists (page_limit count). split; [|apply page_limit_capped].
    unfold ro. simpl. destruct (truthy (marker_of resp)).
    - by rewrite lookup_insert_ne, lookup_insert_eq.
    - by rewrite lookup_delete_ne, lookup_insert_eq. }
  unfold handleClientRequest.
  destruct (request c (now w) (VObj ro)) as [resp'|e].
  2:{ intros [= <- <-]. exists [VObj ro]. split; [done|]. by constructor. }
  destruct (page_items requestType resp') as [items|e].
  2:{ intros [= <- <-]. exists [VObj ro]. split; [done|]. by constructor. }
  intros H. apply IH in H as (sent & Hs & Hall).
  exists (VObj ro :: sent). split.
  - rewrite Hs. simpl. by rewrite <- (assoc_L (++)).
  - by constructor.
Qed.

(** What the loop returns is what it had, followed by the items of the
    answers to the requests it sent, page after page in the order of the
    requests: nothing is dropped, repeated or reordered. *)
Lemma paging_loop_concat c fuel requestType requestObj res checked resp count w out w' :
  paging_loop c fuel requestType requestObj res checked resp count w = Some (Return out, w') ->
  exists sent pages,
    requests w' = requests w ++ sent
    /\ Forall2 (page_of c (now w) requestType) sent pages
    /\ out = res ++ concat pages.
Proof.
  revert requestObj res checked resp count w.
  induction fuel as [|fuel IH]; intros requestObj res checked resp count w; [done|].
  simpl. destruct (_ && _).
  2:{ intros [= <- <-]. exists [], []. by rewrite !app_nil_r. }
  set (ro := if truthy (marker_of resp) then _ else _).
  unfold handleClientRequest.
  destruct (request c (now w) (VObj ro)) as [resp'|e] eqn:Hreq; [|done].
  destruct (page_items requestType resp') as [items|e] eqn:Hitems; [|done].
  intros H. apply IH in H as (sent & pages & Hs & Hall & ->).
  exists (VObj ro :: sent), (items :: pages). split; [|split].
  - rewrite Hs. simpl. by rewrite <- (assoc_L (++)).
  - constructor; [by exists resp'|done].
  - simpl. by rewrite <- (assoc_L (++)).
Qed.

(** Once a response carries no marker the loop stops and returns what it has
    accumulated, without another request. *)
Lemma paging_stops_without_marker c fuel requestType requestObj res resp count w :
  truthy (marker_of resp) = false ->
  paging_loop c (S fuel) requestType requestObj res true resp count w = Some (Return res, w).
Proof. intros H. simpl. rewrite H. simpl. by rewrite andb_false_r. Qed.

(** A count that is absent or not negative never closes the loop guard:
    [!count] holds again as soon as the count has come down to zero. *)
Lemma count_guard_open count :
  (forall z, count = Some z -> 0 <= z) ->
  negb (count_truthy count) || count_positive count = true.
Proof.
  intros H. destruct count as [z|]; [|done]. simpl.
  specialize (H z eq_refl).
  destruct (Z.eqb_spec z 0) as [->|]; [done|]. simpl. apply Z.ltb_lt. lia.
Qed.

(** A count that is not negative stays so: each round takes the page limit,
    at most the count itself, off it. *)
Lemma count_stays_nonnegative z :
  0 <= z -> 0 <= (if count_truthy (Some z) then z - page_limit (Some z) else z).
Proof.
  intros Hz. unfold count_truthy, page_limit, MAX_PAGE_LIMIT.
  destruct (Z.eqb_spec z 0); simpl; lia.
Qed.

(** With a count that is absent or not negative, a run that returns has
    stopped on a response without a marker, never on the count: the answer to
    the last request it sent carries no marker. *)
Lemma paging_loop_ends_without_marker c fuel requestType :
  forall requestObj res checked resp count w out w',
  (forall z, count = Some z -> 0 <= z) ->
  checked = false \/ truthy (marker_of resp) = true ->
  paging_loop c fuel requestType requestObj res checked resp count w = Some (Return out, w') ->
  exists sent last resp',
    requests w' = requests w ++ sent ++ [last]
    /\ request c (now w) last = Return resp'
    /\ truthy (marker_of resp') = false.
Proof.
  induction fuel as [|fuel IH]; intros requestObj res checked resp count w out w' Hc Hm; [done|].
  cbn [paging_loop]. rewrite (count_guard_open count Hc).
  assert (negb checked || truthy (marker_of resp) = true) as ->.
  { destruct Hm as [->| ->]; [done|apply orb_true_r]. }
  cbn [andb]. cbv zeta.
  set (ro := if truthy (marker_of resp) then _ else _).
  unfold handleClientRequest.
  destruct (request c (now w) (VObj ro)) as [resp'|e] eqn:Hreq; [|done].
  destruct (page_items requestType resp') as [items|e]; [|done].
  set (count' := if count_truthy count then _ else count).
  assert (Hc' : forall z, count' = Some z -> 0 <= z).
  { unfold count'. destruct count as [z0|]; [|done]. intros z.
    pose proof (count_stays_nonnegative z0 (Hc z0 eq_refl)) as Hz.
    destruct (count_truthy (Some z0)); simpl; intros [= <-]; done. }
  destruct (truthy (marker_of resp')) eqn:Hmark.
  - intros H. apply IH in H as (sent & last & r & Hs & Hl & Hr); [|done|by right].
    exists (VObj ro :: sent), last, r. split; [|done].
    rewrite Hs. simpl. by rewrite <- (assoc_L (++)).
  - destruct fuel as [|fuel']; [done|].
    rewrite paging_stops_without_marker by done. intros [= <- <-].
    exists [], (VObj ro), resp'. done.
Qed.

Example paging_three_pages :
  requestWithPaging three_pages 10 (account_lines []) "lines" fresh
  = Some (Return (VNum <$> seqZ 0 850),
          World [] [VObj (<["limit" := VNum 400]> (account_lines []));
                    VObj (<["marker" := VStr "m1"]> (<["limit" := VNum 400]> (account_lines [])));
                    VObj (<["marker" := VStr "m2"]> (<["limit" := VNum 400]> (account_lines [])))] 0).
Proof. vm_compute. reflexivity. Qed.

(** C3, as the code runs it. The caller asks for 400 lines and the first page
    brings 400 of them, with a marker: the count is satisfied, yet the loop
    goes on while markers come, sends three requests and returns 850 lines. *)
Theorem paging_count_satisfied_goes_on :
  requestWithPaging three_pages 10 (account_lines [("limit", VNum 400)]) "lines" fresh
  = Some (Return (VNum <$> seqZ 0 850),
          World [] [VObj (<["limit" := VNum 400]> (account_lines []));
                    VObj (<["marker" := VStr "m1"]> (<["limit" := VNum 400]> (account_lines [])));
                    VObj (<["marker" := VStr "m2"]> (<["limit" := VNum 400]> (account_lines [])))] 0).
Proof. vm_compute. reflexivity. Qed.

(** *** The transaction listener *)




Example delivered_payment_dispatched :
  onTransaction no_tokens Return Return [Sub "rHost" 7%nat; Sub "rOther" 8%nat]
    (TxMessage (VBool true) (transaction failed_payment) (VStr "E3F1") 120 VUndef
       (VStr "tesSUCCESS") (VStr "The transaction was applied."))
  = Return [Call 7%nat "payment"
              (VObj (<["HookParameters" := VUndef]>
                       (<["Memos" := VUndef]>
                          (<["LedgerIndex" := VNum 120]>
                             (<["LedgerHash" := VStr "E3F1"]> (transaction failed_payment))))))
              VUndef].
Proof. vm_compute. reflexivity. Qed.

(** *** The finality wait *)

Section Wait.
Variable c : client.
Variable JSON_stringify : val -> string.
Variable ToString : val -> string.

Lemma wait_core_validated fuel txHash lastLedger submissionResult w r w' :
  wait_core c JSON_stringify ToString fuel txHash lastLedger submissionResult w = Some (Validated r, w') ->
  exists v, get r "validated" = Return v /\ truthy v = true.
Proof.
  revert w r w'. induction fuel as [|fuel IH]; intros w r w'; [done|].
  simpl. destruct lastLedger as [last|]; [|done].
  destruct (getLedgerIndex c _) as [latest|e]; [|done].
  destruct (last <? latest); [done|].
  unfold getTxnInfo, bind, ret, handleClientRequest.
  destruct (request c _ _) as [resp|error].
  - destruct (get (opt_get resp "result") "validated") as [v|e] eqn:Hv; [|done].
    destruct (truthy v) eqn:Ht; [|by apply IH].
    intros [= <- <-]. eauto.
  - destruct (str_eq _ _); [|done].
    destruct (wait_core c JSON_stringify ToString fuel _ _ _ _) as [[[r'| |] w'']|] eqn:Hin; try done.
    destruct (IH _ _ _ Hin) as (v & Hv & Ht). rewrite Hv, Ht.
    intros [= <- <-]. eauto.
Qed.

(** The wait is the iteration of [poll] until a poll is not pending: the two
    places where the source calls itself behave alike. *)
Lemma wait_core_step fuel txHash last submissionResult w :
  wait_core c JSON_stringify ToString (S fuel) txHash (Some last) submissionResult w =
    match poll c JSON_stringify ToString txHash last submissionResult (advance LEDGER_CLOSE_TIME w) with
    | (SeenExit x, w') => Some (x, w')
    | (SeenPending, w') => wait_core c JSON_stringify ToString fuel txHash (Some last) submissionResult w'
    end.
Proof.
  simpl. unfold poll.
  destruct (getLedgerIndex c _) as [latest|e]; [|done].
  destruct (last <? latest); [done|].
  unfold getTxnInfo, bind, ret, handleClientRequest.
  destruct (request c _ _) as [resp|error].
  - destruct (get (opt_get resp "result") "validated") as [v|e]; [|done].
    by destruct (truthy v).
  - destruct (str_eq _ _); [|done].
    destruct (wait_core c JSON_stringify ToString fuel _ _ _ _) as [[[r'| |] w'']|] eqn:Hin; try done.
    destruct (wait_core_validated _ _ _ _ _ _ _ Hin) as (v & Hv & Ht).
    by rewrite Hv, Ht.
Qed.

Lemma poll_now txHash E sr w : now (poll c JSON_stringify ToString txHash E sr w).2 = now w.
Proof.
  unfold poll. destruct (getLedgerIndex c _); [|done].
  destruct (_ <? _); [done|].
  destruct (request c _ _) as [resp|e].
  - destruct (get _ _) as [v|]; [|done]. by destruct (truthy v).
  - by destruct (str_eq _ _).
Qed.

Lemma poll_pending_iff txHash E sr w :
  (poll c JSON_stringify ToString txHash E sr w).1 = SeenPending <-> pending_at c txHash E (now w).
Proof.
  unfold poll, pending_at, not_validated_yet. split.
  - destruct (getLedgerIndex c _) as [L|]; [|done].
    destruct (Z.ltb_spec E L); [done|].
    destruct (request c _ _) as [resp|e].
    + destruct (get _ _) as [v|] eqn:Hv; [|done].
      destruct (truthy v) eqn:Ht; [done|]. intros _.
      exists L. split; [done|]. split; [done|]. right. eauto.
    + destruct (str_eq _ _) eqn:Hs; [|done]. intros _.
      exists L. split; [done|]. split; [done|]. left. eauto.
  - intros (L & -> & HL & H).
    destruct (Z.ltb_spec E L); [lia|].
    destruct H as [(e & -> & ->)|(resp & v & -> & -> & ->)]; done.
Qed.

Lemma poll_expired_iff txHash E sr w L E' :
  (poll c JSON_stringify ToString txHash E sr w).1 = SeenExit (Expired L E') <->
  getLedgerIndex c (now w) = Return L /\ E < L /\ E' = E.
Proof.
  unfold poll. split.
  - destruct (getLedgerIndex c _) as [L0|]; [|done].
    destruct (Z.ltb_spec E L0).
    + by intros [= -> ->].
    + destruct (request c _ _) as [resp|e].
      * destruct (get _ _) as [v|]; [|done]. by destruct (truthy v).
      * by destruct (str_eq _ _).
  - intros (-> & HL & ->). destruct (Z.ltb_spec E L); [done|lia].
Qed.

Lemma poll_validated txHash E sr w L r :
  getLedgerIndex c (now w) = Return L -> L <= E ->
  found_validated (request c (now w) (getTxnInfo_request txHash VUndef)) r ->
  (poll c JSON_stringify ToString txHash E sr w).1 = SeenExit (Validated r).
Proof.
  intros HL Hle (resp & v & Hq & -> & Hv & Ht). unfold poll.
  rewrite HL, Hq, Hv, Ht. destruct (Z.ltb_spec E L); [lia|done].
Qed.

Lemma poll_time_shift t0 j :
  poll_time (t0 + LEDGER_CLOSE_TIME) j = poll_time t0 (S j).
Proof. unfold poll_time. lia. Qed.

(** While the polls are pending the wait only moves to the next poll. *)
Lemma wait_core_skip_pending txHash E sr k : forall fuel w,
  (forall j, (j < k)%nat -> pending_at c txHash E (poll_time (now w) j)) ->
  exists w', now w' = now w + Z.of_nat k * LEDGER_CLOSE_TIME /\
    wait_core c JSON_stringify ToString (k + fuel) txHash (Some E) sr w = wait_core c JSON_stringify ToString fuel txHash (Some E) sr w'.
Proof.
  induction k as [|k IH]; intros fuel w Hp.
  - exists w. split; [lia|done].
  - replace (S k + fuel)%nat with (S (k + fuel)) by lia.
    rewrite wait_core_step.
    pose proof (Hp O ltac:(lia)) as H0.
    assert (Hnow : now (advance LEDGER_CLOSE_TIME w) = poll_time (now w) 0)
      by (unfold poll_time; simpl; lia).
    rewrite <- Hnow in H0. apply (proj2 (poll_pending_iff txHash E sr _)) in H0.
    pose proof (poll_now txHash E sr (advance LEDGER_CLOSE_TIME w)) as Hn.
    destruct (poll c JSON_stringify ToString txHash E sr (advance LEDGER_CLOSE_TIME w)) as [sn w1].
    simpl in H0, Hn. subst sn.
    destruct (IH fuel w1) as (w' & Hw' & Heq).
    + intros j Hj. rewrite Hn. simpl. rewrite poll_time_shift. apply Hp. lia.
    + exists w'. split; [|done]. rewrite Hw', Hn. simpl. lia.
Qed.

Lemma wait_core_expires txHash E sr fuel w k L :
  (k < fuel)%nat ->
  (forall j, (j < k)%nat -> pending_at c txHash E (poll_time (now w) j)) ->
  getLedgerIndex c (poll_time (now w) k) = Return L -> E < L ->
  exists w', wait_core c JSON_stringify ToString fuel txHash (Some E) sr w = Some (Expired L E, w').
Proof.
  intros Hk Hp HL HE.
  destruct (wait_core_skip_pending txHash E sr k (fuel - k) w Hp) as (w1 & Hn & Heq).
  replace (k + (fuel - k))%nat with fuel in Heq by lia. rewrite Heq.
  destruct (fuel - k)%nat as [|f] eqn:Hf; [lia|].
  rewrite wait_core_step.
  assert (Ht : now (advance LEDGER_CLOSE_TIME w1) = poll_time (now w) k)
    by (unfold poll_time; simpl; lia).
  pose proof (proj2 (poll_expired_iff txHash E sr (advance LEDGER_CLOSE_TIME w1) L E)) as Hx.
  rewrite Ht in Hx. specialize (Hx (conj HL (conj HE eq_refl))).
  destruct (poll c JSON_stringify ToString _ _ _ _) as [sn w2]. simpl in Hx. subst sn. eauto.
Qed.

Lemma wait_core_finds txHash E sr fuel w k L r :
  (k < fuel)%nat ->
  (forall j, (j < k)%nat -> pending_at c txHash E (poll_time (now w) j)) ->
  getLedgerIndex c (poll_time (now w) k) = Return L -> L <= E ->
  found_validated (request c (poll_time (now w) k) (getTxnInfo_request txHash VUndef)) r ->
  exists w', wait_core c JSON_stringify ToString fuel txHash (Some E) sr w = Some (Validated r, w').
Proof.
  intros Hk Hp HL HE Hr.
  destruct (wait_core_skip_pending txHash E sr k (fuel - k) w Hp) as (w1 & Hn & Heq).
  replace (k + (fuel - k))%nat with fuel in Heq by lia. rewrite Heq.
  destruct (fuel - k)%nat as [|f] eqn:Hf; [lia|].
  rewrite wait_core_step.
  assert (Ht : now (advance LEDGER_CLOSE_TIME w1) = poll_time (now w) k)
    by (unfold poll_time; simpl; lia).
  pose proof (poll_validated txHash E sr (advance LEDGER_CLOSE_TIME w1) L r) as Hx.
  rewrite Ht in Hx. specialize (Hx HL HE Hr).
  destruct (poll c JSON_stringify ToString _ _ _ _) as [sn w2]. simpl in Hx. subst sn. eauto.
Qed.

Lemma wait_core_expired_inv txHash E sr fuel : forall w L E' w',
  wait_core c JSON_stringify ToString fuel txHash (Some E) sr w = Some (Expired L E', w') ->
  E' = E /\
  exists k, (k < fuel)%nat /\
    (forall j, (j < k)%nat -> pending_at c txHash E (poll_time (now w) j)) /\
    getLedgerIndex c (poll_time (now w) k) = Return L /\ E < L.
Proof.
  induction fuel as [|fuel IH]; intros w L E' w'; [done|].
  rewrite wait_core_step.
  assert (Ht : now (advance LEDGER_CLOSE_TIME w) = poll_time (now w) 0)
    by (unfold poll_time; simpl; lia).
  pose proof (poll_now txHash E sr (advance LEDGER_CLOSE_TIME w)) as Hn.
  pose proof (poll_pending_iff txHash E sr (advance LEDGER_CLOSE_TIME w)) as Hpe.
  pose proof (poll_expired_iff txHash E sr (advance LEDGER_CLOSE_TIME w) L E') as Hex.
  destruct (poll c JSON_stringify ToString _ _ _ _) as [[|x] w1]; simpl in *.
  - intros H. apply IH in H as (-> & k & Hk & Hp & HL & HE). split; [done|].
    exists (S k). split; [lia|]. rewrite Hn in Hp, HL. simpl in Hp, HL.
    rewrite poll_time_shift in HL. split; [|done].
    intros [|j] Hj.
    + rewrite <- Ht. by apply Hpe.
    + rewrite <- poll_time_shift. apply Hp. lia.
  - intros [= -> ->]. destruct (proj1 Hex eq_refl) as (HL & HE & ->). split; [done|].
    exists O. split; [lia|]. split; [intros; lia|]. by rewrite <- Ht.
Qed.

End Wait.

Lemma expired_error_carries L E sr k v :
  spread sr !! k = Some v -> opt_get (expired_error L E sr) k = v.
Proof.
  intros H. unfold expired_error, obj_merge. simpl.
  by rewrite (lookup_union_Some_l _ _ _ _ H).
Qed.

Lemma expired_error_status L E sr :
  spread sr !! "status" = None -> opt_get (expired_error L E sr) "status" = VStr "TOOK_LONG".
Proof.
  intros H. unfold expired_error, obj_merge. simpl.
  rewrite lookup_union_r by done.
  by rewrite lookup_insert_ne, lookup_insert_eq.
Qed.

(** C1. The finality wait of a transaction with expiry index [E] ends in the
    Expired branch exactly when some poll sees a ledger index above [E] while
    every earlier poll saw an index of at most [E] and did not find the
    transaction validated; it ends with the validated transaction when a poll
    at an index of at most [E] finds it, after earlier polls that were
    pending; and the thrown Expired object is the [TOOK_LONG] object with
    every property of the provisional submission result on it. *)
Theorem finality_wait_expired_iff (c : client) (JSON_stringify ToString : val -> string)
    (fuel : nat) (txHash submissionResult : val) (E : Z) (w : world) :
  let pending k := forall j, (j < k)%nat -> pending_at c txHash E (poll_time (now w) j) in
  (forall L,
     (exists w', wait_core c JSON_stringify ToString fuel txHash (Some E) submissionResult w
                 = Some (Expired L E, w'))
     <-> (exists k, (k < fuel)%nat /\ pending k /\
            getLedgerIndex c (poll_time (now w) k) = Return L /\ E < L))
  /\ (forall L w',
        wait_core c JSON_stringify ToString fuel txHash (Some E) submissionResult w
          = Some (Expired L E, w') ->
        waitForFinalTransactionOutcome c JSON_stringify ToString fuel txHash (Some E)
          submissionResult w = Some (Throw (expired_error L E submissionResult), w'))
  /\ (forall k L r,
        (k < fuel)%nat -> pending k ->
        getLedgerIndex c (poll_time (now w) k) = Return L -> L <= E ->
        found_validated (request c (poll_time (now w) k) (getTxnInfo_request txHash VUndef)) r ->
        exists w', waitForFinalTransactionOutcome c JSON_stringify ToString fuel txHash (Some E)
                     submissionResult w = Some (Return r, w'))
  /\ (forall L,
        (forall k v, spread submissionResult !! k = Some v ->
                     opt_get (expired_error L E submissionResult) k = v)
        /\ (spread submissionResult !! "status" = None ->
            opt_get (expired_error L E submissionResult) "status" = VStr "TOOK_LONG")).
Proof.
  simpl. split; [|split; [|split]].
  - intros L. split.
    + intros (w' & H). by apply wait_core_expired_inv in H as (_ & H).
    + intros (k & Hk & Hp & HL & HE). by eapply wait_core_expires.
  - intros L w' H. unfold waitForFinalTransactionOutcome. by rewrite H.
  - intros k L r Hk Hp HL HE Hr.
    destruct (wait_core_finds c JSON_stringify ToString txHash E submissionResult
                fuel w k L r Hk Hp HL HE Hr) as (w' & H).
    exists w'. unfold waitForFinalTransactionOutcome. by rewrite H.
  - intros L. split.
    + intros k v. apply expired_error_carries.
    + apply expired_error_status.
Qed.

Example wait_expires_at_103 :
  wait_core (simulated_ledger None) no_text no_text 10 (VStr "ABC") (Some 102) provisional
    (World [] [] 0)
  = Some (Expired 103 102,
          World [] [getTxnInfo_request (VStr "ABC") VUndef; getTxnInfo_request (VStr "ABC") VUndef] 3000).
Proof. vm_compute. reflexivity. Qed.

Example wait_finds_at_102 :
  waitForFinalTransactionOutcome (simulated_ledger (Some 2000)) no_text no_text 10 (VStr "ABC")
    (Some 102) provisional (World [] [] 0)
  = Some (Return validated_payment,
          World [] [getTxnInfo_request (VStr "ABC") VUndef; getTxnInfo_request (VStr "ABC") VUndef] 2000).
Proof. vm_compute. reflexivity. Qed.

(** A whole reliable submission: sent at time 0, found validated at the
    second poll, answered with the result code and the validated record. *)
Example submit_and_wait_succeeds :
  submitAndWait (simulated_ledger (Some 2000)) no_text no_text Return 10
    (Tx (Some 105) (tx_fields unsigned_payment)) (VStr "1200") fresh
  = Some (Return (obj [("id", VStr "ABC"); ("code", VStr "tesSUCCESS");
                       ("details", validated_payment)]),
          World [] [submit_request (VStr "1200"); getTxnInfo_request (VStr "ABC") VUndef;
                    getTxnInfo_request (VStr "ABC") VUndef] 2000).
Proof. vm_compute. reflexivity. Qed.

(** *** Submission without an expiry index *)

(** Without a [LastLedgerSequence] the wait throws before it sleeps or asks
    anything. *)
Lemma wait_without_last_ledger c JSON_stringify ToString fuel txHash sr w :
  waitForFinalTransactionOutcome c JSON_stringify ToString (S fuel) txHash None sr w
  = Some (Throw (VStr MISSING_LAST_LEDGER), w).
Proof. done. Qed.

(** C2, as the code has it. A transaction without [LastLedgerSequence] is
    first sent: the submit request is the one request that goes out. When the
    network answers it with a submission result (one with [result.tx_json]),
    the call then fails with the caller error, a plain message and not a
    network error, before any sleep or poll. The same holds for the
    multi-signed path. *)
Theorem missing_last_ledger_rejected_after_submit (c : client)
    (JSON_stringify ToString : val -> string) (hookExecution : val -> outcome val)
    (fuel : nat) (tx : submitted_transaction) (tx_blob : val) (w : world) :
  LastLedgerSequence tx = None ->
  (exists r,
     submitAndWait c JSON_stringify ToString hookExecution (S fuel) tx tx_blob w
       = Some (r, log_request (submit_request tx_blob) w)
     /\ (forall sr hash,
           request c (now w) (submit_request tx_blob) = Return sr ->
           submission_hash sr = Return hash ->
           r = Throw (VStr MISSING_LAST_LEDGER)))
  /\ (exists r,
       submitMultisignedAndWait c JSON_stringify ToString hookExecution (S fuel) tx w
         = Some (r, log_request (submit_multisigned_request (clear_signing_key tx)) w)
       /\ (forall sr hash,
             request c (now w) (submit_multisigned_request (clear_signing_key tx)) = Return sr ->
             submission_hash sr = Return hash ->
             r = Throw (VStr MISSING_LAST_LEDGER))).
Proof.
  intros Hll. split.
  - unfold submitAndWait, handleClientRequest.
    destruct (request c (now w) (submit_request tx_blob)) as [sr|e].
    2:{ eexists. split; [done|]. intros ? ? [=]. }
    unfold prepareResponse. fold (submission_hash sr).
    destruct (submission_hash sr) as [hash|e] eqn:Hh.
    2:{ eexists. split; [done|]. intros ? ? [= <-] Hh'. congruence. }
    rewrite Hll, wait_without_last_ledger. eexists. split; [done|]. done.
  - unfold submitMultisignedAndWait, handleClientRequest.
    destruct (request c (now w) _) as [sr|e].
    2:{ eexists. split; [done|]. intros ? ? [=]. }
    unfold prepareResponse. fold (submission_hash sr).
    destruct (submission_hash sr) as [hash|e] eqn:Hh.
    2:{ eexists. split; [done|]. intros ? ? [= <-] Hh'. congruence. }
    simpl. rewrite Hll, wait_without_last_ledger. eexists. split; [done|]. done.
Qed.

Lemma missing_last_ledger_witness :
  LastLedgerSequence unsigned_payment = None
  /\ submitAndWait (simulated_ledger None) no_text no_text Return 1 unsigned_payment
       (VStr "1200") fresh
     = Some (Throw (VStr MISSING_LAST_LEDGER), World [] [submit_request (VStr "1200")] 0).
Proof.
  split; [reflexivity|].
  destruct (missing_last_ledger_rejected_after_submit (simulated_ledger None) no_text no_text
              Return 0 unsigned_payment (VStr "1200") fresh eq_refl) as [(r & Hrun & Hr) _].
  rewrite Hrun. rewrite (Hr provisional (VStr "ABC") eq_refl eq_refl). reflexivity.
Defined.

(** C2 as stated fails: the transaction without [LastLedgerSequence] has
    reached the network when the call is rejected. *)
Lemma submit_precedes_last_ledger_check :
  ~ (forall (c : client) (tx : submitted_transaction) (tx_blob : val) (w : world) r w',
       LastLedgerSequence tx = None ->
       submitAndWait c no_text no_text Return 1 tx tx_blob w = Some (r, w') ->
       requests w' = requests w).
Proof.
  intros H.
  specialize (H (simulated_ledger None) unsigned_payment (VStr "1200") fresh
                (Throw (VStr MISSING_LAST_LEDGER))
                (World [] [submit_request (VStr "1200")] 0) eq_refl eq_refl).
  discriminate H.
Qed.

(** *** Multi-signing *)

Section MultiSign.
Variable xrpl_multisign : list val -> outcome val.

Lemma multiSign_empty : multiSign xrpl_multisign [] = Throw (VStr EMPTY_TRANSACTION_LIST).
Proof. done. Qed.

Lemma multiSign_delegates transactions :
  transactions <> [] -> multiSign xrpl_multisign transactions = xrpl_multisign transactions.
Proof. by destruct transactions. Qed.

(** [multiSign] hands the list on as it got it: it depends on the order of
    the transactions only as far as the library does. *)
Lemma multiSign_order_from_library :
  (forall l l', l ≡ₚ l' -> xrpl_multisign l = xrpl_multisign l') ->
  forall l l', l ≡ₚ l' -> multiSign xrpl_multisign l = multiSign xrpl_multisign l'.
Proof.
  intros Hlib l l' Hp. unfold multiSign.
  rewrite (Permutation_length Hp). destruct (0 <? length l')%nat; [by apply Hlib|done].
Qed.

End MultiSign.

End XrplApiFacts.

(** ** HostClient *)

Module HostClientFacts.
Import HostClient JSFacts.

(** *** The retry wrapper *)

Section Retry.
Variable callback : nat -> Z -> outcome val.
Variable options : option retry_options.

Lemma attempts_app t1 t2 : attempts (t1 ++ t2) = (attempts t1 + attempts t2)%nat.
Proof. unfold attempts. by rewrite List.filter_app, length_app. Qed.

Lemma retry_loop_spec fuel : forall a fee trace,
  length trace = (2 * a)%nat ->
  Z.of_nat a <> max_attempts options ->
  (Z.to_nat (max_attempts options) - a < fuel)%nat ->
  exists res ext,
    retry_loop callback options fuel a fee trace = Some (res, trace ++ ext)
    /\ (attempts ext <= Z.to_nat (max_attempts options) - a)%nat
    /\ (Z.of_nat a < max_attempts options -> ext !! O = Some (Attempt fee))
    /\ (forall n, (a <= n)%nat -> after_failure callback options res (trace ++ ext) n).
Proof.
  induction fuel as [|fuel IH]; intros a fee trace Hlen Hne Hfuel; [lia|].
  cbn [retry_loop]. destruct (Z.leb_spec (Z.of_nat a) (max_attempts options)) as [Hle|Hgt].
  2:{ exists (Return VUndef), []. rewrite app_nil_r. split; [done|].
      split; [unfold attempts; simpl; lia|]. split; [lia|].
      intros n Hn fee' e Hl. apply lookup_lt_Some in Hl. lia. }
  assert (Hlt : Z.of_nat a < max_attempts options) by lia.
  assert (Hone : forall res,
    (forall e, callback (S a) fee = Throw e ->
       res = Throw e /\ (terminal e = true \/ Z.of_nat (S a) = max_attempts options) \/
       (nullish e = true /\ Z.of_nat (S a) <> max_attempts options)) ->
    exists res' ext,
      Some (res, trace ++ [Attempt fee]) = Some (res', trace ++ ext)
      /\ (attempts ext <= Z.to_nat (max_attempts options) - a)%nat
      /\ (Z.of_nat a < max_attempts options -> ext !! O = Some (Attempt fee))
      /\ (forall n, (a <= n)%nat -> after_failure callback options res' (trace ++ ext) n)).
  { intros res Hres. exists res, [Attempt fee]. split; [done|].
    split; [unfold attempts; simpl; lia|]. split; [done|].
    intros n Hn fee' e Hl He.
    assert (n = a) as ->.
    { apply lookup_lt_Some in Hl. rewrite length_app in Hl. simpl in Hl. lia. }
    rewrite lookup_app_r, Hlen, Nat.sub_diag in Hl by lia.
    injection Hl as <-.
    destruct (Hres e He) as [[-> Hwhy]|[Hnull Hnm]].
    - rewrite length_app, Hlen. simpl.
      split; [intros _; split; [done|lia]|].
      split; [intros _; split; [done|lia]|].
      intros Hn1 _ Ht. destruct Hwhy; congruence.
    - split.
      { unfold terminal. destruct e; simpl in Hnull; try done. }
      split; [done|]. intros _ Hn0. congruence. }
  destruct (callback (S a) fee) as [v|e] eqn:Hcb.
  { apply Hone. intros e [=]. }
  destruct (Z.eqb_spec (Z.of_nat (S a)) (max_attempts options)) as [Hmax|Hnmax].
  { apply Hone. intros ? [= <-]. left. eauto. }
  destruct (get e "code") as [code|te] eqn:Hcode.
  2:{ destruct (Hone (Throw te)) as (res' & ext & Heq & Hrest).
      - intros ? [= <-]. right. split; [|done]. by eapply get_throws_nullish.
      - exists res', ext. by rewrite <- Heq. }
  destruct (terminal_code code) eqn:Hterm.
  { apply Hone. intros ? [= <-]. left. split; [done|]. left. unfold terminal. by rewrite Hcode. }
  fold (next_uplift options fee e).
  destruct (IH (S a) (next_uplift options fee e) ((trace ++ [Attempt fee]) ++ [Sleep TX_RETRY_INTERVAL]))
    as (res & ext & Hrun & Hcount & Hfirst & Hafter).
  - rewrite !length_app. simpl. lia.
  - done.
  - lia.
  - exists res, (Attempt fee :: Sleep TX_RETRY_INTERVAL :: ext).
    assert (Happ : ((trace ++ [Attempt fee]) ++ [Sleep TX_RETRY_INTERVAL]) ++ ext
                   = trace ++ Attempt fee :: Sleep TX_RETRY_INTERVAL :: ext).
    { by rewrite <- !(assoc_L (++)). }
    rewrite Hrun, Happ. split; [done|]. split.
    { change (attempts (Attempt fee :: Sleep TX_RETRY_INTERVAL :: ext)) with (S (attempts ext)). lia. }
    split; [done|].
    intros n Hn. destruct (decide (n = a)) as [->|Hna].
    + intros fee' e' Hl He.
      rewrite lookup_app_r, Hlen, Nat.sub_diag in Hl by lia. injection Hl as <-.
      rewrite Hcb in He. injection He as <-.
      assert (Hnt : terminal e = false) by (unfold terminal; by rewrite Hcode).
      split; [congruence|]. split; [done|]. intros _ _ _.
      rewrite !lookup_app_r by lia.
      replace (S (2 * a) - length trace)%nat with 1%nat by lia.
      replace (S (S (2 * a)) - length trace)%nat with 2%nat by lia.
      split; [done|]. simpl. apply Hfirst. lia.
    + rewrite <- Happ. apply Hafter. lia.
Qed.

End Retry.

(** The maximum and the increment that the wrapper works with are those of
    the options, 1 and 0 standing in for what is missing; a maximum of 0 is
    read as missing. *)
Lemma max_attempts_configured options :
  default 1 (options ≫= maxRetryAttempts) <> 0 ->
  max_attempts options = default 1 (options ≫= maxRetryAttempts).
Proof.
  unfold max_attempts. destruct options as [[[z|] ?]|]; simpl; try done.
  by destruct (Z.eqb_spec z 0).
Qed.

Lemma fee_increment_configured options :
  fee_increment options = default 0 (options ≫= feeUplift).
Proof. by destruct options as [[? [z|]]|]. Qed.

Lemma terminal_codes e code :
  get e "code" = Return code ->
  terminal e = true
  <-> code = VStr "tecDUPLICATE" \/ code = VStr "tefPAST_SEQ" \/ code = VStr "tefALREADY".
Proof.
  intros Hcode. unfold terminal, terminal_code. rewrite Hcode.
  rewrite !orb_true_iff, !str_eq_true. tauto.
Qed.

Lemma status_read e status :
  get e "status" = Return status -> opt_get e "status" = status.
Proof. destruct e; simpl; congruence. Qed.

(** C4, as the code has it.  With a configured maximum other than 0 (1 when
    none is configured), a run of the retry wrapper calls the callback at
    most that many times, the first time with no uplift.  A failure whose
    code is [tecDUPLICATE], [tefPAST_SEQ] or [tefALREADY], and any failure of
    the attempt that reaches the maximum, is rethrown at once and ends the
    run.  A failure before that attempt whose code can be read and is none of
    the three is followed by a sleep of 3000 ms and then by the next attempt;
    that attempt is called with the uplift raised by the configured increment
    (0 when none is configured) when the failure has the status [TOOK_LONG],
    and with the same uplift otherwise. *)
Theorem submitWithRetry_bounded_and_escalating (callback : nat -> Z -> outcome val)
    (options : option retry_options) :
  let maximum := default 1 (options ≫= maxRetryAttempts) in
  let increment := default 0 (options ≫= feeUplift) in
  maximum <> 0 ->
  exists res trace,
    submitWithRetry callback options = Some (res, trace)
    /\ (attempts trace <= Z.to_nat maximum)%nat
    /\ (0 < maximum -> trace !! O = Some (Attempt 0))
    /\ (forall n fee e,
          trace !! (2 * n)%nat = Some (Attempt fee) -> callback (S n) fee = Throw e ->
          (forall code,
             get e "code" = Return (VStr code) ->
             code = "tecDUPLICATE" \/ code = "tefPAST_SEQ" \/ code = "tefALREADY" ->
             res = Throw e /\ length trace = S (2 * n))
          /\ (Z.of_nat (S n) = maximum -> res = Throw e /\ length trace = S (2 * n))
          /\ (forall code status,
                Z.of_nat (S n) < maximum ->
                get e "code" = Return code ->
                code <> VStr "tecDUPLICATE" -> code <> VStr "tefPAST_SEQ" ->
                code <> VStr "tefALREADY" ->
                get e "status" = Return status ->
                trace !! (S (2 * n)) = Some (Sleep 3000)
                /\ exists next,
                     trace !! (S (S (2 * n))) = Some (Attempt next)
                     /\ (status = VStr "TOOK_LONG" -> next = fee + increment)
                     /\ (status <> VStr "TOOK_LONG" -> next = fee))).
Proof.
  intros maximum increment Hmax.
  pose proof (max_attempts_configured options Hmax) as Hm. fold maximum in Hm.
  pose proof (fee_increment_configured options) as Hi. fold increment in Hi.
  unfold submitWithRetry.
  destruct (retry_loop_spec callback options (S (Z.to_nat (max_attempts options))) 0 0 [])
    as (res & ext & Hrun & Hcount & Hfirst & Hafter).
  - done.
  - rewrite Hm. lia.
  - lia.
  - exists res, ext. split; [exact Hrun|]. split; [lia|].
    split; [intros Hpos; apply Hfirst; lia|].
    intros n fee e Hl Hcb.
    destruct (Hafter n ltac:(lia) fee e Hl Hcb) as (Hterm & Hlast & Hretry).
    rewrite Hm in Hlast, Hretry. cbn [app] in Hterm, Hlast, Hretry.
    split; [|split].
    + intros code Hcode Hone. apply Hterm. apply (terminal_codes e (VStr code) Hcode).
      destruct Hone as [-> |[-> | ->]]; auto.
    + exact Hlast.
    + intros code status Hn Hcode H1 H2 H3 Hstatus.
      destruct Hretry as [Hsleep Hnext].
      * lia.
      * by destruct e.
      * destruct (terminal e) eqn:Ht; [|done].
        apply (terminal_codes e code Hcode) in Ht. tauto.
      * split; [exact Hsleep|]. eexists. split; [exact Hnext|].
        unfold next_uplift. rewrite (status_read e status Hstatus), Hi. split.
        -- intros ->. by rewrite str_eq_refl.
        -- intros Hne. by rewrite str_eq_false.
Qed.

Lemma submitWithRetry_witness :
  let callback (n : nat) (fee : Z) : outcome val :=
    if (n <? 3)%nat then Throw (obj [("status", VStr "TOOK_LONG")]) else Return (VNum fee) in
  let options := Some (RetryOptions (Some 5) (Some 10)) in
  exists res trace,
    submitWithRetry callback options = Some (res, trace)
    /\ (attempts trace <= 5)%nat
    /\ trace !! 2%nat = Some (Attempt 10).
Proof.
  intros callback options.
  destruct (submitWithRetry_bounded_and_escalating callback options ltac:(discriminate))
    as (res & trace & Hrun & Hcount & Hfirst & Hafter).
  exists res, trace. split; [exact Hrun|]. split; [exact Hcount|].
  destruct (Hafter O 0 (obj [("status", VStr "TOOK_LONG")]) (Hfirst eq_refl) eq_refl)
    as (_ & _ & Hretry).
  destruct (Hretry VUndef (VStr "TOOK_LONG") eq_refl eq_refl
              ltac:(discriminate) ltac:(discriminate) ltac:(discriminate) eq_refl)
    as (_ & next & Hnext & Hraised & _).
  rewrite (Hraised eq_refl) in Hnext. exact Hnext.
Defined.

(** C4 as it was claimed does not hold for a configured maximum of 0: the
    wrapper reads it as 1 and calls the callback once. *)
Theorem zero_maximum_is_one_attempt :
  ~ (forall (callback : nat -> Z -> outcome val) (maximum : Z) (increment : option Z),
       exists res trace,
         submitWithRetry callback (Some (RetryOptions (Some maximum) increment))
         = Some (res, trace)
         /\ (attempts trace <= Z.to_nat maximum)%nat).
Proof.
  intros H. destruct (H (fun _ _ => Return VUndef) 0 None) as (res & trace & Hrun & Hcount).
  vm_compute in Hrun. injection Hrun as <- <-. vm_compute in Hcount. lia.
Qed.

(** A failure that is [null] or [undefined] has no code to read: the wrapper
    then ends with a TypeError instead of trying again. *)
Example retry_nullish_failure :
  submitWithRetry (fun n fee => Throw VUndef) (Some (RetryOptions (Some 5) (Some 10)))
  = Some (Throw (TypeError "Cannot read properties of null or undefined (reading 'code')"),
          [Attempt 0]).
Proof. vm_compute. reflexivity. Qed.

Example retry_escalates_fee :
  submitWithRetry
    (fun n fee => if (n <? 3)%nat then Throw (obj [("status", VStr "TOOK_LONG")])
                  else Return (VNum fee))
    (Some (RetryOptions (Some 5) (Some 10)))
  = Some (Return (VNum 20),
          [Attempt 0; Sleep 3000; Attempt 10; Sleep 3000; Attempt 20]).
Proof. vm_compute. reflexivity. Qed.

Example retry_stops_on_duplicate :
  submitWithRetry (fun n fee => Throw (obj [("code", VStr "tecDUPLICATE")]))
    (Some (RetryOptions (Some 5) (Some 10)))
  = Some (Throw (obj [("code", VStr "tecDUPLICATE")]), [Attempt 0]).
Proof. vm_compute. reflexivity. Qed.

(** *** Registration checks *)

Lemma country_code_matches_sound s :
  country_code_matches s = true -> two_uppercase_letters s.
Proof.
  destruct s as [|a [|b [|]]]; try done. simpl. unfold upper.
  rewrite !andb_true_iff, !Nat.leb_le. intros [[] []]. exists a, b. auto.
Qed.

Lemma not_positive_integer_sound x :
  not_positive_integer x = false -> positive_integer x.
Proof.
  unfold not_positive_integer. rewrite !orb_false_iff. intros [[[H0 _] Hf] Hn].
  destruct x as [[num den]| | |]; try done. simpl in *.
  apply Z.eqb_neq in H0. apply negb_false_iff, Z.eqb_eq in Hf. apply Z.ltb_ge in Hn.
  apply Z.mod_divide in Hf; [|done]. destruct Hf as [n ->].
  exists n, (n * Z.pos den # den). split; [nia|]. split; [done|].
  unfold Qeq. simpl. lia.
Qed.

Lemma description_matches_sound s :
  description_matches s = true ->
  (String.length s <= 26)%nat /\ ~ contains ";" s.
Proof.
  unfold description_matches, contains. rewrite andb_true_iff, Nat.leb_le, forallb_forall.
  intros [Hall Hlen]. split; [done|]. intros Hin. apply Hall in Hin.
  unfold description_char in Hin. by rewrite bool_decide_true in Hin.
Qed.

Lemma at_between_sound s : at_between s = true -> at_with_text_around s.
Proof.
  induction s as [|a rest IH]; [done|]. simpl. rewrite orb_true_iff. intros [H|H].
  - destruct rest as [|b [|ch tail]]; try done.
    rewrite !andb_true_iff, bool_decide_eq_true in H. destruct H as [[_ ->] _].
    by exists (String a ""), (String ch tail).
  - destruct (IH H) as (before & after & -> & _ & Hafter).
    by exists (String a before), after.
Qed.

Lemma email_rejected_sound s :
  email_rejected s = false -> at_with_text_around s /\ (String.length s <= 40)%nat.
Proof.
  unfold email_rejected. rewrite !orb_false_iff, negb_false_iff, Nat.ltb_ge.
  intros [[_ H] Hlen]. split; [by apply at_between_sound|done].
Qed.

Lemma registration_error_none r :
  registration_error r = None -> ~ invalid_registration r.
Proof.
  unfold registration_error.
  destruct (country_code_matches _) eqn:Hc; [simpl|done].
  repeat match goal with
         | |- context [if not_positive_integer ?x then _ else _] =>
             let H := fresh "Hn" in
             destruct (not_positive_integer x) eqn:H; [done|];
             apply not_positive_integer_sound in H
         end.
  case_bool_decide as Hm; [done|].
  destruct (description_matches _) eqn:Hd; [simpl|done].
  destruct (email_rejected _) eqn:He; [done|]. intros _.
  apply country_code_matches_sound in Hc.
  apply description_matches_sound in Hd as [Hlen Hsemi].
  apply email_rejected_sound in He as [Hat Hlen'].
  unfold invalid_registration. intros H.
  decompose [or] H; (done || lia).
Qed.

Lemma registration_error_message r message :
  registration_error r = Some message -> In message registration_messages.
Proof.
  unfold registration_error, registration_messages.
  repeat match goal with
         | |- context [if ?b then _ else _] => destruct b
         end;
    intros [= <-]; simpl; tauto.
Qed.

(** The checks let a well-formed registration through to the rest of
    [register], and name the first argument that is wrong. *)
Example well_formed_host_passes : registration_error well_formed_host = None.
Proof. reflexivity. Qed.

Example fractional_ram_rejected :
  registration_error
    (Registration "AU" (Fin 800000) (Fin (4096 # 10)) (Fin 51200) (Fin 3) "Intel Xeon" (Fin 4)
       (Fin 2400) "sample host" "ops@example.org")
  = Some "ramMb should be a positive integer".
Proof. reflexivity. Qed.

Example email_without_domain_rejected :
  registration_error
    (Registration "AU" (Fin 800000) (Fin 4096) (Fin 51200) (Fin 3) "Intel Xeon" (Fin 4)
       (Fin 2400) "sample host" "ops@")
  = Some "Email address should be valid and can not have more than 40 characters.".
Proof. reflexivity. Qed.

(** C10. When an argument of [register] fails one of the stated conditions,
    [register] throws one of its descriptive messages and leaves the world as
    it was: the part that asks the ledger or changes state is never
    reached. *)
Theorem register_rejects_invalid_arguments (W : Type)
    (register_after_checks : registration -> M W val) (r : registration) :
  invalid_registration r ->
  exists message,
    In message registration_messages
    /\ forall w, register W register_after_checks r w = (Throw (VStr message), w).
Proof.
  intros Hinv. unfold register.
  destruct (registration_error r) as [message|] eqn:He.
  - exists message. split; [by eapply registration_error_message|done].
  - by apply registration_error_none in He.
Qed.

Lemma register_rejects_invalid_witness :
  invalid_registration lowercase_country
  /\ exists message,
       In message registration_messages
       /\ forall w : unit, register unit (fun _ => ret VUndef) lowercase_country w
                          = (Throw (VStr message), w).
Proof.
  assert (H : invalid_registration lowercase_country).
  { left. intros (a & b & [= <- <-] & Ha & _). vm_compute in Ha. lia. }
  split; [exact H|].
  exact (register_rejects_invalid_arguments unit (fun _ => ret VUndef) lowercase_country H).
Defined.

End HostClientFacts.

(** ** EvernodeHook *)

Module EvernodeHookFacts.
Import EvernodeHook JSFacts.



Example redeem_success_extracted :
  extractEvernodeHookEvent sample_common (VStr "rHook") (Return []) parse_one id
    (Payment (VStr "rHost") (VStr "rHook") (VStr "1") (Some (redeem_memos "binary" "C3D4")))
  = Return (Some (RedeemSuccess
                    (Payment (VStr "rHost") (VStr "rHook") (VStr "1")
                       (Some (redeem_memos "binary" "C3D4")))
                    (VStr "A1B2") (VStr "C3D4"))).
Proof. reflexivity. Qed.


(** *** Configuration and moments *)

Lemma getStateData_holds states key bytes :
  holds states key bytes -> getStateData states key = Some bytes.
Proof.
  intros (pre & post & -> & Hpre). unfold getStateData.
  induction pre as [|s pre IH]; simpl.
  - by rewrite bool_decide_eq_true_2.
  - rewrite bool_decide_eq_false_2.
    + apply IH. intros s' Hin. apply Hpre. by apply list_elem_of_further.
    + intros ->. by apply (Hpre s); [apply list_elem_of_here|].
Qed.

Lemma getStateData_lacks states key : lacks states key -> getStateData states key = None.
Proof.
  intros Hno. unfold getStateData. induction states as [|s states IH]; [done|]. simpl.
  rewrite bool_decide_eq_false_2.
  - apply IH. intros s' Hin. apply Hno. by apply list_elem_of_further.
  - intros ->. by apply (Hno s); [apply list_elem_of_here|].
Qed.

(** The two numbers of the configuration that the moment is computed from. *)
Lemma decode_config_moment K xfl_toString states cfg :
  decode_config K xfl_toString states = Return cfg ->
  uint_or states (KEY_MOMENT_SIZE K) readUInt16 (DEFAULT_MOMENT_SIZE K)
  = Return (momentSize cfg)
  /\ uint_or states (KEY_MOMENT_BASE_IDX K) readUInt64 (DEFAULT_MOMENT_BASE_IDX K)
     = Return (momentBaseIdx cfg).
Proof.
  unfold decode_config.
  destruct (match getStateData states (KEY_HOST_REG_FEE K) with
            | Some buf => _ | None => _ end) as [fee|]; [|done]. simpl.
  destruct (uint_or states (KEY_MOMENT_SIZE K) _ _) as [size|]; [|done]. simpl.
  destruct (uint_or states (KEY_REDEEM_WINDOW K) _ _) as [window|]; [|done]. simpl.
  destruct (uint_or states (KEY_MIN_REDEEM K) _ _) as [redeem|]; [|done]. simpl.
  destruct (uint_or states (KEY_MOMENT_BASE_IDX K) _ _) as [base|]; [|done]. simpl.
  by intros [= <-].
Qed.

(** A missing or zero argument stands for the ledger version the API
    holds. *)
Lemma getMoment_current_ledger K getHookStates xfl_toString w cfg version cur :
  cachedConfig w = Some cfg -> ledgerVersion w = Some cur ->
  version = None \/ version = Some 0 ->
  getMoment K getHookStates xfl_toString version w
  = (Return (floor_div (Double.subtract cur (momentBaseIdx cfg)) (momentSize cfg)), w).
Proof.
  intros Hc Hl Hv. unfold getMoment, bind. rewrite Hc. simpl. rewrite Hc, Hl.
  by destruct Hv as [-> | ->].
Qed.

(** Where the difference is below [2 ^ 53] in size and the moment size is a
    double other than 0, the doubles give the exact floor. *)
Lemma getMoment_exact K getHookStates xfl_toString w cfg lv :
  cachedConfig w = Some cfg ->
  lv <> 0 -> momentSize cfg <> 0 -> - 2 ^ 1024 < momentSize cfg < 2 ^ 1024 ->
  - 2 ^ 53 < lv - momentBaseIdx cfg < 2 ^ 53 ->
  getMoment K getHookStates xfl_toString (Some lv) w
  = (Return (Fin (inject_Z ((lv - momentBaseIdx cfg) / momentSize cfg))), w).
Proof.
  intros Hc Hlv Hsize Hdouble Hdiff. unfold getMoment, bind. rewrite Hc. simpl. rewrite Hc.
  destruct (Z.eqb_spec lv 0) as [|_]; [done|].
  unfold floor_div, Double.subtract.
  by rewrite DoubleFacts.of_Z_exact, DoubleFacts.floor_divide_exact_signed.
Qed.

Example moment_of_ledger_zero :
  getMoment sample_common sample_states decimal (Some 0)
    (HookWorld (Some sample_config) 1 (Some 1000))
  = (Return (Fin (inject_Z 12)), HookWorld (Some sample_config) 1 (Some 1000)).
Proof. vm_compute. reflexivity. Qed.

Example moment_of_size_zero :
  getMoment sample_common sample_states decimal (Some 1000)
    (HookWorld (Some (Config (VStr "5120") 0 12 12 100)) 1 (Some 1000))
  = (Return PosInf, HookWorld (Some (Config (VStr "5120") 0 12 12 100)) 1 (Some 1000)).
Proof. vm_compute. reflexivity. Qed.

Example moment_far_from_base :
  getMoment sample_common far_states decimal (Some 1000) (HookWorld None 0 (Some 1000))
  = (Return (Fin (inject_Z (-9223372036854774784))),
     HookWorld (Some (Config (VStr "5120") 1 12 12 (2 ^ 63))) 1 (Some 1000)).
Proof. vm_compute. reflexivity. Qed.

(** C9, as the code has it.  For a ledger index [lv] other than 0 and a
    configuration with base index [B] and size [S], where [S] is a double
    other than 0 and [lv - B] is below [2 ^ 53] in size: with the
    configuration in
    the cache, the moment is [floor ((lv - B) / S)] and the ledger is not
    read; with an empty cache the first call reads the hook states once,
    builds the configuration from them, caches it and answers from it, and
    the next call answers from the cache without a read.  The configuration
    is read off the states: the size is the 16-bit number under the size key
    and the base index the double nearest to the 64-bit number under the base
    key, each highest byte first, or the default where the states lack the
    key.  And [getConfig] reads again and replaces the cache. *)
Theorem getMoment_floor_cached (K : common) (getHookStates : nat -> outcome (list hook_state))
    (xfl_toString : Z -> outcome val) (w : hook_world) (cfg : config) (lv : Z) :
  lv <> 0 -> momentSize cfg <> 0 -> - 2 ^ 1024 < momentSize cfg < 2 ^ 1024 ->
  - 2 ^ 53 < lv - momentBaseIdx cfg < 2 ^ 53 ->
  let moment := Fin (inject_Z ((lv - momentBaseIdx cfg) / momentSize cfg)) in
  let cached := HookWorld (Some cfg) (S (reads w)) (ledgerVersion w) in
  (cachedConfig w = Some cfg ->
   getMoment K getHookStates xfl_toString (Some lv) w = (Return moment, w))
  /\ (forall states,
        cachedConfig w = None ->
        getHookStates (reads w) = Return states ->
        decode_config K xfl_toString states = Return cfg ->
        getMoment K getHookStates xfl_toString (Some lv) w = (Return moment, cached)
        /\ getMoment K getHookStates xfl_toString (Some lv) cached = (Return moment, cached)
        /\ (forall hi lo rest,
              holds states (KEY_MOMENT_SIZE K) (hi :: lo :: rest) ->
              momentSize cfg = 256 * hi + lo)
        /\ (lacks states (KEY_MOMENT_SIZE K) -> momentSize cfg = DEFAULT_MOMENT_SIZE K)
        /\ (forall b7 b6 b5 b4 b3 b2 b1 b0 rest,
              holds states (KEY_MOMENT_BASE_IDX K)
                (b7 :: b6 :: b5 :: b4 :: b3 :: b2 :: b1 :: b0 :: rest) ->
              momentBaseIdx cfg
              = Double.Number_of_BigInt
                  (b7 * 256 ^ 7 + b6 * 256 ^ 6 + b5 * 256 ^ 5 + b4 * 256 ^ 4
                   + b3 * 256 ^ 3 + b2 * 256 ^ 2 + b1 * 256 + b0))
        /\ (lacks states (KEY_MOMENT_BASE_IDX K) ->
            momentBaseIdx cfg = DEFAULT_MOMENT_BASE_IDX K))
  /\ (forall states cfg',
        getHookStates (reads w) = Return states ->
        decode_config K xfl_toString states = Return cfg' ->
        getConfig K getHookStates xfl_toString w
        = (Return cfg', HookWorld (Some cfg') (S (reads w)) (ledgerVersion w))).
Proof.
  intros Hlv HS Hdouble Hdiff. simpl.
  assert (Hfetch : forall states cfg',
            getHookStates (reads w) = Return states ->
            decode_config K xfl_toString states = Return cfg' ->
            getConfig K getHookStates xfl_toString w
            = (Return cfg', HookWorld (Some cfg') (S (reads w)) (ledgerVersion w))).
  { intros states cfg' Hs Hd. unfold getConfig. rewrite Hs. simpl. by rewrite Hd. }
  split; [|split].
  - intros Hc. by apply getMoment_exact.
  - intros states Hc Hs Hd. split; [|split].
    + unfold getMoment at 1. unfold bind at 1. rewrite Hc, (Hfetch states cfg Hs Hd).
      pose proof (getMoment_exact K getHookStates xfl_toString
                    (HookWorld (Some cfg) (S (reads w)) (ledgerVersion w)) cfg lv
                    eq_refl Hlv HS Hdouble Hdiff) as Hnext.
      unfold getMoment, bind in Hnext. simpl in Hnext. exact Hnext.
    + by apply getMoment_exact.
    + destruct (decode_config_moment K xfl_toString states cfg Hd) as [Hsize Hbase].
      unfold uint_or in Hsize, Hbase. repeat split.
      * intros hi lo rest Hh. rewrite (getStateData_holds _ _ _ Hh) in Hsize.
        injection Hsize as <-. unfold big_endian. simpl. lia.
      * intros Hl. rewrite (getStateData_lacks _ _ Hl) in Hsize. by injection Hsize.
      * intros b7 b6 b5 b4 b3 b2 b1 b0 rest Hh.
        rewrite (getStateData_holds _ _ _ Hh) in Hbase. injection Hbase as <-.
        f_equal. unfold big_endian. simpl. lia.
      * intros Hl. rewrite (getStateData_lacks _ _ Hl) in Hbase. by injection Hbase.
  - exact Hfetch.
Qed.

Lemma getMoment_floor_witness :
  getMoment sample_common sample_states decimal (Some 1000) (HookWorld None 0 (Some 1000))
  = (Return (Fin (inject_Z 12)), HookWorld (Some sample_config) 1 (Some 1000)).
Proof.
  refine (proj1 (proj1 (proj2 (getMoment_floor_cached sample_common sample_states decimal
                                 (HookWorld None 0 (Some 1000)) sample_config 1000 _ _ _ _))
                   _ eq_refl eq_refl eq_refl)).
  - discriminate.
  - discriminate.
  - split; reflexivity.
  - split; reflexivity.
Defined.

(** C9 as it was claimed, for every ledger index and every configuration,
    does not hold: the code computes in doubles, and with the base index
    [2 ^ 63] and the size 1 in the cache the moment of ledger 1000 is not
    [1000 - 2 ^ 63] but the double nearest to it. *)
Theorem moment_rounds_far_from_base :
  ~ (forall (K : common) (getHookStates : nat -> outcome (list hook_state))
       (xfl_toString : Z -> outcome val) (w : hook_world) (cfg : config) (lv : Z),
       cachedConfig w = Some cfg ->
       getMoment K getHookStates xfl_toString (Some lv) w
       = (Return (Fin (inject_Z ((lv - momentBaseIdx cfg) / momentSize cfg))), w)).
Proof.
  intros H.
  specialize (H sample_common far_states decimal
                (HookWorld (Some (Config (VStr "5120") 1 12 12 (2 ^ 63))) 1 (Some 1000))
                (Config (VStr "5120") 1 12 12 (2 ^ 63)) 1000 eq_refl).
  vm_compute in H. discriminate H.
Qed.

End EvernodeHookFacts.

(** ** XrplApi: more on the paginated requests *)

Module PagingFacts.
Import XrplApi XrplApiTerms JSFacts XrplApiFacts.

Lemma page_limit_positive count :
  negb (count_truthy count) || count_positive count = true -> 1 <= page_limit count.
Proof.
  unfold page_limit, MAX_PAGE_LIMIT. destruct count as [z|]; simpl; [|lia].
  destruct (Z.eqb_spec z 0); simpl; [lia|]. intros H%Z.ltb_lt. lia.
Qed.

Lemma paging_loop_requests c fuel requestType :
  forall requestObj res checked resp count w r w',
  paging_loop c fuel requestType requestObj res checked resp count w = Some (r, w') ->
  exists sent,
    requests w' = requests w ++ sent
    /\ Forall (page_request_of requestObj) sent
    /\ addressSubscriptions w' = addressSubscriptions w /\ now w' = now w.
Proof.
  induction fuel as [|fuel IH]; intros requestObj res checked resp count w r w'; [done|].
  cbn [paging_loop].
  destruct (negb (count_truthy count) || count_positive count) eqn:Hguard; cbn [andb].
  2:{ intros [= <- <-]. exists []. by rewrite app_nil_r. }
  destruct (negb checked || truthy (marker_of resp)).
  2:{ intros [= <- <-]. exists []. by rewrite app_nil_r. }
  cbv zeta. set (ro := if truthy (marker_of resp) then _ else _).
  assert (Hro : page_request_of requestObj (VObj ro)).
  { exists ro, (page_limit count). split; [done|].
    pose proof (page_limit_positive count Hguard). pose proof (page_limit_capped count).
    unfold ro. destruct (truthy (marker_of resp)).
    - split; [by rewrite lookup_insert_ne, lookup_insert_eq|]. split; [lia|].
      intros k Hl Hm. by rewrite !lookup_insert_ne.
    - split; [by rewrite lookup_delete_ne, lookup_insert_eq|]. split; [lia|].
      intros k Hl Hm. by rewrite lookup_delete_ne, lookup_insert_ne. }
  assert (Hone : exists sent,
            requests (log_request (VObj ro) w) = requests w ++ sent
            /\ Forall (page_request_of requestObj) sent
            /\ addressSubscriptions (log_request (VObj ro) w) = addressSubscriptions w
            /\ now (log_request (VObj ro) w) = now w).
  { exists [VObj ro]. split; [done|]. split; [by constructor|done]. }
  unfold handleClientRequest.
  destruct (request c (now w) (VObj ro)) as [resp'|e].
  2:{ by intros [= <- <-]. }
  destruct (page_items requestType resp') as [items|e].
  2:{ by intros [= <- <-]. }
  intros H. apply IH in H as (sent & Hs & Hall & Hsub & Hnow).
  exists (VObj ro :: sent). split; [|split; [|done]].
  - rewrite Hs. simpl. by rewrite <- (assoc_L (++)).
  - constructor; [done|].
    eapply Forall_impl; [exact Hall|]. intros req (o & l & -> & Hl & Hb & Hk).
    exists o, l. split; [done|]. split; [done|]. split; [done|].
    intros k Hkl Hkm. rewrite (Hk k Hkl Hkm).
    destruct Hro as (o' & l' & [= <-] & _ & _ & Hk'). by apply Hk'.
Qed.

(** X1. Every request a paginated call sends is the caller's request with
    its [limit] set to a value between 1 and 400 and its [marker] set or
    removed: the command and every other property go out unchanged on every
    page, and the call changes neither the subscriptions nor the clock. *)
Theorem paging_requests_keep_caller_fields (c : client) (fuel : nat)
    (requestObj : gmap string val) (requestType : string) (w w' : world)
    (r : outcome (list val)) :
  requestWithPaging c fuel requestObj requestType w = Some (r, w') ->
  exists sent,
    requests w' = requests w ++ sent
    /\ (forall req, req ∈ sent ->
          exists l, opt_get req "limit" = VNum l /\ 1 <= l <= MAX_PAGE_LIMIT
            /\ forall k, k <> "limit" -> k <> "marker" ->
                 opt_get req k = default VUndef (requestObj !! k))
    /\ addressSubscriptions w' = addressSubscriptions w /\ now w' = now w.
Proof.
  intros H. apply paging_loop_requests in H as (sent & Hs & Hall & Hsub & Hnow).
  exists sent. split; [done|]. split; [|done].
  intros req Hin. rewrite Forall_forall in Hall.
  destruct (Hall req Hin) as (o & l & -> & Hl & Hb & Hk).
  exists l. simpl. rewrite Hl. split; [done|]. split; [done|].
  intros k Hkl Hkm. by rewrite (Hk k Hkl Hkm).
Qed.

Lemma paging_requests_keep_caller_fields_witness :
  exists sent,
    [VObj (<["limit" := VNum 400]> (account_lines []));
     VObj (<["marker" := VStr "m1"]> (<["limit" := VNum 400]> (account_lines [])));
     VObj (<["marker" := VStr "m2"]> (<["limit" := VNum 400]> (account_lines [])))]
    = [] ++ sent
    /\ (forall req, req ∈ sent ->
          exists l, opt_get req "limit" = VNum l /\ 1 <= l <= MAX_PAGE_LIMIT
            /\ forall k, k <> "limit" -> k <> "marker" ->
                 opt_get req k = default VUndef (account_lines [] !! k))
    /\ @nil subscription = [] /\ 0 = 0.
Proof.
  refine (paging_requests_keep_caller_fields three_pages 10 (account_lines []) "lines" fresh
            (World [] _ 0) (Return (VNum <$> seqZ 0 850)) _).
  vm_compute. reflexivity.
Defined.

Lemma paging_loop_chain c fuel requestType :
  forall requestObj res checked resp count w out w',
  paging_loop c fuel requestType requestObj res checked resp count w = Some (Return out, w') ->
  exists sent resps pages,
    requests w' = requests w ++ sent
    /\ Forall2 (fun req r => request c (now w) req = Return r) sent resps
    /\ Forall2 (fun r items => page_items requestType r = Return items) resps pages
    /\ out = res ++ concat pages
    /\ (forall req, sent !! 0%nat = Some req ->
          (checked = true -> truthy (marker_of resp) = true)
          /\ opt_get req "marker" = if truthy (marker_of resp) then marker_of resp else VUndef)
    /\ (forall i req r, sent !! S i = Some req -> resps !! i = Some r ->
          truthy (marker_of r) = true /\ opt_get req "marker" = marker_of r).
Proof.
  induction fuel as [|fuel IH]; intros requestObj res checked resp count w out w'; [done|].
  cbn [paging_loop].
  destruct (negb (count_truthy count) || count_positive count); cbn [andb].
  2:{ intros [= <- <-]. exists [], [], []. by rewrite !app_nil_r. }
  destruct (negb checked || truthy (marker_of resp)) eqn:Hgo.
  2:{ intros [= <- <-]. exists [], [], []. by rewrite !app_nil_r. }
  cbv zeta. set (ro := if truthy (marker_of resp) then _ else _).
  unfold handleClientRequest.
  destruct (request c (now w) (VObj ro)) as [resp'|e] eqn:Hreq; [|done].
  destruct (page_items requestType resp') as [items|e] eqn:Hitems; [|done].
  intros H. apply IH in H as (sent & resps & pages & Hs & Hans & Hpages & -> & Hfirst & Hnext).
  exists (VObj ro :: sent), (resp' :: resps), (items :: pages).
  split; [rewrite Hs; simpl; by rewrite <- (assoc_L (++))|].
  split; [by constructor|]. split; [by constructor|].
  split; [simpl; by rewrite <- (assoc_L (++))|]. split.
  - intros req [= <-]. split.
    + intros ->. by destruct (truthy (marker_of resp)).
    + unfold ro. simpl. destruct (truthy (marker_of resp)).
      * by rewrite lookup_insert_eq.
      * by rewrite lookup_delete_eq.
  - intros [|i] req r Hreq' Hr; simpl in Hreq', Hr.
    + injection Hr as <-. destruct (Hfirst req Hreq') as [Hm Hv].
      specialize (Hm eq_refl). by rewrite Hm in Hv.
    + by apply (Hnext i).
Qed.

(** X2. The pages of a paginated call are chained by their markers and
    returned in the order they were asked for: the first request carries no
    marker, even when the caller's request had one; each later request
    carries the marker of the answer before it; and the result is the
    concatenation of the items of the answers, page after page. *)
Theorem paging_pages_chained_in_order (c : client) (fuel : nat) (requestObj : gmap string val)
    (requestType : string) (w w' : world) (out : list val) :
  requestWithPaging c fuel requestObj requestType w = Some (Return out, w') ->
  exists sent resps pages,
    requests w' = requests w ++ sent
    /\ Forall2 (fun req r => request c (now w) req = Return r) sent resps
    /\ Forall2 (fun r items => page_items requestType r = Return items) resps pages
    /\ out = concat pages
    /\ (forall req, sent !! 0%nat = Some req -> opt_get req "marker" = VUndef)
    /\ (forall i req r, sent !! S i = Some req -> resps !! i = Some r ->
          truthy (marker_of r) = true /\ opt_get req "marker" = marker_of r).
Proof.
  intros H.
  apply paging_loop_chain in H as (sent & resps & pages & Hs & Hans & Hpages & -> & Hfirst & Hnext).
  exists sent, resps, pages. repeat (split; [done|]). split; [|done].
  intros req Hreq. by destruct (Hfirst req Hreq) as [_ ->].
Qed.

Lemma paging_pages_chained_witness :
  exists sent resps pages,
    [VObj (<["limit" := VNum 400]> (account_lines []));
     VObj (<["marker" := VStr "m1"]> (<["limit" := VNum 400]> (account_lines [])));
     VObj (<["marker" := VStr "m2"]> (<["limit" := VNum 400]> (account_lines [])))]
    = [] ++ sent
    /\ Forall2 (fun req r => request three_pages 0 req = Return r) sent resps
    /\ Forall2 (fun r items => page_items "lines" r = Return items) resps pages
    /\ VNum <$> seqZ 0 850 = concat pages
    /\ (forall req, sent !! 0%nat = Some req -> opt_get req "marker" = VUndef)
    /\ (forall i req r, sent !! S i = Some req -> resps !! i = Some r ->
          truthy (marker_of r) = true /\ opt_get req "marker" = marker_of r).
Proof.
  refine (paging_pages_chained_in_order three_pages 10
            (account_lines [("marker", VStr "m2")]) "lines" fresh
            (World [] _ 0) (VNum <$> seqZ 0 850) _).
  vm_compute. reflexivity.
Defined.

(** X3. A negative [limit] is neither absent nor positive: the call sends
    no request at all and returns the empty list. *)
Theorem paging_negative_limit_sends_nothing (c : client) (fuel : nat)
    (requestObj : gmap string val) (requestType : string) (w : world) (z : Z) :
  requestObj !! "limit" = Some (VNum z) -> z < 0 ->
  requestWithPaging c (S fuel) requestObj requestType w = Some (Return [], w).
Proof.
  intros Hl Hz. unfold requestWithPaging, requested_count. rewrite Hl.
  cbn [paging_loop count_truthy count_positive].
  destruct (Z.eqb_spec z 0) as [->|_]; [lia|].
  by destruct (Z.ltb_spec 0 z); [lia|].
Qed.

Lemma paging_negative_limit_witness :
  requestWithPaging three_pages 1 (account_lines [("limit", VNum (-5))]) "lines" fresh
  = Some (Return [], fresh).
Proof.
  apply (paging_negative_limit_sends_nothing three_pages 0 _ "lines" fresh (-5)).
  - vm_compute. reflexivity.
  - lia.
Defined.

Lemma paging_loop_failure c fuel requestType :
  forall requestObj res checked resp count w e w',
  paging_loop c fuel requestType requestObj res checked resp count w = Some (Throw e, w') ->
  exists sent last,
    requests w' = requests w ++ sent ++ [last]
    /\ (request c (now w) last = Throw e
        \/ exists answer, request c (now w) last = Return answer
                          /\ page_items requestType answer = Throw e).
Proof.
  induction fuel as [|fuel IH]; intros requestObj res checked resp count w e w'; [done|].
  cbn [paging_loop]. destruct (_ && _); [|done].
  cbv zeta. set (ro := if truthy (marker_of resp) then _ else _).
  unfold handleClientRequest.
  destruct (request c (now w) (VObj ro)) as [resp'|e'] eqn:Hreq.
  2:{ intros [= <- <-]. exists [], (VObj ro). split; [done|]. by left. }
  destruct (page_items requestType resp') as [items|e'] eqn:Hitems.
  2:{ intros [= <- <-]. exists [], (VObj ro). split; [done|]. right. by exists resp'. }
  intros H. apply IH in H as (sent & last & Hs & Hlast).
  exists (VObj ro :: sent), last. split; [|done].
  rewrite Hs. simpl. by rewrite <- (assoc_L (++)).
Qed.

(** X4. A paginated call that throws has failed on the last request it
    sent: either the client refused that request, and the call throws the
    refusal as it is, or the answer held under the requested key a value that
    cannot be spread into the result, which is a TypeError.  Nothing is sent
    after the failure, and the pages fetched before it are not returned. *)
Theorem paging_failure_is_last_request (c : client) (fuel : nat) (requestObj : gmap string val)
    (requestType : string) (w w' : world) (e : val) :
  requestWithPaging c fuel requestObj requestType w = Some (Throw e, w') ->
  exists sent last,
    requests w' = requests w ++ sent ++ [last]
    /\ (request c (now w) last = Throw e
        \/ exists answer v,
             request c (now w) last = Return answer
             /\ opt_get (opt_get answer "result") requestType = v
             /\ truthy v = true /\ (forall l, v <> VArr l) /\ (forall s, v <> VStr s)
             /\ opt_get e "name" = VStr "TypeError").
Proof.
  intros H. apply paging_loop_failure in H as (sent & last & Hs & [Hl|(answer & Hl & Hitems)]).
  - exists sent, last. split; [done|]. by left.
  - exists sent, last. split; [done|]. right.
    exists answer, (opt_get (opt_get answer "result") requestType).
    split; [done|]. split; [done|].
    unfold page_items in Hitems.
    destruct (truthy (opt_get answer "result")); [|done]. cbn [andb] in Hitems.
    destruct (truthy (opt_get (opt_get answer "result") requestType)); [|done].
    split; [done|].
    destruct (opt_get (opt_get answer "result") requestType); simpl in Hitems; try done;
      injection Hitems as <-; done.
Qed.

Lemma paging_failure_witness :
  exists sent last,
    [VObj (<["limit" := VNum 400]> (account_lines []))] = [] ++ sent ++ [last]
    /\ (request (Client (fun _ _ => Throw (VStr "notConnected")) (fun _ => Return 1)) 0 last
          = Throw (VStr "notConnected")
        \/ exists answer v,
             request (Client (fun _ _ => Throw (VStr "notConnected")) (fun _ => Return 1)) 0 last
               = Return answer
             /\ opt_get (opt_get answer "result") "lines" = v
             /\ truthy v = true /\ (forall l, v <> VArr l) /\ (forall s, v <> VStr s)
             /\ opt_get (VStr "notConnected") "name" = VStr "TypeError").
Proof.
  refine (paging_failure_is_last_request
            (Client (fun _ _ => Throw (VStr "notConnected")) (fun _ => Return 1)) 10
            (account_lines []) "lines" fresh (World [] _ 0) (VStr "notConnected") _).
  vm_compute. reflexivity.
Defined.

End PagingFacts.

(** ** XrplApi: more on the reliable submission *)

Module SubmissionFacts.
Import XrplApi JSFacts XrplApiFacts.

Section Wait.
Variable c : client.
Variable JSON_stringify : val -> string.
Variable ToString : val -> string.

Lemma poll_validated_inv txHash E sr w r :
  (poll c JSON_stringify ToString txHash E sr w).1 = SeenExit (Validated r) ->
  exists L, getLedgerIndex c (now w) = Return L /\ L <= E
    /\ found_validated (request c (now w) (getTxnInfo_request txHash VUndef)) r.
Proof.
  unfold poll. destruct (getLedgerIndex c _) as [L|]; [|done].
  destruct (Z.ltb_spec E L); [done|].
  destruct (request c _ _) as [resp|e].
  - destruct (get _ _) as [v|] eqn:Hv; [|done].
    destruct (truthy v) eqn:Ht; [|done]. intros [= <-].
    exists L. split; [done|]. split; [done|]. by exists resp, v.
  - by destruct (str_eq _ _).
Qed.

Lemma wait_core_validated_inv txHash E sr fuel : forall w r w',
  wait_core c JSON_stringify ToString fuel txHash (Some E) sr w = Some (Validated r, w') ->
  exists k L, (k < fuel)%nat
    /\ (forall j, (j < k)%nat -> pending_at c txHash E (poll_time (now w) j))
    /\ getLedgerIndex c (poll_time (now w) k) = Return L /\ L <= E
    /\ found_validated (request c (poll_time (now w) k) (getTxnInfo_request txHash VUndef)) r
    /\ now w' = poll_time (now w) k.
Proof.
  induction fuel as [|fuel IH]; intros w r w'; [done|].
  rewrite wait_core_step.
  assert (Ht : now (advance LEDGER_CLOSE_TIME w) = poll_time (now w) 0)
    by (unfold poll_time; simpl; lia).
  pose proof (poll_now c JSON_stringify ToString txHash E sr (advance LEDGER_CLOSE_TIME w)) as Hn.
  pose proof (poll_pending_iff c JSON_stringify ToString txHash E sr
                (advance LEDGER_CLOSE_TIME w)) as Hpe.
  pose proof (poll_validated_inv txHash E sr (advance LEDGER_CLOSE_TIME w) r) as Hva.
  destruct (poll c JSON_stringify ToString _ _ _ _) as [[|x] w1]; simpl in *.
  - intros H. apply IH in H as (k & L & Hk & Hp & HL & HE & Hf & Hw').
    rewrite Hn in Hp, HL, Hf, Hw'. simpl in Hp, HL, Hf, Hw'.
    rewrite poll_time_shift in HL, Hf, Hw'.
    exists (S k), L. split; [lia|]. split; [|done].
    intros [|j] Hj.
    + rewrite <- Ht. by apply Hpe.
    + rewrite <- poll_time_shift. apply Hp. lia.
  - intros [= -> ->]. destruct (Hva eq_refl) as (L & HL & HE & Hf).
    exists O, L. rewrite <- Ht. split; [lia|]. split; [intros; lia|]. done.
Qed.

Lemma poll_requests txHash E sr w :
  let w' := (poll c JSON_stringify ToString txHash E sr w).2 in
  addressSubscriptions w' = addressSubscriptions w
  /\ (requests w' = requests w \/ requests w' = requests w ++ [getTxnInfo_request txHash VUndef])
  /\ ((poll c JSON_stringify ToString txHash E sr w).1 = SeenPending ->
      requests w' = requests w ++ [getTxnInfo_request txHash VUndef]).
Proof.
  cbv zeta. unfold poll. destruct (getLedgerIndex c _); [|simpl; naive_solver].
  destruct (_ <? _); [simpl; naive_solver|].
  destruct (request c _ _) as [resp|e].
  - destruct (get _ _) as [v|]; [|simpl; naive_solver].
    destruct (truthy v); simpl; naive_solver.
  - destruct (str_eq _ _); simpl; naive_solver.
Qed.

Lemma wait_core_trace txHash E sr fuel : forall w x w',
  wait_core c JSON_stringify ToString fuel txHash (Some E) sr w = Some (x, w') ->
  exists polls queries : nat,
    (1 <= polls <= fuel)%nat
    /\ now w' = now w + Z.of_nat polls * LEDGER_CLOSE_TIME
    /\ requests w' = requests w ++ replicate queries (getTxnInfo_request txHash VUndef)
    /\ (queries = polls \/ S queries = polls)
    /\ addressSubscriptions w' = addressSubscriptions w.
Proof.
  induction fuel as [|fuel IH]; intros w x w'; [done|].
  rewrite wait_core_step.
  pose proof (poll_now c JSON_stringify ToString txHash E sr (advance LEDGER_CLOSE_TIME w)) as Hn.
  pose proof (poll_requests txHash E sr (advance LEDGER_CLOSE_TIME w)) as (Hsub & Hreq & Hpend).
  destruct (poll c JSON_stringify ToString _ _ _ _) as [[|y] w1]; simpl in *.
  - intros H. apply IH in H as (polls & queries & Hp & Hnow & Hrq & Hq & Hs).
    exists (S polls), (S queries). split; [lia|]. split; [lia|].
    split; [|split; [lia|congruence]].
    rewrite Hrq, (Hpend eq_refl). by rewrite <- (assoc_L (++)).
  - intros [= -> ->]. destruct Hreq as [Hreq|Hreq].
    + exists 1%nat, 0%nat. split; [lia|]. split; [lia|]. rewrite Hreq, app_nil_r. auto.
    + exists 1%nat, 1%nat. split; [lia|]. split; [lia|]. rewrite Hreq. auto.
Qed.

End Wait.

(** X5. What the finality wait returns it has seen validated before the
    expiry: a wait that returns [r] was given a [LastLedgerSequence] [E], and
    at some poll the ledger index was still at most [E] and the transaction
    query answered [r] with a true [validated] flag, after polls that all were
    pending; the wait ends at the very time of that poll. *)
Theorem wait_confirms_within_expiry (c : client) (JSON_stringify ToString : val -> string)
    (fuel : nat) (txHash submissionResult : val) (lastLedger : option Z) (w w' : world)
    (r : val) :
  waitForFinalTransactionOutcome c JSON_stringify ToString fuel txHash lastLedger
    submissionResult w = Some (Return r, w') ->
  exists E k L,
    lastLedger = Some E /\ (k < fuel)%nat
    /\ (forall j, (j < k)%nat -> pending_at c txHash E (poll_time (now w) j))
    /\ getLedgerIndex c (poll_time (now w) k) = Return L /\ L <= E
    /\ found_validated (request c (poll_time (now w) k) (getTxnInfo_request txHash VUndef)) r
    /\ now w' = poll_time (now w) k.
Proof.
  unfold waitForFinalTransactionOutcome.
  destruct (wait_core _ _ _ _ _ _ _ _) as [[x w1]|] eqn:Hw; [|done].
  destruct x as [r'| |]; simpl; intros [= -> ->]; [].
  destruct lastLedger as [E|].
  - apply wait_core_validated_inv in Hw as (k & L & H). by exists E, k, L.
  - by destruct fuel.
Qed.

Lemma wait_confirms_witness :
  exists E k L,
    Some 102 = Some E /\ (k < 10)%nat
    /\ (forall j, (j < k)%nat ->
          pending_at (simulated_ledger (Some 2000)) (VStr "ABC") E (poll_time 0 j))
    /\ getLedgerIndex (simulated_ledger (Some 2000)) (poll_time 0 k) = Return L /\ L <= E
    /\ found_validated
         (request (simulated_ledger (Some 2000)) (poll_time 0 k)
            (getTxnInfo_request (VStr "ABC") VUndef)) validated_payment
    /\ 2000 = poll_time 0 k.
Proof.
  refine (wait_confirms_within_expiry (simulated_ledger (Some 2000)) no_text no_text 10
            (VStr "ABC") provisional (Some 102) (World [] [] 0) (World [] _ 2000)
            validated_payment _).
  vm_compute. reflexivity.
Defined.

(** The query of [getTxnInfo] without options, written out. *)
Lemma getTxnInfo_request_plain (c : client) (txHash : val) :
  getTxnInfo_request txHash VUndef
  = obj [("command", VStr "tx"); ("transaction", txHash); ("binary", VBool false)].
Proof. unfold getTxnInfo_request, obj_merge. simpl. by rewrite (left_id_L ∅ (∪)). Qed.

(** X6. While it waits, the finality wait sleeps one ledger close time before
    each poll, and every request it hands to the client is the same query
    [{ command: 'tx', transaction: txHash, binary: false }] for the hash it
    was given, at most one per poll: when it ends after [polls] polls,
    [polls] close times have passed and [polls] or [polls - 1] of these
    queries have been handed over (the last poll hands over none when it
    finds the ledger past the expiry or cannot read the ledger index).  The
    subscriptions are left alone.  The reads of the ledger index, one per
    poll, do not go through the requests and are not counted here. *)
Theorem wait_polls_once_per_close_time (c : client) (JSON_stringify ToString : val -> string)
    (fuel : nat) (txHash submissionResult : val) (E : Z) (w w' : world) (r : outcome val) :
  waitForFinalTransactionOutcome c JSON_stringify ToString fuel txHash (Some E)
    submissionResult w = Some (r, w') ->
  exists polls queries : nat,
    (1 <= polls <= fuel)%nat
    /\ now w' = now w + Z.of_nat polls * 1000
    /\ requests w'
       = requests w
         ++ replicate queries
              (obj [("command", VStr "tx"); ("transaction", txHash); ("binary", VBool false)])
    /\ (queries = polls \/ S queries = polls)
    /\ addressSubscriptions w' = addressSubscriptions w.
Proof.
  unfold waitForFinalTransactionOutcome.
  destruct (wait_core _ _ _ _ _ _ _ _) as [[x w1]|] eqn:Hw; [|done].
  intros [= _ <-]. rewrite <- (getTxnInfo_request_plain c). by eapply wait_core_trace.
Qed.

Lemma wait_polls_witness :
  let query := obj [("command", VStr "tx"); ("transaction", VStr "ABC");
                    ("binary", VBool false)] in
  exists polls queries : nat,
    (1 <= polls <= 10)%nat
    /\ 3000 = 0 + Z.of_nat polls * 1000
    /\ [query; query] = [] ++ replicate queries query
    /\ (queries = polls \/ S queries = polls)
    /\ @nil subscription = [].
Proof.
  intros query.
  refine (wait_polls_once_per_close_time (simulated_ledger None) no_text no_text 10
            (VStr "ABC") provisional 102 (World [] [] 0) (World [] [query; query] 3000)
            (Throw (expired_error 103 102 provisional)) _).
  vm_compute. reflexivity.
Defined.

(** *** The prepared response *)

Section Response.
Variable c : client.
Variable JSON_stringify : val -> string.
Variable ToString : val -> string.
Variable hookExecution : val -> outcome val.

Lemma answer_fields (result code execs : val) :
  let answer :=
    VObj (obj_merge
            (spread (obj [("id", opt_get result "hash"); ("code", code); ("details", result)]))
            (if truthy execs then {["hookExecutionResult" := execs]} else ∅)) in
  opt_get answer "id" = opt_get result "hash"
  /\ opt_get answer "code" = code
  /\ opt_get answer "details" = result
  /\ opt_get answer "hookExecutionResult" = (if truthy execs then execs else VUndef).
Proof.
  unfold obj_merge. simpl. destruct (truthy execs).
  - rewrite !lookup_union_r by (by rewrite lookup_singleton_ne).
    rewrite (lookup_union_Some_l _ _ _ execs) by (by rewrite lookup_singleton_eq).
    by rewrite !lookup_insert_eq, !lookup_insert_ne, !lookup_insert_eq by done.
  - rewrite !(left_id_L ∅ (∪)).
    by rewrite !lookup_insert_eq, !lookup_insert_ne, !lookup_insert_eq by done.
Qed.

(** What [#prepareResponse] ends in once the wait has returned [result]. *)
Lemma prepareResponse_settled fuel tx sr w o w' :
  prepareResponse c JSON_stringify ToString hookExecution fuel tx sr w = Some (o, w') ->
  (exists e, o = Throw e /\ submission_hash sr = Throw e)
  \/ exists hash, submission_hash sr = Return hash /\
       ((exists e, o = Throw e /\
           waitForFinalTransactionOutcome c JSON_stringify ToString fuel hash
             (LastLedgerSequence tx) sr w = Some (Throw e, w'))
        \/ exists result,
             waitForFinalTransactionOutcome c JSON_stringify ToString fuel hash
               (LastLedgerSequence tx) sr w = Some (Return result, w')
             /\ ((exists e, o = Throw e /\ hookExecRes hookExecution result = Throw e)
                 \/ exists execs answer,
                      hookExecRes hookExecution result = Return execs
                      /\ opt_get answer "id" = opt_get result "hash"
                      /\ opt_get answer "code"
                         = opt_get (opt_get result "meta") "TransactionResult"
                      /\ opt_get answer "details" = result
                      /\ opt_get answer "hookExecutionResult"
                         = (if truthy execs then execs else VUndef)
                      /\ o = (if str_eq (opt_get answer "code") "tesSUCCESS"
                              then Return answer else Throw answer))).
Proof.
  unfold prepareResponse. intros H.
  destruct (submission_hash sr) as [hash|e] eqn:Hh.
  2:{ injection H as <- <-. left. by exists e. }
  right. exists hash. split; [done|].
  destruct (waitForFinalTransactionOutcome _ _ _ _ _ _ _ _) as [[[result|e] w1]|]; [| |done].
  2:{ injection H as <- <-. left. by exists e. }
  destruct (hookExecRes hookExecution result) as [execs|e] eqn:Hx.
  2:{ injection H as <- <-. right. exists result. split; [done|]. left. by exists e. }
  destruct (answer_fields result (opt_get (opt_get result "meta") "TransactionResult") execs)
    as (Hid & Hcode & Hdet & Hex).
  assert (w1 = w') as ->.
  { by destruct (str_eq _ _); injection H as _ <-. }
  right. exists result. split; [done|]. right. eexists execs, _.
  split; [done|]. split; [exact Hid|]. split; [exact Hcode|]. split; [exact Hdet|].
  split; [exact Hex|]. rewrite Hcode.
  by destruct (str_eq _ _); injection H as <-.
Qed.

End Response.

(** X7. A reliable submission, single-signed or multi-signed, returns only
    transactions that the ledger validated with the result code
    [tesSUCCESS]: what it returns holds that code, the validated transaction
    under [details] and its hash under [id].  A validated transaction with
    another result code is thrown, not returned. *)
Theorem submission_returns_only_success (c : client) (JSON_stringify ToString : val -> string)
    (hookExecution : val -> outcome val) (fuel : nat) (tx : submitted_transaction)
    (tx_blob : val) (w w' : world) (v : val) :
  submitAndWait c JSON_stringify ToString hookExecution fuel tx tx_blob w = Some (Return v, w')
  \/ submitMultisignedAndWait c JSON_stringify ToString hookExecution fuel tx w
     = Some (Return v, w') ->
  exists details flag,
    opt_get v "code" = VStr "tesSUCCESS"
    /\ opt_get v "details" = details
    /\ opt_get (opt_get details "meta") "TransactionResult" = VStr "tesSUCCESS"
    /\ get details "validated" = Return flag /\ truthy flag = true
    /\ opt_get v "id" = opt_get details "hash".
Proof.
  assert (Hprep : forall tx0 sr w0,
            prepareResponse c JSON_stringify ToString hookExecution fuel tx0 sr w0
              = Some (Return v, w') ->
            exists details flag,
              opt_get v "code" = VStr "tesSUCCESS"
              /\ opt_get v "details" = details
              /\ opt_get (opt_get details "meta") "TransactionResult" = VStr "tesSUCCESS"
              /\ get details "validated" = Return flag /\ truthy flag = true
              /\ opt_get v "id" = opt_get details "hash").
  { intros tx0 sr w0 H.
    apply prepareResponse_settled in H as [(e & [=] & _)|(hash & Hh & [(e & [=] & _)|H])].
    destruct H as (result & Hwait & [(e & [=] & _)|(execs & answer & _ & Hid & Hcode & Hdet & _ & Ho)]).
    destruct (str_eq (opt_get answer "code") "tesSUCCESS") eqn:Hs; [|done].
    injection Ho as ->. apply str_eq_true in Hs.
    apply wait_confirms_within_expiry in Hwait
      as (E & k & L & _ & _ & _ & _ & _ & (resp & flag & _ & _ & Hflag & Ht) & _).
    exists result, flag. rewrite <- Hcode. done. }
  intros [H|H].
  - unfold submitAndWait in H.
    destruct (handleClientRequest c _ w) as [[sr|e] w1]; [|done]. by eapply Hprep.
  - unfold submitMultisignedAndWait in H.
    destruct (handleClientRequest c _ w) as [[sr|e] w1]; [|done]. by eapply Hprep.
Qed.

Lemma submission_returns_only_success_witness :
  exists details flag,
    opt_get (obj [("id", VStr "ABC"); ("code", VStr "tesSUCCESS");
                  ("details", validated_payment)]) "code" = VStr "tesSUCCESS"
    /\ opt_get (obj [("id", VStr "ABC"); ("code", VStr "tesSUCCESS");
                     ("details", validated_payment)]) "details" = details
    /\ opt_get (opt_get details "meta") "TransactionResult" = VStr "tesSUCCESS"
    /\ get details "validated" = Return flag /\ truthy flag = true
    /\ opt_get (obj [("id", VStr "ABC"); ("code", VStr "tesSUCCESS");
                     ("details", validated_payment)]) "id" = opt_get details "hash".
Proof.
  refine (submission_returns_only_success (simulated_ledger (Some 2000)) no_text no_text Return
            10 (Tx (Some 105) (tx_fields unsigned_payment)) (VStr "1200") fresh
            (World [] _ 2000) _ (or_introl _)).
  vm_compute. reflexivity.
Defined.

End SubmissionFacts.

(** ** XrplApi: more on subscriptions and the transaction listener *)

Module ListenerFacts.
Import XrplApi JSFacts XrplApiFacts.

Lemma find_offer_some id offers o :
  find_offer id offers = Return (Some o) ->
  o ∈ offers /\ truthy o = true
  /\ exists index amount,
       get o "index" = Return index /\ strict_eq index id = true
       /\ get o "Amount" = Return amount /\ truthy amount = true.
Proof.
  induction offers as [|x rest IH]; [done|]. simpl.
  destruct (get x "index") as [index|] eqn:Hi; [|done]. simpl.
  assert (Hrest : find_offer id rest = Return (Some o) ->
            o ∈ x :: rest /\ truthy o = true
            /\ exists index amount,
                 get o "index" = Return index /\ strict_eq index id = true
                 /\ get o "Amount" = Return amount /\ truthy amount = true).
  { intros H. destruct (IH H) as (Hin & Ho). split; [by apply list_elem_of_further|done]. }
  destruct (strict_eq index id) eqn:He; [|done].
  destruct (get x "Amount") as [amount|] eqn:Ha; [|done]. simpl.
  destruct (truthy amount) eqn:Ht; [|done].
  intros [= <-]. split; [by apply list_elem_of_here|]. split.
  - destruct x; try done; simpl in Ha; injection Ha as <-; done.
  - by exists index, amount.
Qed.

Lemma resolve_buyer_found getURITokens data tr s post offers offer : forall pre,
  (forall s', s' ∈ pre -> exists offers',
     getURITokens (address s') (ledger_index data - 1) = Return offers'
     /\ find_offer (default VUndef (tr !! "URITokenID")) offers' = Return None) ->
  getURITokens (address s) (ledger_index data - 1) = Return offers ->
  find_offer (default VUndef (tr !! "URITokenID")) offers = Return (Some offer) ->
  resolve_buyer getURITokens (pre ++ s :: post) data tr
  = Return (<["URITokenSellOffer" := offer]> (<["Destination" := VStr (address s)]> tr)).
Proof.
  intros pre Hpre Hs Hfound. induction pre as [|s' pre IH]; simpl.
  - rewrite Hs. simpl. rewrite Hfound. simpl.
    by destruct (find_offer_some _ _ _ Hfound) as (_ & -> & _).
  - destruct (Hpre s') as (offers' & -> & Hnone); [by apply list_elem_of_here|].
    simpl. rewrite Hnone. simpl. apply IH.
    intros s'' Hin. apply Hpre. by apply list_elem_of_further.
Qed.

Lemma event_tx_lookup data tr k v :
  tr !! k = Some v -> k <> "DeliveredAmount" -> event_tx data tr !! k = Some v.
Proof.
  intros Hk Hne. unfold event_tx, obj_merge.
  destruct (truthy _); [rewrite lookup_insert_ne by done|];
    by apply lookup_union_Some_l.
Qed.

(** X8. A validated [URITokenBuy] names no destination.  The listener gives
    it one: it walks the subscriptions in order, asks for the tokens each
    subscribed address held one ledger before the transaction, and stops at
    the first address that had the bought token on offer.  The transaction is
    then delivered, under the event name [uritokenbuy], to every subscription
    of that address and to no other, with the address as [Destination] and
    the offer found as [URITokenSellOffer]. *)
Theorem token_buy_routed_to_seller
    (getURITokens : string -> Z -> outcome (list val))
    (deserializeMemos deserializeHookParams : val -> outcome val)
    (pre post : list subscription) (s : subscription) (data : tx_message)
    (offers : list val) (offer : val) :
  truthy (validated data) = true ->
  transaction data !! "TransactionType" = Some (VStr "URITokenBuy") ->
  (forall s', s' ∈ pre -> exists offers',
     getURITokens (address s') (ledger_index data - 1) = Return offers'
     /\ find_offer (default VUndef (transaction data !! "URITokenID")) offers' = Return None) ->
  getURITokens (address s) (ledger_index data - 1) = Return offers ->
  find_offer (default VUndef (transaction data !! "URITokenID")) offers = Return (Some offer) ->
  let subs := pre ++ s :: post in
  let tr := <["URITokenSellOffer" := offer]>
              (<["Destination" := VStr (address s)]> (transaction data)) in
  let called := List.filter (fun s' => bool_decide (address s' = address s)) subs in
  routed getURITokens subs data = Return tr
  /\ s ∈ called
  /\ onTransaction getURITokens deserializeMemos deserializeHookParams subs data
     = if str_eq (engine_result data) "tesSUCCESS"
       then obind (decoded deserializeMemos deserializeHookParams (event_tx data tr))
              (fun tx => Return (map (fun s' => Call (handler s') "uritokenbuy" (VObj tx) VUndef)
                                   called))
       else Return (map (fun s' => Call (handler s') "uritokenbuy" VNull
                                     (engine_result_message data)) called).
Proof.
  intros Hv Hty Hpre Hs Hfound subs tr called.
  assert (Hrouted : routed getURITokens subs data = Return tr).
  { unfold routed. rewrite Hty.
    change (default VUndef (Some (VStr "URITokenBuy"))) with (VStr "URITokenBuy").
    rewrite str_eq_refl.
    by apply resolve_buyer_found with (offers := offers). }
  assert (Hmatches : matches subs tr = called).
  { unfold matches, called. apply List.filter_ext. intros s'. unfold tr.
    rewrite lookup_insert_ne, lookup_insert_eq by done. simpl.
    apply eq_true_iff_eq. rewrite !bool_decide_eq_true. split; congruence. }
  assert (Hin : s ∈ called).
  { unfold called, subs. apply list_elem_of_In, List.filter_In. split.
    - apply in_or_app. right. by left.
    - by apply bool_decide_eq_true. }
  split; [done|]. split; [done|].
  unfold onTransaction. rewrite Hv, Hrouted. simpl. rewrite Hmatches.
  destruct called as [|s0 called'] eqn:Hc; [by apply not_elem_of_nil in Hin|].
  change (0 <? length (s0 :: called'))%nat with true. cbv iota.
  assert (Hname : event_name (event_tx data tr) = Return "uritokenbuy").
  { unfold event_name. rewrite (event_tx_lookup data tr "TransactionType" (VStr "URITokenBuy")).
    - done.
    - unfold tr. by rewrite !lookup_insert_ne.
    - done. }
  rewrite Hname. simpl. by destruct (str_eq _ _).
Qed.

Lemma token_buy_routed_witness :
  let data := TxMessage (VBool true)
                (spread (obj [("TransactionType", VStr "URITokenBuy");
                              ("Account", VStr "rTenant"); ("URITokenID", VStr "A1")]))
                (VStr "E3F1") 120 VUndef (VStr "tecINSUFFICIENT_FUNDS") (VStr "No funds.") in
  let offer := obj [("index", VStr "A1"); ("Amount", VStr "5")] in
  let held (a : string) (i : Z) :=
    if bool_decide (a = "rHost") && (i =? 119) then Return [offer] else Return [] in
  onTransaction held Return Return [Sub "rOther" 8%nat; Sub "rHost" 7%nat] data
  = Return [Call 7%nat "uritokenbuy" VNull (VStr "No funds.")].
Proof.
  intros data offer held.
  refine (proj2 (proj2 (token_buy_routed_to_seller held Return Return [Sub "rOther" 8%nat] []
                          (Sub "rHost" 7%nat) data [offer] offer
                          eq_refl eq_refl _ eq_refl eq_refl))).
  intros s' Hin. apply list_elem_of_singleton in Hin as ->. by exists [].
Defined.

(** X9. Both subscription calls change the local list before they talk to
    the network, so a request that fails leaves the list changed: a failed
    [subscribeToAddress] throws the failure and keeps the new entry, and a
    failed [unsubscribeFromAddress] throws it with the entries removed. *)
Theorem subscription_list_changed_before_request (c : client) (a : string) (h : handler_ref)
    (w : world) (e : val) :
  let subscribe := obj [("command", VStr "subscribe"); ("accounts", VArr [VStr a])] in
  let unsubscribe := obj [("command", VStr "unsubscribe"); ("accounts", VArr [VStr a])] in
  (request c (now w) subscribe = Throw e ->
   subscribeToAddress c a h w
   = (Throw e, World (addressSubscriptions w ++ [Sub a h]) (requests w ++ [subscribe]) (now w)))
  /\ (request c (now w) unsubscribe = Throw e ->
      unsubscribeFromAddress c a h w
      = (Throw e,
         World (List.filter (fun s => negb (bool_decide (s = Sub a h))) (addressSubscriptions w))
           (requests w ++ [unsubscribe]) (now w))).
Proof.
  simpl. split; intros He.
  - unfold subscribeToAddress, bind, modify, handleClientRequest. simpl. by rewrite He.
  - unfold unsubscribeFromAddress. rewrite unsubscribe_loop_filter.
    unfold bind, handleClientRequest. simpl. rewrite He. do 2 f_equal.
    unfold set_subscriptions, log_request. simpl. f_equal.
    apply List.filter_ext. intros s. f_equal.
    apply eq_true_iff_eq. by rewrite same_pair_true, bool_decide_eq_true.
Qed.

End ListenerFacts.

(** ** XrplApi: single requests *)

Module LedgerQueriesFacts.
Import XrplApi LedgerQueries JSFacts.

(** X10. [isAccountExists] sends one [account_info] request.  It answers
    true when the request succeeds and false when it fails with
    [data.error] equal to [actNotFound]; a failure with another error code is
    thrown on as it is; and a failure that has no [data] at all, such as a
    connection error, does not come through: reading [e.data.error] fails,
    and what the caller sees is a TypeError. *)
Theorem account_exists_answers (c : client) (address : val) (w : world) :
  let req := account_info_request address in
  let w' := log_request req w in
  (forall resp, request c (now w) req = Return resp ->
     isAccountExists c address w = (Return true, w'))
  /\ (forall e, request c (now w) req = Throw e ->
        opt_get (opt_get e "data") "error" = VStr "actNotFound" ->
        isAccountExists c address w = (Return false, w'))
  /\ (forall e data code, request c (now w) req = Throw e ->
        get e "data" = Return data -> get data "error" = Return code ->
        code <> VStr "actNotFound" ->
        isAccountExists c address w = (Throw e, w'))
  /\ (forall e, request c (now w) req = Throw e ->
        nullish e = true \/ nullish (opt_get e "data") = true ->
        exists type_error,
          isAccountExists c address w = (Throw type_error, w')
          /\ opt_get type_error "name" = VStr "TypeError").
Proof.
  simpl. unfold isAccountExists, handleClientRequest.
  split; [|split; [|split]].
  - by intros resp ->.
  - intros e -> He.
    destruct e as [| | | | |o|]; try done. simpl in *.
    destruct (o !! "data") as [[| | | | |d|]|]; try done. simpl in *. by rewrite He.
  - intros e data code -> Hd Hc Hne. rewrite Hd. simpl. rewrite Hc.
    by rewrite (str_eq_false _ _ Hne).
  - intros e -> [He|He].
    + destruct e; try done; by eexists.
    + destruct e as [| | | | |o|]; try done; try by eexists.
      simpl in *. destruct (o !! "data") as [[]|]; try done; by eexists.
Qed.

(** X11. [getLedgerEntry] sends one [ledger_entry] request for the validated
    ledger, with the caller's options laid over it.  It returns [result.node]
    of the answer; a failure with [data.error] equal to [entryNotFound]
    becomes the answer [null]; and every other failure, one without [data]
    included, is thrown on unchanged.  On top of it, [isTransferee] asks for
    the transferee entry of the host: it answers true when the entry found
    holds non-empty [HookStateData], false when it does not or when there is
    no entry, and throws what the request threw otherwise. *)
Theorem ledger_entry_not_found_is_null (c : client) (index options : val) (w : world)
    (generateTransfereeAddrStateKey : val -> outcome val)
    (getHookStateIndex : val -> val -> outcome val) (governorAddress hostAddress : val) :
  let entry := obj [("command", VStr "ledger_entry"); ("index", index);
                    ("ledger_index", VStr "validated")] in
  let req := VObj (obj_merge (spread entry) (spread options)) in
  (forall e, request c (now w) req = Throw e ->
     opt_get (opt_get e "data") "error" <> VStr "entryNotFound" ->
     getLedgerEntry c index options w = (Throw e, log_request req w))
  /\ (forall e, request c (now w) req = Throw e ->
        opt_get (opt_get e "data") "error" = VStr "entryNotFound" ->
        getLedgerEntry c index options w = (Return VNull, log_request req w))
  /\ (forall resp, request c (now w) req = Return resp ->
        getLedgerEntry c index options w
        = (Return (opt_get (opt_get resp "result") "node"), log_request req w))
  /\ (forall key, generateTransfereeAddrStateKey hostAddress = Return key ->
        getHookStateIndex governorAddress key = Return index ->
        let transferee := isTransferee c generateTransfereeAddrStateKey getHookStateIndex
                            governorAddress hostAddress w in
        (forall resp, request c (now w) entry = Return resp ->
           transferee
           = (Return (truthy (opt_get (opt_get (opt_get resp "result") "node")
                                "HookStateData")),
              log_request entry w))
        /\ (forall e, request c (now w) entry = Throw e ->
              opt_get (opt_get e "data") "error" = VStr "entryNotFound" ->
              transferee = (Return false, log_request entry w))
        /\ (forall e, request c (now w) entry = Throw e ->
              opt_get (opt_get e "data") "error" <> VStr "entryNotFound" ->
              transferee = (Throw e, log_request entry w))).
Proof.
  intros entry req.
  assert (Hreq : ledger_entry_request index options = req) by reflexivity.
  assert (Hentry : ledger_entry_request index VUndef = entry).
  { unfold ledger_entry_request, obj_merge. simpl. by rewrite (left_id_L ∅ (∪)). }
  unfold getLedgerEntry, handleClientRequest. rewrite Hreq.
  split; [|split; [|split]].
  - intros e -> He. by rewrite (str_eq_false _ _ He).
  - intros e -> ->. by rewrite str_eq_refl.
  - by intros resp ->.
  - intros key Hk Hi. unfold isTransferee. rewrite Hk. simpl. rewrite Hi.
    unfold bind, ret, getLedgerEntry, handleClientRequest. rewrite Hentry.
    split; [|split].
    + intros resp ->. do 2 f_equal.
      destruct (opt_get (opt_get resp "result") "node") as [| |[]|z|t|o|l]; try done.
      * simpl. by destruct (z =? 0).
      * simpl. by destruct (bool_decide (t = "")).
    + intros e -> ->. by rewrite str_eq_refl.
    + intros e -> He. by rewrite (str_eq_false _ _ He).
Qed.

Example account_exists_offline :
  isAccountExists offline (VStr "rHost") fresh
  = (Throw (TypeError "Cannot read properties of null or undefined (reading 'error')"),
     World [] [account_info_request (VStr "rHost")] 0).
Proof. reflexivity. Qed.

Example transferee_unknown :
  isTransferee empty_ledger Return (fun _ key => Return key) (VStr "rGovernor") (VStr "rHost") fresh
  = (Return false, World [] [ledger_entry_request (VStr "rHost") VUndef] 0).
Proof. vm_compute. reflexivity. Qed.

End LedgerQueriesFacts.

(** ** XrplApi: construction and reconnection *)

Module ConnectionFacts.
Import Connection.

(** X12. An [XrplApi] object that the constructor returns has a server to
    connect to: a primary server with a non-empty address or at least one
    fallback server; otherwise the constructor throws.  The address ["-"]
    switches the primary server off, default included, so that such an object
    lives on fallback servers alone; and a fallback list given in the options,
    be it empty, is taken instead of the default list. *)
Theorem constructed_api_has_a_server (D : defaults) (rippledServer : option string)
    (o : options) :
  (forall a, new_XrplApi D rippledServer o = Return a ->
     no_server (primaryServer a) = false \/ fallbackServers a <> [])
  /\ (forall e, new_XrplApi D rippledServer o = Throw e -> e = VStr SERVER_REQUIRED)
  /\ (forall a, rippledServer = Some "-" -> new_XrplApi D rippledServer o = Return a ->
        primaryServer a = None /\ fallbackServers a <> [])
  /\ (forall a l, fallbackRippledServers o = Some l ->
        new_XrplApi D rippledServer o = Return a -> fallbackServers a = l)
  /\ (rippledServer = Some "-" -> fallbackRippledServers o = Some [] ->
      new_XrplApi D rippledServer o = Throw (VStr SERVER_REQUIRED)).
Proof.
  unfold new_XrplApi.
  set (primary := if bool_decide (rippledServer = Some "-") then _ else _).
  set (fallback := match fallbackRippledServers o with Some l => l | None => _ end).
  assert (Hdash : rippledServer = Some "-" -> primary = None).
  { intros ->. unfold primary. by rewrite bool_decide_true. }
  split; [|split; [|split; [|split]]].
  - intros a. destruct (no_server primary) eqn:Hp; simpl.
    + destruct fallback as [|s l] eqn:Hf; simpl; [done|]. intros [= <-]. by right.
    + intros [= <-]. by left.
  - intros e. by destruct (no_server primary && _); [intros [= <-]|].
  - intros a Hr. rewrite (Hdash Hr). simpl.
    destruct fallback as [|s l] eqn:Hf; simpl; [done|]. by intros [= <-].
  - intros a l Hl. unfold fallback. rewrite Hl.
    by destruct (no_server primary && _); [|intros [= <-]].
  - intros Hr Hl. rewrite (Hdash Hr). unfold fallback. by rewrite Hl.
Qed.

(** *** The primary server *)

Section Reconnect.
Variable connect : string -> nat -> flags -> outcome unit * flags.
Variable asleep : Z -> flags -> flags.

Lemma connections_app t1 t2 : connections (t1 ++ t2) = (connections t1 + connections t2)%nat.
Proof. unfold connections. by rewrite List.filter_app, length_app. Qed.

Lemma connections_failed_attempts server from k :
  connections (failed_attempts server from k) = k.
Proof.
  revert from. induction k as [|k IH]; intros from; [done|].
  change (connections (failed_attempts server from (S k)))
    with (S (connections (failed_attempts server (S from) k))). by rewrite IH.
Qed.

Lemma primary_loop_spec server maxAttempts fuel : forall a fl trace res fl' trace',
  primary_loop connect asleep server maxAttempts fuel a fl trace = Some (res, fl', trace') ->
  exists k final,
    trace' = trace ++ failed_attempts server (S a) k ++ final
    /\ (final = [] \/ final = [Connect server])
    /\ (forall j, (a < j <= a + k)%nat -> may_retry maxAttempts j = true)
    /\ (res = Return tt ->
        isPermanentlyDisconnected fl' = true \/ isPrimaryServerConnected fl' = true)
    /\ (forall e, res = Throw e ->
          e = VStr (primary_failed server) /\ final = [Connect server]
          /\ may_retry maxAttempts (S (a + k)) = false).
Proof.
  induction fuel as [|fuel IH]; intros a fl trace res fl' trace'; [done|].
  cbn [primary_loop].
  destruct (negb (isPermanentlyDisconnected fl) && negb (isPrimaryServerConnected fl)) eqn:Hgo.
  2:{ intros [= <- <- <-]. exists O, []. rewrite !app_nil_r.
      split; [done|]. split; [by left|]. split; [intros; lia|]. split; [|done].
      intros _. apply andb_false_iff in Hgo as [H|H]; apply negb_false_iff in H; auto. }
  cbv zeta. destruct (connect server (S a) fl) as [[[]|e] fl1].
  { intros [= <- <- <-]. exists O, [Connect server]. simpl.
    split; [done|]. split; [by right|]. split; [intros; lia|]. split; [by right|done]. }
  destruct (isPermanentlyDisconnected fl1) eqn:Hperm; cbn [negb].
  { destruct fuel as [|fuel']; [done|]. cbn [primary_loop]. rewrite Hperm. cbn [negb andb].
    intros [= <- <- <-]. exists O, [Connect server]. simpl.
    split; [done|]. split; [by right|]. split; [intros; lia|]. split; [by left|done]. }
  destruct (may_retry maxAttempts (S a)) eqn:Hretry.
  2:{ intros [= <- <- <-]. exists O, [Connect server]. simpl.
      split; [done|]. split; [by right|]. split; [intros; lia|]. split; [done|].
      intros e' [= <-]. by rewrite Nat.add_0_r. }
  intros H. apply IH in H as (k & final & -> & Hfinal & Hretries & Hret & Hthrow).
  exists (S k), final. split; [by rewrite <- !(assoc_L (++))|]. split; [done|].
  split; [|split; [done|]].
  - intros j Hj. destruct (decide (j = S a)) as [->|]; [done|]. apply Hretries. lia.
  - intros e' He'. destruct (Hthrow e' He') as (-> & -> & Hno). split; [done|]. split; [done|].
    by replace (S (a + S k)) with (S (S a + k)) by lia.
Qed.

End Reconnect.



(** X14. With a limit of [n] attempts the reconnection to the primary server
    comes to an end, whatever the network does: [n + 1] rounds of the loop are
    enough, and it has then made at most [n] connections.  The first
    connection of an [XrplApi] object runs it with a limit of one. *)
Theorem primary_reconnect_ends_within_limit
    (connect : string -> nat -> flags -> outcome unit * flags) (asleep : Z -> flags -> flags)
    (server : string) (n : nat) (fl : flags) :
  (0 < n)%nat ->
  exists res fl' trace,
    attemptPrimaryServerReconnect connect asleep server (Some (Z.of_nat n)) (S n) fl
      = Some (res, fl', trace)
    /\ (connections trace <= n)%nat.
Proof.
  intros Hn.
  assert (Hends : forall fuel a fl0 trace0, (a < n)%nat -> (n - a < fuel)%nat ->
            exists r, primary_loop connect asleep server (Some (Z.of_nat n)) fuel a fl0 trace0
                      = Some r).
  { induction fuel as [|fuel IH]; intros a fl0 trace0 Ha Hfuel; [lia|].
    cbn [primary_loop]. destruct (_ && _); [|by eexists].
    cbv zeta. destruct (connect server (S a) fl0) as [[[]|e] fl1]; [by eexists|].
    destruct (isPermanentlyDisconnected fl1) eqn:Hperm; cbn [negb].
    - destruct fuel as [|fuel']; cbn [primary_loop].
      + lia.
      + rewrite Hperm. cbn [negb andb]. by eexists.
    - unfold may_retry.
      destruct (Z.eqb_spec (Z.of_nat n) 0); [lia|]. cbn [orb].
      destruct (Z.ltb_spec (Z.of_nat (S a)) (Z.of_nat n)); [|by eexists].
      apply IH; lia. }
  destruct (Hends (S n) O fl [] ltac:(lia) ltac:(lia)) as ([[res fl'] trace] & Hrun).
  exists res, fl', trace. split; [exact Hrun|].
  apply primary_loop_spec in Hrun as (k & final & -> & Hfinal & Hretries & _ & _).
  simpl. rewrite connections_app, connections_failed_attempts.
  assert (Hk : (k < n)%nat \/ k = O).
  { destruct k as [|k]; [by right|]. left.
    specialize (Hretries (S k) ltac:(lia)). unfold may_retry in Hretries.
    apply orb_true_iff in Hretries as [Hz|Hlt]; [apply Z.eqb_eq in Hz; lia|].
    apply Z.ltb_lt in Hlt. lia. }
  destruct Hfinal as [-> | ->]; unfold connections; simpl; lia.
Qed.

Lemma primary_reconnect_ends_witness :
  exists res fl' trace,
    attemptPrimaryServerReconnect (down_for 5) undisturbed "wss://xahau.network" (Some 1) 2
      disconnected = Some (res, fl', trace)
    /\ (connections trace <= 1)%nat.
Proof.
  apply (primary_reconnect_ends_within_limit (down_for 5) undisturbed "wss://xahau.network" 1
           disconnected).
  lia.
Defined.

(** *** The fallback servers *)

Section Fallback.
Variable connect : string -> nat -> flags -> outcome unit * flags.
Variable asleep : Z -> flags -> flags.

Lemma server_attempts_stopped maxRounds round server left n fl trace :
  isPermanentlyDisconnected fl = true ->
  exists w, (w = Break \/ w = NextServer)
    /\ server_attempts connect asleep maxRounds round server left n fl trace = (w, n, fl, trace).
Proof.
  intros Hperm. destruct left as [|left]; simpl.
  - exists NextServer. auto.
  - rewrite Hperm, orb_true_r. exists Break. auto.
Qed.

Lemma server_walk_stopped maxRounds round attemptsPerServer servers n fl trace :
  isPermanentlyDisconnected fl = true ->
  exists w, (w = Break \/ w = NextServer)
    /\ server_walk connect asleep maxRounds round attemptsPerServer servers n fl trace
       = (w, n, fl, trace).
Proof.
  intros Hperm. induction servers as [|server rest IH]; simpl.
  - exists NextServer. auto.
  - destruct (server_attempts_stopped maxRounds round server attemptsPerServer n fl trace Hperm)
      as (w & [-> | ->] & ->).
    + exists Break. auto.
    + exact IH.
Qed.

(** What one round does when it is the last one allowed and each server gets
    one attempt. *)
Lemma last_round_single_attempt round servers n fl trace w n' fl' trace' :
  may_retry (Some 1) round = false ->
  server_walk connect asleep (Some 1) round 1 servers n fl trace = (w, n', fl', trace') ->
  (trace' = trace \/ exists s, head servers = Some s /\ trace' = trace ++ [Connect s])
  /\ (forall e, w = Thrown e ->
        exists s err fl1,
          head servers = Some s /\ e = VStr (fallback_failed s)
          /\ trace' = trace ++ [Connect s] /\ connect s (S n) fl = (Throw err, fl1)).
Proof.
  intros Hlast. destruct servers as [|s rest]; cbn [server_walk server_attempts head].
  { intros [= <- <- <- <-]. split; [by left|done]. }
  destruct (isPrimaryServerConnected fl || isPermanentlyDisconnected fl).
  { intros [= <- <- <- <-]. split; [by left|done]. }
  cbv zeta. destruct (connect s (S n) fl) as [[[]|err] fl1] eqn:Hconnect.
  { intros [= <- <- <- <-]. split; [right; by exists s|done]. }
  destruct (isPermanentlyDisconnected fl1) eqn:Hperm; cbn [negb].
  - destruct (server_walk_stopped (Some 1) round 1 rest (S n) fl1 (trace ++ [Connect s]) Hperm)
      as (w0 & Hw0 & Hwalk).
    rewrite Hwalk. intros H.
    assert (w = w0 /\ trace' = trace ++ [Connect s]) as (-> & ->).
    { by destruct Hw0 as [-> | ->]; injection H as <- <- <- <-. }
    split; [right; by exists s|]. by destruct Hw0 as [-> | ->].
  - rewrite Hlast. intros [= <- <- <- <-].
    split; [right; by exists s|].
    intros e' [= <-]. by exists s, err, fl1.
Qed.




(** *** The order of the connections and the length of the sleeps *)

Section Schedule.
Variable servers : list string.
Variable aps : nat.








End Schedule.

End Fallback.

(** X15. On the first connection of an [XrplApi] object the fallback servers
    are tried with one round and one attempt each.  From a state in which
    nothing is connected, such a run makes one connection, to the first
    server of the list, whatever comes of it.  When that connection fails,
    the run throws the message that names this server, and the servers after
    it are not tried; when it succeeds, the run returns with the fallback
    server connected; and when the consumer has disconnected for good while
    it was failing, the run returns without a word. *)
Theorem first_connection_tries_first_fallback_only
    (connect : string -> nat -> flags -> outcome unit * flags) (asleep : Z -> flags -> flags)
    (server : string) (others : list string) (fuel : nat) (fl : flags) :
  isPermanentlyDisconnected fl = false -> isPrimaryServerConnected fl = false ->
  isFallbackServerConnected fl = false ->
  let run := attemptFallbackServerReconnect connect asleep (server :: others) (Some 1) 1
               (S (S fuel)) fl in
  (forall err fl1,
     connect server 1%nat fl = (Throw err, fl1) -> isPermanentlyDisconnected fl1 = false ->
     run = Some (Throw (VStr ("Fallback server " +:+ server
                               +:+ " connection max attempts failed.")),
                 fl1, [Connect server]))
  /\ (forall fl1,
        connect server 1%nat fl = (Return tt, fl1) ->
        run = Some (Return tt,
                    Flags (isPermanentlyDisconnected fl1) (isPrimaryServerConnected fl1) true,
                    [Connect server]))
  /\ (forall err fl1,
        connect server 1%nat fl = (Throw err, fl1) -> isPermanentlyDisconnected fl1 = true ->
        run = Some (Return tt, fl1, [Connect server])).
Proof.
  intros Hperm Hprimary Hfallback run. unfold run, attemptFallbackServerReconnect.
  cbn [fallback_loop]. rewrite Hperm, Hprimary, Hfallback.
  change ((0 <? length (server :: others))%nat && negb false && negb false && negb false
          && may_retry (Some 1) 0) with true.
  cbn [server_walk server_attempts]. rewrite Hperm, Hprimary. cbn [orb app].
  split; [|split].
  - intros err fl1 -> Hp. rewrite Hp. reflexivity.
  - intros fl1 ->. cbn [fallback_loop isFallbackServerConnected negb].
    by rewrite !andb_false_r.
  - intros err fl1 -> Hp. rewrite Hp. cbn [negb].
    destruct (server_walk_stopped connect asleep (Some 1) 1 1 others 1 fl1 [Connect server] Hp)
      as (w & Hw & Hwalk).
    rewrite Hwalk. cbn [fallback_loop]. rewrite Hp. cbn [negb]. rewrite !andb_false_r.
    by destruct Hw as [-> | ->].
Qed.

Lemma first_connection_witness :
  attemptFallbackServerReconnect (only_up "wss://b.example") undisturbed
    ["wss://a.example"; "wss://b.example"] (Some 1) 1 5 disconnected
  = Some (Throw (VStr "Fallback server wss://a.example connection max attempts failed."),
          disconnected, [Connect "wss://a.example"]).
Proof.
  exact (proj1 (first_connection_tries_first_fallback_only (only_up "wss://b.example")
                  undisturbed "wss://a.example" ["wss://b.example"] 3 disconnected
                  eq_refl eq_refl eq_refl)
           (VStr "ECONNREFUSED") disconnected eq_refl eq_refl).
Defined.



End ConnectionFacts.

(** ** Node buffers *)

Module BufferFacts.
Import Buffer.

Lemma copy_length source target targetStart :
  length (copy source target targetStart) = length target.
Proof.
  unfold copy. rewrite length_take, !length_app, length_take, length_drop. lia.
Qed.

Lemma bytes_app a b : bytes (a ++ b) <-> bytes a /\ bytes b.
Proof. apply Forall_app. Qed.

Lemma copy_bytes source target targetStart :
  bytes source -> bytes target -> bytes (copy source target targetStart).
Proof.
  intros Hs Ht. unfold copy, bytes. apply Forall_take. rewrite !Forall_app.
  split; [by apply Forall_take|]. split; [done|]. by apply Forall_drop.
Qed.

Lemma little_endian_length width z : length (little_endian width z) = width.
Proof. revert z. induction width as [|w IH]; intros z; simpl; [done|]. by rewrite IH. Qed.

Lemma little_endian_bytes width z : bytes (little_endian width z).
Proof.
  revert z. induction width as [|w IH]; intros z; simpl; constructor; [|apply IH].
  apply Z.mod_pos_bound. lia.
Qed.

Lemma from_little_endian_inv width : forall z,
  0 <= z < 2 ^ (8 * Z.of_nat width) -> from_little_endian (little_endian width z) = z.
Proof.
  induction width as [|w IH]; intros z Hz.
  - simpl in *. lia.
  - cbn [little_endian from_little_endian]. rewrite IH.
    + pose proof (Z.div_mod z 256 ltac:(lia)). lia.
    + replace (8 * Z.of_nat (S w)) with (8 + 8 * Z.of_nat w) in Hz by lia.
      rewrite Z.pow_add_r in Hz by lia. change (2 ^ 8) with 256 in Hz.
      split; [apply Z.div_pos; lia|]. apply Z.div_lt_upper_bound; lia.
Qed.

Lemma alloc_bytes size : bytes (alloc size).
Proof. unfold alloc, bytes. induction size; simpl; constructor; [lia|done]. Qed.

Lemma utf8_char_bytes ch : bytes (utf8_char ch).
Proof.
  unfold utf8_char. pose proof (nat_ascii_bounded ch) as Hb.
  set (n := Z.of_nat (nat_of_ascii ch)). assert (0 <= n < 256) by lia.
  destruct (Z.ltb_spec n 128).
  - constructor; [lia|constructor].
  - pose proof (Z.mod_pos_bound n 64 ltac:(lia)).
    assert (n / 64 < 4) by (apply Z.div_lt_upper_bound; lia).
    assert (0 <= n / 64) by (apply Z.div_pos; lia).
    constructor; [lia|]. constructor; [lia|constructor].
Qed.

Lemma utf8_bytes s : bytes (utf8 s).
Proof.
  unfold utf8. induction (list_ascii_of_string s) as [|ch l IH]; simpl; [constructor|].
  apply bytes_app. split; [apply utf8_char_bytes|done].
Qed.

Lemma utf8_ascii_length s : ascii_only s = true -> length (utf8 s) = String.length s.
Proof.
  unfold ascii_only, utf8. induction s as [|ch s IH]; simpl; [done|].
  rewrite andb_true_iff. intros [Hch Hs]. rewrite length_app, (IH Hs).
  unfold utf8_char. apply Nat.ltb_lt in Hch.
  by destruct (Z.ltb_spec (Z.of_nat (nat_of_ascii ch)) 128); [|lia].
Qed.

Lemma write_unsigned_cases bytes_of width value offset buf :
  (forall z, length (bytes_of width z) = width) ->
  (forall z, bytes (bytes_of width z)) ->
  (offset + width <= length buf)%nat ->
  if out_of_range value (2 ^ (8 * Z.of_nat width) - 1)
  then write_unsigned bytes_of width value offset buf = Throw EvernodeHook.RangeError
  else write_unsigned bytes_of width value offset buf
       = Return (copy (bytes_of width (stored value)) buf offset).
Proof.
  intros _ _ Hfit. unfold write_unsigned. destruct (out_of_range _ _); [done|].
  by destruct (Nat.ltb_spec (length buf) (offset + width)); [lia|].
Qed.

Lemma drop_zeros k width : drop k (repeat 0 width) = repeat 0 (width - k).
Proof.
  revert k. induction width as [|w IH]; intros k; [by destruct k|].
  destruct k as [|k]; [done|]. simpl. apply IH.
Qed.

(** Writing over a field that is still zero. *)
Lemma copy_field content pre width post :
  (length content <= width)%nat ->
  copy content (pre ++ repeat 0 width ++ post) (length pre) = pre ++ field width content ++ post.
Proof.
  intros Hfit. unfold copy, field.
  rewrite take_app_length, drop_app_ge, drop_app_le by (rewrite ?repeat_length; lia).
  replace (length pre + length content - length pre)%nat with (length content) by lia.
  rewrite drop_zeros.
  rewrite take_ge.
  - by rewrite <- !(assoc_L (++)).
  - rewrite !length_app, !repeat_length. lia.
Qed.

(** Writing the next field of a buffer that is zero from there on. *)
Lemma copy_next content pre width total offset :
  length pre = offset -> (length content <= width)%nat -> (width <= total)%nat ->
  copy content (pre ++ repeat 0 total) offset
  = (pre ++ field width content) ++ repeat 0 (total - width).
Proof.
  intros <- Hfit Htotal.
  replace total with (width + (total - width))%nat at 1 by lia.
  rewrite repeat_app, copy_field by done. by rewrite <- !(assoc_L (++)).
Qed.

Lemma field_full content : field (length content) content = content.
Proof. unfold field. by rewrite Nat.sub_diag, app_nil_r. Qed.

Lemma field_exact width content : length content = width -> field width content = content.
Proof. intros <-. apply field_full. Qed.

Lemma field_length width content :
  (length content <= width)%nat -> length (field width content) = width.
Proof. intros H. unfold field. rewrite length_app, repeat_length. lia. Qed.

Lemma toString_hex_length buf : String.length (toString_hex buf) = (2 * length buf)%nat.
Proof. induction buf as [|b buf IH]; simpl; [done|]. rewrite IH. lia. Qed.

Lemma toUpperCase_length s : String.length (toUpperCase s) = String.length s.
Proof. induction s as [|ch s IH]; simpl; [done|]. by rewrite IH. Qed.

Lemma substring_short n s : (String.length s <= n)%nat -> substring 0 n s = s.
Proof.
  revert n. induction s as [|ch s IH]; intros n Hn.
  - by destruct n.
  - destruct n as [|n]; simpl in *; [lia|]. rewrite IH; [done|lia].
Qed.

Lemma substring_length n s : (String.length (substring 0 n s) <= n)%nat.
Proof.
  revert n. induction s as [|ch s IH]; intros n.
  - destruct n; simpl; lia.
  - destruct n as [|n]; simpl; [lia|]. specialize (IH n). lia.
Qed.

Lemma substring_ascii_only n s : ascii_only s = true -> ascii_only (substring 0 n s) = true.
Proof.
  unfold ascii_only. revert n. induction s as [|ch s IH]; intros n.
  - by destruct n.
  - destruct n as [|n]; simpl; [done|]. rewrite !andb_true_iff. intros [? ?]. auto.
Qed.

End BufferFacts.

(** ** HostClient: the binary parameters *)

Module HostParamsFacts.
Import HostClient Buffer HostParams BufferFacts HostClientFacts.

Lemma write_step bytes_of width value offset buf (k : buffer -> outcome buffer) :
  (forall z, length (bytes_of width z) = width) ->
  (forall z, bytes (bytes_of width z)) ->
  length buf = HOST_REG_PARAM_SIZE -> bytes buf -> (offset + width <= HOST_REG_PARAM_SIZE)%nat ->
  if out_of_range value (2 ^ (8 * Z.of_nat width) - 1)
  then obind (write_unsigned bytes_of width value offset buf) k = Throw EvernodeHook.RangeError
  else exists buf', length buf' = HOST_REG_PARAM_SIZE /\ bytes buf'
         /\ obind (write_unsigned bytes_of width value offset buf) k = k buf'.
Proof.
  intros Hlen Hbytes Hbuf Hb Hfit.
  pose proof (write_unsigned_cases bytes_of width value offset buf Hlen Hbytes
                ltac:(rewrite Hbuf; lia)) as Hw.
  destruct (out_of_range _ _); rewrite Hw; [done|].
  exists (copy (bytes_of width (stored value)) buf offset).
  split; [by rewrite copy_length|]. split; [by apply copy_bytes|done].
Qed.

Lemma register_paramBuf_cases r :
  if register_out_of_range r
  then register_paramBuf r = Throw EvernodeHook.RangeError
  else exists paramBuf,
         register_paramBuf r = Return paramBuf
         /\ length paramBuf = HOST_REG_PARAM_SIZE /\ bytes paramBuf.
Proof.
  unfold register_out_of_range, register_paramBuf.
  set (b0 := copy _ (alloc HOST_REG_PARAM_SIZE) _).
  assert (Hl0 : length b0 = HOST_REG_PARAM_SIZE) by (unfold b0; by rewrite copy_length).
  assert (Hy0 : bytes b0) by (apply copy_bytes; [apply utf8_bytes|apply alloc_bytes]).
  pose proof little_endian_length as Hlen. pose proof little_endian_bytes as Hbytes.
  pose proof (fun v o b k Hl Hb Hf =>
                write_step little_endian 4 v o b k (Hlen 4%nat) (Hbytes 4%nat) Hl Hb Hf) as H32.
  pose proof (fun v o b k Hl Hb Hf =>
                write_step little_endian 2 v o b k (Hlen 2%nat) (Hbytes 2%nat) Hl Hb Hf) as H16.
  change (2 ^ (8 * Z.of_nat 4) - 1) with (2 ^ 32 - 1) in H32.
  change (2 ^ (8 * Z.of_nat 2) - 1) with (2 ^ 16 - 1) in H16.
  unfold writeUInt32LE, writeUInt16LE.
  match goal with |- context [obind (write_unsigned _ _ ?v ?o b0) ?k] =>
    pose proof (H32 v o b0 k Hl0 Hy0 ltac:(vm_compute; lia)) as H1 end.
  destruct (out_of_range (cpuMicroSec r) _); [done|].
  destruct H1 as (b1 & Hl1 & Hy1 & ->).
  match goal with |- context [obind (write_unsigned _ _ ?v ?o b1) ?k] =>
    pose proof (H32 v o b1 k Hl1 Hy1 ltac:(vm_compute; lia)) as H2 end.
  destruct (out_of_range (ramMb r) _); [done|].
  destruct H2 as (b2 & Hl2 & Hy2 & ->).
  match goal with |- context [obind (write_unsigned _ _ ?v ?o b2) ?k] =>
    pose proof (H32 v o b2 k Hl2 Hy2 ltac:(vm_compute; lia)) as H3 end.
  destruct (out_of_range (diskMb r) _); [done|].
  destruct H3 as (b3 & Hl3 & Hy3 & ->).
  match goal with |- context [obind (write_unsigned _ _ ?v ?o b3) ?k] =>
    pose proof (H32 v o b3 k Hl3 Hy3 ltac:(vm_compute; lia)) as H4 end.
  destruct (out_of_range (totalInstanceCount r) _); [done|].
  destruct H4 as (b4 & Hl4 & Hy4 & ->).
  cbv zeta. set (b5 := copy _ b4 _).
  assert (Hl5 : length b5 = HOST_REG_PARAM_SIZE) by (unfold b5; by rewrite copy_length).
  assert (Hy5 : bytes b5) by (apply copy_bytes; [apply utf8_bytes|done]).
  match goal with |- context [obind (write_unsigned _ _ ?v ?o b5) ?k] =>
    pose proof (H16 v o b5 k Hl5 Hy5 ltac:(vm_compute; lia)) as H6 end.
  destruct (out_of_range (cpuCount r) _); [done|].
  destruct H6 as (b6 & Hl6 & Hy6 & ->).
  match goal with |- context [obind (write_unsigned _ _ ?v ?o b6) ?k] =>
    pose proof (H16 v o b6 k Hl6 Hy6 ltac:(vm_compute; lia)) as H7 end.
  destruct (out_of_range (cpuSpeed r) _); [done|].
  destruct H7 as (b7 & Hl7 & Hy7 & ->).
  simpl. eexists. split; [done|].
  split; [by rewrite !copy_length|].
  by repeat (apply copy_bytes; [apply utf8_bytes|]).
Qed.

(** X17. The registration parameter keeps its size, and a number that does
    not fit its field is the only thing that can go wrong in building it:
    when one of the four 32-bit arguments or the two 16-bit ones is out of
    range, the build throws a RangeError; otherwise it gives 128 bytes, sent
    as 256 hex digits, whatever the strings are (what does not fit is cut
    off).  The argument checks of [register] do not bound the numbers, so a
    registration can pass them and fail here. *)
Theorem register_param_size_and_range (r : registration) :
  (if register_out_of_range r
   then register_event_data r = Throw EvernodeHook.RangeError
   else exists paramBuf data,
          register_paramBuf r = Return paramBuf
          /\ length paramBuf = 128%nat /\ bytes paramBuf
          /\ register_event_data r = Return data /\ String.length data = 256%nat)
  /\ exists passing,
       registration_error passing = None
       /\ register_event_data passing = Throw EvernodeHook.RangeError.
Proof.
  split; [|exists many_cores; split; reflexivity].
  pose proof (register_paramBuf_cases r) as H. unfold register_event_data.
  destruct (register_out_of_range r).
  - by rewrite H.
  - destruct H as (paramBuf & -> & Hlen & Hbytes). simpl.
    exists paramBuf, (toUpperCase (toString_hex paramBuf)).
    split; [done|]. split; [done|]. split; [done|]. split; [done|].
    by rewrite toUpperCase_length, toString_hex_length, Hlen.
Qed.

Lemma write_next width value pre total offset :
  out_of_range value (2 ^ (8 * Z.of_nat width) - 1) = false ->
  length pre = offset -> (width <= total)%nat ->
  write_unsigned little_endian width value offset (pre ++ repeat 0 total)
  = Return ((pre ++ little_endian width (stored value)) ++ repeat 0 (total - width)).
Proof.
  intros Hrange Hpre Htotal. unfold write_unsigned. rewrite Hrange.
  destruct (Nat.ltb_spec (length (pre ++ repeat 0 total)) (offset + width)) as [Hlt|_].
  { rewrite length_app, repeat_length in Hlt. lia. }
  rewrite (copy_next _ pre width total offset Hpre) by (by rewrite ?little_endian_length).
  by rewrite <- (little_endian_length width (stored value)) at 1; rewrite field_full.
Qed.

Lemma country_code_bytes s :
  country_code_matches s = true ->
  substring 0 2 s = s /\ length (utf8 s) = 2%nat.
Proof.
  destruct s as [|a [|b [|]]]; try done. simpl. unfold upper, code.
  rewrite !andb_true_iff, !Nat.leb_le. intros [[] []]. split; [done|].
  rewrite utf8_ascii_length; [done|]. unfold ascii_only. simpl.
  rewrite !andb_true_iff, !Nat.ltb_lt. lia.
Qed.

Lemma description_bytes s :
  description_matches s = true ->
  substring 0 26 s = s /\ (length (utf8 s) <= 26)%nat.
Proof.
  unfold description_matches. rewrite andb_true_iff, Nat.leb_le. intros [Hall Hlen].
  split; [by apply substring_short|]. rewrite utf8_ascii_length; [done|].
  unfold ascii_only. rewrite forallb_forall in Hall. apply forallb_forall.
  intros ch Hin. specialize (Hall ch Hin). unfold description_char, code in Hall.
  apply andb_true_iff in Hall as [_ Hall]. apply Nat.leb_le in Hall. apply Nat.ltb_lt. lia.
Qed.

Lemma registration_error_none_checks r :
  registration_error r = None ->
  country_code_matches (countryCode r) = true
  /\ description_matches (description r) = true
  /\ email_rejected (emailAddress r) = false.
Proof.
  unfold registration_error.
  destruct (country_code_matches _); simpl; [|done].
  repeat (destruct (not_positive_integer _); [done|]).
  destruct (bool_decide _); [done|].
  destruct (description_matches _); simpl; [|done].
  by destruct (email_rejected _).
Qed.

(** X18. For arguments that pass the checks of [register], with a CPU model
    and an e-mail address in plain ASCII and numbers that fit their fields,
    the writes of [register] produce the layout its comment states: two bytes
    of country code, the four 32-bit numbers and, after the 40 bytes of the
    CPU model, the two 16-bit numbers, all lowest byte first, then 26 bytes of
    description and 40 bytes of e-mail address, each text at the start of its
    field and followed by zeros; 128 bytes, no field reaching into the
    next. *)
Theorem register_param_layout (r : registration) :
  registration_error r = None ->
  ascii_only (cpuModel r) = true -> ascii_only (emailAddress r) = true ->
  register_out_of_range r = false ->
  register_paramBuf r = Return (register_layout r)
  /\ length (register_layout r) = 128%nat.
Proof.
  intros Hok Hmodel Hmail Hrange.
  apply registration_error_none_checks in Hok as (Hcc & Hdesc & Hem).
  apply country_code_bytes in Hcc as [Hcc Hcclen].
  apply description_bytes in Hdesc as [Hdesc Hdesclen].
  assert (Hmaillen : (String.length (emailAddress r) <= 40)%nat).
  { unfold email_rejected in Hem. rewrite !orb_false_iff, Nat.ltb_ge in Hem. tauto. }
  unfold register_out_of_range in Hrange. rewrite !orb_false_iff in Hrange.
  destruct Hrange as [[[[[H1 H2] H3] H4] H5] H6].
  assert (Hmodellen : (length (utf8 (substring 0 40 (cpuModel r))) <= 40)%nat).
  { rewrite utf8_ascii_length by (by apply substring_ascii_only). apply substring_length. }
  assert (Hmailbytes : (length (utf8 (emailAddress r)) <= 40)%nat)
    by (by rewrite utf8_ascii_length).
  unfold register_paramBuf, register_layout, alloc, writeUInt32LE, writeUInt16LE.
  rewrite Hcc, Hdesc, (substring_short 40 (emailAddress r)) by done.
  change (repeat 0 HOST_REG_PARAM_SIZE) with ([] ++ repeat 0 128).
  unfold HOST_COUNTRY_CODE_PARAM_OFFSET, HOST_CPU_MICROSEC_PARAM_OFFSET, HOST_RAM_MB_PARAM_OFFSET,
    HOST_DISK_MB_PARAM_OFFSET, HOST_TOT_INS_COUNT_PARAM_OFFSET, HOST_CPU_MODEL_NAME_PARAM_OFFSET,
    HOST_CPU_COUNT_PARAM_OFFSET, HOST_CPU_SPEED_PARAM_OFFSET, HOST_DESCRIPTION_PARAM_OFFSET,
    HOST_EMAIL_ADDRESS_PARAM_OFFSET.
  assert (Hlens : forall w z, length (little_endian w z) = w) by apply little_endian_length.
  assert (Hf40 : length (field 40 (utf8 (substring 0 40 (cpuModel r)))) = 40%nat)
    by (by apply field_length).
  assert (Hf26 : length (field 26 (utf8 (description r))) = 26%nat) by (by apply field_length).
  assert (Hf40' : length (field 40 (utf8 (emailAddress r))) = 40%nat) by (by apply field_length).
  split.
  - rewrite (copy_next _ [] 2 128 0), (field_exact 2 _ Hcclen) by (done || lia).
    rewrite (write_next 4 _ _ _ _ H1) by (rewrite ?length_app, ?Hlens, ?Hcclen; simpl; lia).
    cbn [obind].
    rewrite (write_next 4 _ _ _ _ H2) by (rewrite ?length_app, ?Hlens, ?Hcclen; simpl; lia).
    cbn [obind].
    rewrite (write_next 4 _ _ _ _ H3) by (rewrite ?length_app, ?Hlens, ?Hcclen; simpl; lia).
    cbn [obind].
    rewrite (write_next 4 _ _ _ _ H4) by (rewrite ?length_app, ?Hlens, ?Hcclen; simpl; lia).
    cbn [obind].
    rewrite (copy_next _ _ 40 _ 18)
      by (rewrite ?length_app, ?Hlens, ?Hcclen; simpl; lia).
    rewrite (write_next 2 _ _ _ _ H5)
      by (rewrite ?length_app, ?Hlens, ?Hcclen, ?Hf40; simpl; lia).
    cbn [obind].
    rewrite (write_next 2 _ _ _ _ H6)
      by (rewrite ?length_app, ?Hlens, ?Hcclen, ?Hf40; simpl; lia).
    cbn [obind].
    rewrite (copy_next _ _ 26 _ 62)
      by (rewrite ?length_app, ?Hlens, ?Hcclen, ?Hf40; simpl; lia).
    rewrite (copy_next _ _ 40 _ 88)
      by (rewrite ?length_app, ?Hlens, ?Hcclen, ?Hf40, ?Hf26; simpl; lia).
    simpl. by rewrite app_nil_r, <- !(assoc_L (++)).
  - rewrite !length_app, !Hlens, Hcclen, Hf40, Hf26, Hf40'. done.
Qed.

Lemma register_param_layout_witness :
  register_paramBuf well_formed_host = Return (register_layout well_formed_host)
  /\ length (register_layout well_formed_host) = 128%nat.
Proof.
  apply (register_param_layout well_formed_host); reflexivity.
Defined.

Example register_event_data_sample :
  register_event_data well_formed_host
  = Return ("415500350C000010000000C8000003000000496E74656C2058656F6E00000000"
            +:+ "0000000000000000000000000000000000000000000000000000040060097361"
            +:+ "6D706C6520686F73740000000000000000000000000000006F7073406578616D"
            +:+ "706C652E6F726700000000000000000000000000000000000000000000000000").
Proof. vm_compute. reflexivity. Qed.

End HostParamsFacts.

(** ** Hex strings and integer reads *)

Module HexFacts.
Import Buffer HookReader BufferFacts.

Lemma hex_digit_value n : 0 <= n < 16 -> hex_value (hex_digit n) = Some n.
Proof.
  intros Hn. replace n with (Z.of_nat (Z.to_nat n)) by lia.
  assert (Hk : (Z.to_nat n < 16)%nat) by lia.
  clear Hn. revert Hk. generalize (Z.to_nat n). intros k Hk.
  do 16 (destruct k as [|k]; [reflexivity|]). lia.
Qed.

Lemma from_hex_toString_hex buf : bytes buf -> from_hex (toString_hex buf) = buf.
Proof.
  induction 1 as [|b buf Hb _ IH]; [done|].
  cbn [toString_hex from_hex].
  assert (0 <= b / 16 < 16).
  { split; [apply Z.div_pos; lia|apply Z.div_lt_upper_bound; lia]. }
  rewrite !hex_digit_value, IH by (done || apply Z.mod_pos_bound; lia).
  f_equal. pose proof (Z.div_mod b 16 ltac:(lia)). lia.
Qed.

Lemma hex_value_upper ch v :
  hex_value ch = Some v -> 0 <= v < 16 /\ upper_char (hex_digit v) = upper_char ch.
Proof.
  destruct ch as [[] [] [] [] [] [] [] []]; intros H; vm_compute in H;
    try discriminate H; injection H as <-; (split; [lia|reflexivity]).
Qed.

Lemma string_pairs_ind (P : string -> Prop) :
  P "" -> (forall a, P (String a "")) ->
  (forall a b rest, P rest -> P (String a (String b rest))) ->
  forall s, P s.
Proof.
  intros H0 H1 H2 s.
  assert (H : P s /\ forall a, P (String a s)); [|by destruct H].
  induction s as [|b s [IH1 IH2]]; [by split|].
  split; [apply IH2|]. intros a. by apply H2.
Qed.

Lemma from_hex_bytes s : bytes (from_hex s).
Proof.
  induction s as [|a|a b rest IH] using string_pairs_ind; [constructor..|].
  cbn [from_hex].
  destruct (hex_value a) as [x|] eqn:Ha; [|constructor].
  destruct (hex_value b) as [y|] eqn:Hb; [|constructor].
  apply hex_value_upper in Ha as [Hx _]. apply hex_value_upper in Hb as [Hy _].
  constructor; [lia|done].
Qed.

Lemma from_hex_length s : hex_pairs s = true -> (2 * length (from_hex s))%nat = String.length s.
Proof.
  induction s as [|a|a b rest IH] using string_pairs_ind; [done..|].
  cbn [from_hex hex_pairs].
  destruct (hex_value a); [|done]. destruct (hex_value b); [|done].
  intros H. simpl. rewrite <- (IH H). lia.
Qed.

(** Decoding and encoding again gives the digits back, but for their case. *)
Lemma toString_hex_from_hex s :
  hex_pairs s = true -> toUpperCase (toString_hex (from_hex s)) = toUpperCase s.
Proof.
  induction s as [|a|a b rest IH] using string_pairs_ind; [done..|].
  cbn [from_hex hex_pairs].
  destruct (hex_value a) as [x|] eqn:Ha; [|done].
  destruct (hex_value b) as [y|] eqn:Hb; [|done].
  intros H. apply hex_value_upper in Ha as [Hx Ha]. apply hex_value_upper in Hb as [Hy Hb].
  cbn [toString_hex toUpperCase]. rewrite (IH H).
  replace ((16 * x + y) / 16) with x by (apply Z.div_unique with y; lia).
  replace ((16 * x + y) mod 16) with y by (apply Z.mod_unique with x; lia).
  by rewrite Ha, Hb.
Qed.

Lemma toString_hex_app a b : toString_hex (a ++ b) = toString_hex a +:+ toString_hex b.
Proof. induction a as [|x a IH]; simpl; [done|]. by rewrite IH. Qed.

Lemma toUpperCase_app a b : toUpperCase (a +:+ b) = toUpperCase a +:+ toUpperCase b.
Proof. induction a as [|x a IH]; simpl; [done|]. by rewrite IH. Qed.

(** *** Integer reads *)

Lemma from_little_endian_app a b :
  from_little_endian (a ++ b) = from_little_endian a + 256 ^ Z.of_nat (length a) * from_little_endian b.
Proof.
  induction a as [|x a IH]; [simpl; lia|].
  cbn [app from_little_endian length]. rewrite IH, Nat2Z.inj_succ, Z.pow_succ_r by lia. lia.
Qed.

(** The reader of [getConfig] and [readUInt] read the same number. *)
Lemma from_little_endian_rev l : from_little_endian (rev l) = EvernodeHook.big_endian l.
Proof.
  unfold EvernodeHook.big_endian. rewrite <- fold_left_rev_right.
  induction (rev l) as [|x l' IH]; [done|]. simpl. rewrite <- IH. lia.
Qed.

Lemma from_little_endian_range l :
  bytes l -> 0 <= from_little_endian l < 256 ^ Z.of_nat (length l).
Proof.
  induction 1 as [|b l Hb _ IH]; [simpl; lia|].
  cbn [from_little_endian length]. rewrite Nat2Z.inj_succ, Z.pow_succ_r by lia. lia.
Qed.

End HexFacts.

(** ** HostClient: parameters and memos built from buffers *)

Module HostMessagesFacts.
Import Buffer HookReader HostMessages BufferFacts HexFacts JSFacts.

Lemma copy_all content target :
  length content = length target -> copy content target 0 = content.
Proof.
  intros Hlen. unfold copy. simpl. rewrite drop_ge, app_nil_r by lia.
  apply take_ge. lia.
Qed.

Lemma in_range_integer m max :
  0 <= m <= max -> out_of_range (Fin (inject_Z m)) max = false /\ stored (Fin (inject_Z m)) = m.
Proof.
  intros Hm. unfold out_of_range, stored, inject_Z. simpl. rewrite Z.div_1_r. split; [|done].
  apply orb_false_iff. split; [apply Z.ltb_ge|apply Z.ltb_ge]; lia.
Qed.

Lemma read_back width z :
  0 <= z < 2 ^ (8 * Z.of_nat width) ->
  read_unsigned width false (little_endian width z) = Return z
  /\ read_unsigned width true (rev (little_endian width z)) = Return z.
Proof.
  intros Hz. unfold read_unsigned.
  rewrite length_rev, little_endian_length, Nat.ltb_irrefl.
  rewrite !take_ge by (rewrite ?length_rev, little_endian_length; lia).
  by rewrite rev_involutive, from_little_endian_inv.
Qed.

(** X19. The moment that [extendSuccess] puts into its memo can be read
    back: for a moment between 0 and [2 ^ 32 - 1] the memo data is eight hex
    digits, the same whatever the unsafe allocation held, and [readUInt] with
    base 32 reads the moment off the decoded bytes.  A moment outside that
    range is a RangeError, thrown before any payment is made. *)
Theorem extend_success_moment_round_trip (unsafe : buffer) (moment : Z) :
  length unsafe = 4%nat ->
  if (0 <=? moment) && (moment <? 2 ^ 32)
  then exists data,
         extendSuccess_memo_data unsafe (Fin (inject_Z moment)) = Return data
         /\ String.length data = 8%nat
         /\ readUInt (from_hex data) 32 true = Return moment
         /\ forall unsafe', length unsafe' = 4%nat ->
              extendSuccess_memo_data unsafe' (Fin (inject_Z moment)) = Return data
  else extendSuccess_memo_data unsafe (Fin (inject_Z moment)) = Throw EvernodeHook.RangeError.
Proof.
  intros Hlen. unfold extendSuccess_memo_data, writeUInt32BE, write_unsigned.
  change (2 ^ (8 * Z.of_nat 4) - 1) with (2 ^ 32 - 1).
  destruct (Z.leb_spec 0 moment) as [H0|H0]; cbn [andb].
  2:{ unfold out_of_range, inject_Z. simpl.
      destruct (Z.ltb_spec moment 0); [by rewrite orb_true_r|lia]. }
  destruct (Z.ltb_spec moment (2 ^ 32)) as [H1|H1].
  2:{ unfold out_of_range, inject_Z. simpl.
      by destruct (Z.ltb_spec ((2 ^ 32 - 1) * 1) moment); [|lia]. }
  destruct (in_range_integer moment (2 ^ 32 - 1) ltac:(lia)) as [-> ->].
  assert (Hdata : forall any, length any = 4%nat ->
            (if (length any <? 0 + 4)%nat
             then Throw (if (length any <? 4)%nat then EvernodeHook.OutOfBounds
                         else EvernodeHook.RangeError)
             else Return (copy (rev (little_endian 4 moment)) any 0))
            = Return (rev (little_endian 4 moment))).
  { intros any Hany. rewrite Hany. cbn [Nat.ltb Nat.leb Nat.add].
    by rewrite copy_all by (by rewrite length_rev, little_endian_length). }
  exists (toString_hex (rev (little_endian 4 moment))).
  rewrite (Hdata unsafe Hlen). cbn [obind]. split; [done|].
  split; [by rewrite toString_hex_length, length_rev, little_endian_length|].
  split.
  - rewrite from_hex_toString_hex.
    + unfold readUInt. cbn. by apply (read_back 4).
    + apply Forall_rev, little_endian_bytes.
  - intros unsafe' Hlen'. by rewrite (Hdata unsafe' Hlen').
Qed.

Lemma extend_success_moment_witness :
  exists data,
    extendSuccess_memo_data [222; 173; 190; 239] (Fin (inject_Z 1700000000)) = Return data
    /\ String.length data = 8%nat
    /\ readUInt (from_hex data) 32 true = Return 1700000000
    /\ forall unsafe', length unsafe' = 4%nat ->
         extendSuccess_memo_data unsafe' (Fin (inject_Z 1700000000)) = Return data.
Proof.
  exact (extend_success_moment_round_trip [222; 173; 190; 239] 1700000000 eq_refl).
Defined.

Lemma id_and_flag index flag :
  hex_pairs index = true -> String.length index = 64%nat ->
  copy [flag] (copy (from_hex index) (alloc 33) 0) 32 = from_hex index ++ [flag].
Proof.
  intros Hhex Hlen. pose proof (from_hex_length index Hhex) as Hbytes.
  assert (Hid : length (from_hex index) = 32%nat) by lia.
  change (alloc 33) with ([] ++ repeat 0 33).
  rewrite (copy_next _ [] 32 33 0), (field_exact 32 _ Hid) by (done || lia).
  rewrite (copy_next [flag] _ 1 _ 32) by (simpl; lia).
  simpl. by rewrite app_nil_r.
Qed.

Lemma id_without_flag index :
  hex_pairs index = true -> String.length index = 64%nat ->
  copy (from_hex index) (alloc 33) 0 = from_hex index ++ [0].
Proof.
  intros Hhex Hlen. pose proof (from_hex_length index Hhex) as Hbytes.
  assert (Hid : length (from_hex index) = 32%nat) by lia.
  change (alloc 33) with ([] ++ repeat 0 33).
  by rewrite (copy_next _ [] 32 33 0), (field_exact 32 _ Hid) by (done || lia).
Qed.

Lemma id_and_flag_hex index flag :
  hex_pairs index = true ->
  toUpperCase (toString_hex (from_hex index ++ [flag]))
  = toUpperCase index +:+ toUpperCase (toString_hex [flag]).
Proof.
  intros Hhex. by rewrite toString_hex_app, toUpperCase_app, toString_hex_from_hex.
Qed.

(** X20. The parameter of [deregister] and the vote data of [heartbeat] have
    the layout [<id(32)><flag(1)>].  For a token id, or a candidate id, of 64
    hex digits in either case, the value sent is the id in upper case followed
    by one byte in hex: [01] when [deregister] was given an error and [00]
    when not, and the vote itself for [heartbeat]. *)
Theorem id_and_flag_parameters (hex : string) :
  hex_pairs hex = true -> String.length hex = 64%nat ->
  (forall error,
     deregister_event_data hex error
     = Return (toUpperCase hex +:+ (if truthy error then "01" else "00")))
  /\ (forall v others,
        0 <= v <= 255 ->
        vote_data (VoteInfo (Some hex) (Some (Fin (inject_Z v))) others)
        = Return (VStr (toUpperCase hex +:+ toUpperCase (toString_hex [v])))).
Proof.
  intros Hhex Hlen. split.
  - intros error. unfold deregister_event_data, deregister_paramBuf, writeUInt8, write_unsigned.
    destruct (truthy error).
    + rewrite copy_length. change (length (alloc 33) <? 32 + 1)%nat with false.
      change (out_of_range (Fin 1) _) with false. cbn [obind].
      change (little_endian 1 (stored (Fin 1))) with [1].
      by rewrite id_and_flag, id_and_flag_hex.
    + cbn [obind]. by rewrite id_without_flag, id_and_flag_hex.
  - intros v others Hv. unfold vote_data, keys.
    cbn [candidate vote other_keys default from_option Datatypes.id].
    destruct (Nat.ltb_spec 1 (1 + 1 + others)); [|lia].
    unfold writeUInt8, write_unsigned.
    change (2 ^ (8 * Z.of_nat 1) - 1) with 255.
    destruct (in_range_integer v 255 Hv) as [-> ->].
    rewrite copy_length. change (length (alloc 33) <? 32 + 1)%nat with false.
    cbn [obind Nat.ltb Nat.leb Nat.add]. cbn [little_endian].
    rewrite Z.mod_small by lia. by rewrite id_and_flag, id_and_flag_hex.
Qed.

Lemma id_and_flag_parameters_witness :
  (forall error,
     deregister_event_data token_id error
     = Return (toUpperCase token_id +:+ (if truthy error then "01" else "00")))
  /\ (forall v others,
        0 <= v <= 255 ->
        vote_data (VoteInfo (Some token_id) (Some (Fin (inject_Z v))) others)
        = Return (VStr (toUpperCase token_id +:+ toUpperCase (toString_hex [v])))).
Proof.
  exact (id_and_flag_parameters token_id eq_refl eq_refl).
Defined.

Lemma find_validation_error_first pre r post text :
  (forall r', r' ∈ pre -> exists t,
     get r' "message" = Return (VStr t) /\ includes VOTE_VALIDATION_ERR t = false) ->
  get r "message" = Return (VStr text) -> includes VOTE_VALIDATION_ERR text = true ->
  find_validation_error (pre ++ r :: post) = Return (Some r).
Proof.
  intros Hpre Hr Htext. induction pre as [|r' pre IH]; cbn [app find_validation_error].
  - unfold names_vote_validation. rewrite Hr. cbn [obind]. by rewrite Htext.
  - destruct (Hpre r') as (t & Ht & Hno); [apply list_elem_of_here|].
    unfold names_vote_validation at 1. rewrite Ht. cbn [obind]. rewrite Hno.
    apply IH. intros r'' Hin. apply Hpre. by apply list_elem_of_further.
Qed.

Lemma find_validation_error_none results :
  (forall r, r ∈ results -> exists t,
     get r "message" = Return (VStr t) /\ includes VOTE_VALIDATION_ERR t = false) ->
  find_validation_error results = Return None.
Proof.
  intros Hall. induction results as [|r results IH]; [done|]. cbn [find_validation_error].
  destruct (Hall r) as (t & Ht & Hno); [apply list_elem_of_here|].
  unfold names_vote_validation. rewrite Ht. cbn [obind]. rewrite Hno.
  apply IH. intros r' Hin. apply Hall. by apply list_elem_of_further.
Qed.

(** X21. When the payment of a heartbeat fails, [heartbeat] looks through the
    hook execution results of the failure for a message that mentions
    [VOTE_VALIDATION_ERR]: it throws [{ code: 'VOTE_VALIDATION_ERR', error }]
    with the first such message, and throws the failure as it is when there
    are no hook execution results or none of their messages mentions it.  A
    [voteInfo] with fewer than two keys takes no part: no vote data is
    sent. *)
Theorem heartbeat_names_vote_validation
    (makePayment : list val -> outcome val)
    (PARAM_EVENT_TYPE_KEY PARAM_EVENT_DATA1_KEY HEARTBEAT MIN_DROPS heartbeatAddress : val)
    (ledgerIndex : Z) (voteInfo : vote_info) (transactionOptions data e : val) :
  vote_data voteInfo = Return data ->
  makePayment [heartbeatAddress; MIN_DROPS; VNull; VNull; VNull;
               heartbeat_options PARAM_EVENT_TYPE_KEY PARAM_EVENT_DATA1_KEY HEARTBEAT
                 ledgerIndex data transactionOptions] = Throw e ->
  let run := heartbeat makePayment PARAM_EVENT_TYPE_KEY PARAM_EVENT_DATA1_KEY HEARTBEAT
               MIN_DROPS heartbeatAddress ledgerIndex voteInfo transactionOptions in
  (nullish (opt_get e "hookExecutionResult") = true -> run = Throw e)
  /\ (forall pre r post text,
        opt_get e "hookExecutionResult" = VArr (pre ++ r :: post) ->
        (forall r', r' ∈ pre -> exists t,
           get r' "message" = Return (VStr t) /\ includes VOTE_VALIDATION_ERR t = false) ->
        get r "message" = Return (VStr text) -> includes VOTE_VALIDATION_ERR text = true ->
        run = Throw (obj [("code", VStr VOTE_VALIDATION_ERR); ("error", VStr text)]))
  /\ (forall results,
        opt_get e "hookExecutionResult" = VArr results ->
        (forall r, r ∈ results -> exists t,
           get r "message" = Return (VStr t) /\ includes VOTE_VALIDATION_ERR t = false) ->
        run = Throw e)
  /\ ((keys voteInfo <= 1)%nat -> data = VUndef).
Proof.
  intros Hdata Hpay. cbv zeta. unfold heartbeat. rewrite Hdata. cbn [obind]. rewrite Hpay.
  unfold heartbeat_failure. split; [|split; [|split]].
  - intros Hnull. by destruct (opt_get e "hookExecutionResult").
  - intros pre r post text -> Hpre Hr Htext.
    rewrite (find_validation_error_first pre r post text Hpre Hr Htext).
    destruct r as [| | | | |o|]; try done. simpl in Hr. injection Hr as Hr.
    simpl. by rewrite Hr.
  - intros results -> Hall. by rewrite (find_validation_error_none results Hall).
  - intros Hkeys. unfold vote_data in Hdata.
    destruct (Nat.ltb_spec 1 (keys voteInfo)); [lia|]. by injection Hdata.
Qed.

Lemma heartbeat_names_vote_validation_witness :
  heartbeat (fun _ => Throw rejected_vote) (VStr "4556520100000000000000000000000000000002")
    (VStr "4556520100000000000000000000000000000003") (VStr "evnHeartbeat") (VStr "1")
    (VStr "rHeartbeat") 100 (VoteInfo None None 0) VUndef
  = Throw (obj [("code", VStr VOTE_VALIDATION_ERR);
                ("error", VStr "Evernode: VOTE_VALIDATION_ERR - Voting time elapsed")]).
Proof.
  refine (proj1 (proj2 (heartbeat_names_vote_validation (fun _ => Throw rejected_vote)
                          (VStr "4556520100000000000000000000000000000002")
                          (VStr "4556520100000000000000000000000000000003")
                          (VStr "evnHeartbeat") (VStr "1") (VStr "rHeartbeat") 100
                          (VoteInfo None None 0) VUndef VUndef rejected_vote eq_refl eq_refl))
            [obj [("result", VNum 3); ("message", VStr "Evernode: heartbeat accepted")]]
            _ [] _ eq_refl _ eq_refl eq_refl).
  intros r' Hin. apply list_elem_of_singleton in Hin as ->. by eexists.
Defined.

End HostMessagesFacts.

(** ** The integer reader of the hook client *)

Module HookReaderFacts.
Import Buffer HookReader BufferFacts HexFacts HostMessagesFacts.

(** The two reads of [getConfig] are [readUInt] with the bases 16 and 64. *)
Lemma readUInt_of_config buf :
  readUInt buf 16 true = EvernodeHook.readUInt16 buf
  /\ readUInt buf 64 true = EvernodeHook.readUInt64 buf.
Proof.
  unfold readUInt, read_unsigned, EvernodeHook.readUInt16, EvernodeHook.readUInt64,
    EvernodeHook.readUIntBE. cbn [Z.eqb Pos.eqb]. split.
  - destruct (length buf <? 2)%nat; [done|]. by rewrite from_little_endian_rev.
  - destruct (length buf <? 8)%nat; [done|]. cbn [obind]. by rewrite from_little_endian_rev.
Qed.

(** X22. [readUInt] reads back what the buffer writes store: for a width of
    1, 2 or 4 bytes and the base of that many bits it returns the number
    whose bytes it is given, lowest byte first when [isBE] is false and
    highest byte first when it is true; with base 64 it returns the double
    nearest to the number of the eight bytes, which below [2 ^ 53] is the
    number itself.  A base other than 8, 16, 32 and 64 is refused with the
    message of the source, and a buffer too short for the base is out of
    bounds. *)
Theorem readUInt_reads_back :
  (forall width z (isBE : bool),
     width = 1%nat \/ width = 2%nat \/ width = 4%nat ->
     0 <= z < 2 ^ (8 * Z.of_nat width) ->
     readUInt (if isBE then rev (little_endian width z) else little_endian width z)
       (8 * Z.of_nat width) isBE = Return z)
  /\ (forall z (isBE : bool),
        0 <= z < 2 ^ 53 ->
        readUInt (if isBE then rev (little_endian 8 z) else little_endian 8 z) 64 isBE
        = Return z)
  /\ (forall z (isBE : bool),
        0 <= z < 2 ^ 64 ->
        readUInt (if isBE then rev (little_endian 8 z) else little_endian 8 z) 64 isBE
        = Return (Double.Number_of_BigInt z))
  /\ (forall buf base isBE,
        base <> 8 -> base <> 16 -> base <> 32 -> base <> 64 ->
        readUInt buf base isBE = Throw (VStr "Invalid base value"))
  /\ (forall buf base isBE,
        base = 8 \/ base = 16 \/ base = 32 \/ base = 64 ->
        (8 * Z.of_nat (length buf) < base) ->
        readUInt buf base isBE
        = Throw (obj [("name", VStr "RangeError");
                      ("code", VStr "ERR_BUFFER_OUT_OF_BOUNDS")])).
Proof.
  assert (H64 : forall z (isBE : bool),
            0 <= z < 2 ^ 64 ->
            readUInt (if isBE then rev (little_endian 8 z) else little_endian 8 z) 64 isBE
            = Return (Double.Number_of_BigInt z)).
  { intros z isBE Hz. unfold readUInt. cbn [Z.eqb Pos.eqb].
    assert (Hz' : 0 <= z < 2 ^ (8 * Z.of_nat 8)) by (change (8 * Z.of_nat 8) with 64; lia).
    destruct (read_back 8 z Hz') as [Hle Hbe].
    by destruct isBE; [rewrite Hbe|rewrite Hle]. }
  split; [|split; [|split; [|split]]].
  - intros width z isBE Hw Hz.
    destruct (read_back width z Hz) as [Hle Hbe].
    destruct Hw as [-> |[-> | ->]]; unfold readUInt; cbn [Z.of_nat Z.mul Z.eqb Pos.eqb Pos.mul
                                                           Pos.of_succ_nat Pos.succ].
    + destruct isBE; [done|]. by rewrite <- Hbe.
    + by destruct isBE.
    + by destruct isBE.
  - intros z isBE Hz. rewrite H64 by lia. f_equal.
    unfold Double.Number_of_BigInt. by destruct (Z.ltb_spec z (2 ^ 53)); [|lia].
  - exact H64.
  - intros buf base isBE H8 H16 H32 Hn64. unfold readUInt.
    destruct (Z.eqb_spec base 8); [done|]. destruct (Z.eqb_spec base 16); [done|].
    destruct (Z.eqb_spec base 32); [done|]. by destruct (Z.eqb_spec base 64).
  - intros buf base isBE Hbase Hshort. unfold readUInt, read_unsigned.
    destruct Hbase as [-> |[-> |[-> | ->]]]; cbn [Z.eqb Pos.eqb].
    + by destruct (Nat.ltb_spec (length buf) 1); [|lia].
    + by destruct (Nat.ltb_spec (length buf) 2); [|lia].
    + by destruct (Nat.ltb_spec (length buf) 4); [|lia].
    + by destruct (Nat.ltb_spec (length buf) 8); [|lia].
Qed.

Example readUInt_rounds_to_double :
  readUInt [255; 255; 255; 255; 255; 255; 255; 255] 64 true = Return (2 ^ 64)
  /\ readUInt [0; 32; 0; 0; 0; 0; 0; 1] 64 true = Return (2 ^ 53).
Proof. split; reflexivity. Qed.

End HookReaderFacts.

(** ** EvernodeHook and EvernodeClient: events and the memos behind them *)

Module HookEventFacts.
Import EvernodeHook EvernodeClient JSFacts.

Section Extractor.
Variable K : common.
Variable hookAddress : val.
Variable hostAddresses : outcome (list val).
Variable JSON_parse : val -> outcome val.
Variable parseInt : val -> val.

Lemma is_reward_true tx :
  is_reward K hookAddress hostAddresses tx = Return true ->
  strict_eq (Account tx) hookAddress = true
  /\ get (Amount tx) "currency" = Return (VStr (EVR K))
  /\ exists hosts, hostAddresses = Return hosts
       /\ existsb (fun h => strict_eq h (Destination tx)) hosts = true.
Proof.
  unfold is_reward. destruct (strict_eq (Account tx) hookAddress); [|done]. cbn [andb].
  destruct (typeof_object (Amount tx)); [|done].
  destruct (get (Amount tx) "currency") as [currency|] eqn:Hc; [|done]. cbn [obind].
  destruct (str_eq currency (EVR K)) eqn:Hs; [|done]. apply str_eq_true in Hs as ->.
  destruct hostAddresses as [hosts|]; [|done]. cbn [obind]. intros [= He].
  split; [done|]. split; [done|]. by exists hosts.
Qed.

Lemma by_memos_evidence tx m0 rest ev :
  Memos tx = Some (m0 :: rest) ->
  by_memos K JSON_parse parseInt tx m0 rest = Return (Some ev) ->
  evidence K hookAddress hostAddresses JSON_parse parseInt tx ev.
Proof.
  intros Hmemos. unfold by_memos.
  destruct (str_eq (format m0) (BINARY K) && str_eq (type m0) (REDEEM K) && truthy (data m0))
    eqn:Hredeem.
  { apply andb_true_iff in Hredeem as [Hft Hd]. apply andb_true_iff in Hft as [Hf Ht].
    apply str_eq_true in Hf, Ht.
    destruct (get (Amount tx) "issuer") as [issuer|] eqn:Hissuer; [|done]. cbn [obind].
    destruct (get (Amount tx) "currency") as [currency|] eqn:Hcurrency; [|done]. cbn [obind].
    destruct (get (Amount tx) "value") as [value|] eqn:Hvalue; [|done]. cbn [obind].
    intros [= <-]. simpl. split; [done|]. split; [done|]. split; [done|]. split; [done|].
    split; [by exists value|]. by exists m0, rest. }
  destruct (redeem_response K m0 rest) as [m1|] eqn:Hresp.
  { unfold redeem_response in Hresp. destruct rest as [|m1' rest']; [done|].
    destruct (str_eq (format m0) (BINARY K) && str_eq (type m0) (REDEEM_REF K)
              && truthy (data m0) && str_eq (type m1') (REDEEM_RESP K) && truthy (data m1'))
      eqn:Hall; [|done].
    injection Hresp as ->.
    repeat (apply andb_true_iff in Hall as [Hall ?]).
    repeat match goal with H : str_eq _ _ = true |- _ => apply str_eq_true in H end.
    destruct (str_eq (format m1) (JSON K)) eqn:Hjson.
    - apply str_eq_true in Hjson.
      destruct (JSON_parse (data m1)) as [parsed|] eqn:Hparsed; [|done]. cbn [obind].
      destruct (get parsed "reason") as [reason|] eqn:Hreason; [|done]. cbn [obind].
      intros [= <-]. simpl. split; [done|]. exists m0, m1, rest'.
      repeat (split; [done|]). by exists parsed.
    - intros [= <-]. simpl. split; [done|]. exists m0, m1, rest'.
      repeat (split; [done|]). split; [|done].
      intros Hf. by rewrite Hf, str_eq_refl in Hjson. }
  destruct (str_eq (format m0) (BINARY K) && str_eq (type m0) (REFUND K) && truthy (data m0))
    eqn:Hrefund.
  { apply andb_true_iff in Hrefund as [Hft Hd]. apply andb_true_iff in Hft as [Hf Ht].
    apply str_eq_true in Hf, Ht.
    intros [= <-]. simpl. split; [done|]. by exists m0, rest. }
  destruct (str_eq (format m0) (TEXT K) && str_eq (type m0) (HOST_REG K) && truthy (data m0))
    eqn:Hreg.
  { apply andb_true_iff in Hreg as [Hft Hd]. apply andb_true_iff in Hft as [Hf Ht].
    apply str_eq_true in Hf, Ht.
    destruct (data m0) as [| | | |text| |] eqn:Hdata; try done.
    intros [= <-]. simpl. split; [done|]. split; [done|]. exists m0, rest, text.
    split; [done|]. split; [done|]. split; [done|]. split; [|done].
    intros ->. vm_compute in Hd. done. }
  destruct (str_eq (type m0) (HOST_DEREG K)) eqn:Hdereg.
  { apply str_eq_true in Hdereg.
    intros [= <-]. simpl. split; [done|]. split; [done|]. by exists m0, rest. }
  destruct (str_eq (format m0) (BINARY K) && str_eq (type m0) (AUDIT_REQ K)) eqn:Haudit.
  { apply andb_true_iff in Haudit as [Hf Ht]. apply str_eq_true in Hf, Ht.
    intros [= <-]. simpl. split; [done|]. split; [done|]. by exists m0, rest. }
  destruct (str_eq (format m0) (BINARY K) && str_eq (type m0) (AUDIT_SUCCESS K)) eqn:Hsucc;
    [|done].
  apply andb_true_iff in Hsucc as [Hf Ht]. apply str_eq_true in Hf, Ht.
  intros [= <-]. simpl. split; [done|]. split; [done|]. by exists m0, rest.
Qed.

End Extractor.

(** X23. The event extractor never makes an event up: every event it
    returns carries the payment it came from and is backed by that payment.
    A reward is an EVR payment from the hook account to a registered host;
    every other event has a first memo of the format and type that belong to
    the event (and a second, [REDEEM_RESP] memo for the two answers to a
    redeem, the JSON format telling the error from the success), with data
    where the event carries some, and its fields are read off the payment
    and its memos. *)
Theorem extracted_event_is_backed_by_payment (K : common) (hookAddress : val)
    (hostAddresses : outcome (list val)) (JSON_parse : val -> outcome val)
    (parseInt : val -> val) (tx : payment) (ev : hook_event) :
  extractEvernodeHookEvent K hookAddress hostAddresses JSON_parse parseInt tx
    = Return (Some ev) ->
  evidence K hookAddress hostAddresses JSON_parse parseInt tx ev.
Proof.
  unfold extractEvernodeHookEvent.
  destruct (is_reward K hookAddress hostAddresses tx) as [[|]|] eqn:Hreward; [| |done];
    cbn [obind].
  - apply is_reward_true in Hreward as (Hacc & Hcur & Hhosts).
    destruct (get (Amount tx) "value") as [amount|] eqn:Hval; [|done]. cbn [obind].
    intros [= <-]. simpl. done.
  - destruct (Memos tx) as [[|m0 rest]|] eqn:Hmemos; [done| |done].
    by apply by_memos_evidence.
Qed.

Lemma extracted_event_witness :
  evidence sample_common (VStr "rHook") (Return [VStr "rHost"]) parse_one id redeem_failed
    (RedeemError redeem_failed (VStr "A1B2") (VStr "NO_CAPACITY")).
Proof.
  exact (extracted_event_is_backed_by_payment sample_common (VStr "rHook")
           (Return [VStr "rHost"]) parse_one id redeem_failed _ eq_refl).
Defined.

(** *** From the client to the hook *)

Lemma split_semicolon_whole s : no_semicolon s -> split_semicolon s = [s].
Proof.
  unfold no_semicolon. induction s as [|ch s IH]; [done|]. simpl. intros Hno.
  rewrite bool_decide_false by (intros ->; apply Hno; by left).
  rewrite IH; [done|]. intros Hin. apply Hno. by right.
Qed.

Lemma split_semicolon_first s rest :
  no_semicolon s -> split_semicolon (s +:+ ";" +:+ rest) = s :: split_semicolon rest.
Proof.
  unfold no_semicolon. induction s as [|ch s IH]; simpl; intros Hno.
  - done.
  - rewrite bool_decide_false by (intros ->; apply Hno; by left).
    rewrite IH; [done|]. intros Hin. apply Hno. by right.
Qed.

(** X24. What the client writes into its memos, the hook reads back.  For
    tables whose type names differ from one another, and a payment that is
    no reward, the extractor turns the memos of [registerHost] into a
    [HostRegistered] event with the token, the instance size and the location
    that were given, provided none of the three holds a semicolon; the memos
    of [deregisterHost], [refund], [requestAudit] and [auditSuccess] into the
    events of these requests; and the memos of [redeemSuccess] into a
    [RedeemSuccess] with the hash and the encrypted answer. *)
Theorem client_memos_read_back (K : common) (hookAddress : val)
    (hostAddresses : outcome (list val)) (JSON_parse : val -> outcome val)
    (parseInt : val -> val) (tx : payment) :
  tables_distinct K ->
  is_reward K hookAddress hostAddresses tx = Return false ->
  let extract := extractEvernodeHookEvent K hookAddress hostAddresses JSON_parse parseInt in
  (forall hostingToken instanceSize location,
     no_semicolon hostingToken -> no_semicolon instanceSize -> no_semicolon location ->
     Memos tx = Some (registerHost_memos K hostingToken instanceSize location) ->
     extract tx = Return (Some (HostRegistered tx (Account tx) (VStr hostingToken)
                                  (VStr instanceSize) (VStr location))))
  /\ (Memos tx = Some (deregisterHost_memos K) ->
      extract tx = Return (Some (HostDeregistered tx (Account tx))))
  /\ (forall redeemTxHash,
        truthy redeemTxHash = true -> Memos tx = Some (refund_memos K redeemTxHash) ->
        extract tx = Return (Some (RefundRequest tx redeemTxHash)))
  /\ (Memos tx = Some (requestAudit_memos K) ->
      extract tx = Return (Some (AuditRequest tx (Account tx))))
  /\ (Memos tx = Some (auditSuccess_memos K) ->
      extract tx = Return (Some (AuditSuccess tx (Account tx))))
  /\ (forall txHash encrypted,
        truthy txHash = true -> truthy encrypted = true -> BINARY K <> JSON K ->
        Memos tx = Some (redeemSuccess_memos K txHash encrypted) ->
        extract tx = Return (Some (RedeemSuccess tx txHash encrypted))).
Proof.
  intros [Hnodup Htext] Hreward. cbv zeta. unfold extractEvernodeHookEvent.
  rewrite Hreward. cbn [obind].
  assert (Hne : forall a b, a <> b -> str_eq (VStr a) b = false) by apply str_eq_ne.
  assert (Hdiff : forall (i j : nat) a b,
            [REDEEM K; REDEEM_REF K; REFUND K; HOST_REG K; HOST_DEREG K; AUDIT_REQ K;
             AUDIT_SUCCESS K] !! i = Some a ->
            [REDEEM K; REDEEM_REF K; REFUND K; HOST_REG K; HOST_DEREG K; AUDIT_REQ K;
             AUDIT_SUCCESS K] !! j = Some b ->
            i <> j -> a <> b).
  { intros i j a b Hi Hj Hij ->. apply Hij. by eapply NoDup_lookup. }
  split; [|split; [|split; [|split; [|split]]]].
  - intros token size location Ht Hs Hl ->. unfold registerHost_memos, by_memos, redeem_response.
    cbn [format type data]. rewrite (Hne (TEXT K) (BINARY K)) by done. cbn [andb].
    rewrite !str_eq_refl. cbn [andb].
    assert (Hdata : truthy (VStr (host_reg_data token size location)) = true).
    { unfold host_reg_data. simpl. apply negb_true_iff, bool_decide_eq_false.
      by destruct token. }
    rewrite Hdata. unfold host_reg_data.
    rewrite (split_semicolon_first token), (split_semicolon_first size),
      (split_semicolon_whole location) by done.
    done.
  - intros ->. unfold deregisterHost_memos, by_memos, redeem_response.
    cbn [format type data]. rewrite (Hne (TEXT K) (BINARY K)) by done. cbn [andb].
    rewrite !str_eq_refl. by rewrite andb_false_r.
  - intros hash Hhash ->. unfold refund_memos, by_memos, redeem_response.
    cbn [format type data]. rewrite !str_eq_refl, Hhash.
    rewrite (Hne (REFUND K) (REDEEM K)) by (by apply (Hdiff 2 0)%nat). done.
  - intros ->. unfold requestAudit_memos, by_memos, redeem_response.
    cbn [format type data]. rewrite !str_eq_refl.
    rewrite (Hne (AUDIT_REQ K) (HOST_DEREG K)) by (by apply (Hdiff 5 4)%nat).
    rewrite !andb_false_r. done.
  - intros ->. unfold auditSuccess_memos, by_memos, redeem_response.
    cbn [format type data]. rewrite !str_eq_refl.
    rewrite (Hne (AUDIT_SUCCESS K) (HOST_DEREG K)) by (by apply (Hdiff 6 4)%nat).
    rewrite (Hne (AUDIT_SUCCESS K) (AUDIT_REQ K)) by (by apply (Hdiff 6 5)%nat).
    rewrite !andb_false_r. done.
  - intros hash encrypted Hhash Henc Hjson ->. unfold redeemSuccess_memos, by_memos, redeem_response.
    cbn [format type data]. rewrite !str_eq_refl, Hhash, Henc.
    rewrite (Hne (REDEEM_REF K) (REDEEM K)) by (by apply (Hdiff 1 0)%nat).
    cbn [andb format data]. by rewrite (Hne (BINARY K) (JSON K)).
Qed.

Lemma client_memos_read_back_witness :
  let tx := Payment (VStr "rHost") (VStr "rHook")
              (obj [("currency", VStr "EVR"); ("issuer", VStr "rHook"); ("value", VStr "5120")])
              (Some (registerHost_memos sample_common "HTK" "AMD 8GB 200GB" "AU")) in
  extractEvernodeHookEvent sample_common (VStr "rHook") (Return []) parse_one id tx
  = Return (Some (HostRegistered tx (VStr "rHost") (VStr "HTK") (VStr "AMD 8GB 200GB")
                    (VStr "AU"))).
Proof.
  intros tx.
  assert (Hdistinct : tables_distinct sample_common).
  { split; [|intros H; vm_compute in H; discriminate H].
    apply (bool_decide_unpack _). by vm_compute. }
  refine (proj1 (client_memos_read_back sample_common (VStr "rHook") (Return []) parse_one id
                   tx Hdistinct eq_refl) "HTK" "AMD 8GB 200GB" "AU" _ _ _ eq_refl);
    unfold no_semicolon; simpl; intros H; decompose [or] H; first [discriminate | done].
Defined.

End HookEventFacts.

(** ** HostClient: the retry wrapper on success, and the host's status *)

Module RetryFacts.
Import HostClient HostStatus JSFacts HostClientFacts.

Section Retry.
Variable callback : nat -> Z -> outcome val.
Variable options : option retry_options.

Lemma retry_loop_success fuel : forall a fee trace,
  length trace = (2 * a)%nat ->
  Z.of_nat a < max_attempts options ->
  (Z.to_nat (max_attempts options) - a < fuel)%nat ->
  exists res ext,
    retry_loop callback options fuel a fee trace = Some (res, trace ++ ext)
    /\ (forall n v, (a <= n)%nat -> returned callback (trace ++ ext) n v ->
        res = Return v /\ length (trace ++ ext) = S (2 * n))
    /\ (forall v, res = Return v ->
        exists n, length (trace ++ ext) = S (2 * n) /\ returned callback (trace ++ ext) n v).
Proof.
  induction fuel as [|fuel IH]; intros a fee trace Hlen Hlt Hfuel; [lia|].
  cbn [retry_loop].
  destruct (Z.leb_spec (Z.of_nat a) (max_attempts options)) as [_|?]; [|lia].
  assert (Hhere : (trace ++ [Attempt fee]) !! (2 * a)%nat = Some (Attempt fee)).
  { by rewrite lookup_app_r, Hlen, Nat.sub_diag by lia. }
  assert (Hstop : forall res, (forall v, callback (S a) fee = Return v -> res = Return v) ->
            (forall v, res = Return v -> callback (S a) fee = Return v) ->
            (forall n v, (a <= n)%nat -> returned callback (trace ++ [Attempt fee]) n v ->
               res = Return v /\ length (trace ++ [Attempt fee]) = S (2 * n))
            /\ (forall v, res = Return v ->
               exists n, length (trace ++ [Attempt fee]) = S (2 * n)
                 /\ returned callback (trace ++ [Attempt fee]) n v)).
  { intros res Hres Hback. rewrite length_app, Hlen. simpl. split.
    - intros n v Hn (fee' & Hl & Hcb).
      assert (n = a) as ->.
      { apply lookup_lt_Some in Hl. rewrite length_app, Hlen in Hl. simpl in Hl. lia. }
      rewrite Hhere in Hl. injection Hl as <-. split; [by apply Hres|lia].
    - intros v Hv. exists a. split; [lia|]. exists fee. split; [done|]. by apply Hback. }
  destruct (callback (S a) fee) as [v|e] eqn:Hcb.
  { exists (Return v), [Attempt fee]. split; [done|]. apply Hstop; congruence. }
  destruct (Z.eqb_spec (Z.of_nat (S a)) (max_attempts options)) as [Hlast|Hmore].
  { exists (Throw e), [Attempt fee]. split; [done|]. apply Hstop; congruence. }
  destruct (get e "code") as [code|type_error] eqn:Hcode.
  2:{ exists (Throw type_error), [Attempt fee]. split; [done|]. apply Hstop; congruence. }
  destruct (terminal_code code) eqn:Hterm.
  { exists (Throw e), [Attempt fee]. split; [done|]. apply Hstop; congruence. }
  destruct (IH (S a) (if str_eq (opt_get e "status") "TOOK_LONG"
                      then fee + fee_increment options else fee)
              ((trace ++ [Attempt fee]) ++ [Sleep TX_RETRY_INTERVAL]))
    as (res & ext & Hrun & Hfirst & Hback).
  { rewrite !length_app, Hlen. simpl. lia. }
  { lia. }
  { lia. }
  exists res, (Attempt fee :: Sleep TX_RETRY_INTERVAL :: ext).
  assert (Happ : ((trace ++ [Attempt fee]) ++ [Sleep TX_RETRY_INTERVAL]) ++ ext
                 = trace ++ Attempt fee :: Sleep TX_RETRY_INTERVAL :: ext).
  { by rewrite <- !app_assoc. }
  rewrite Happ in Hrun, Hfirst, Hback. split; [done|]. split; [|done].
  intros n v Hn Hret. destruct (decide (n = a)) as [->|Hna].
  - destruct Hret as (fee' & Hl & Hcb').
    rewrite lookup_app_r, Hlen, Nat.sub_diag in Hl by lia. injection Hl as <-. congruence.
  - apply Hfirst; [lia|done].
Qed.

(** The wrapper always ends. *)
Lemma submitWithRetry_ends :
  exists res trace, submitWithRetry callback options = Some (res, trace).
Proof.
  unfold submitWithRetry.
  destruct (Z.ltb_spec 0 (max_attempts options)) as [Hpos|Hneg].
  - destruct (retry_loop_success (S (Z.to_nat (max_attempts options))) 0 0 [])
      as (res & ext & Hrun & _); [done|lia|lia|]. by exists res, ext.
  - cbn [retry_loop].
    destruct (Z.leb_spec (Z.of_nat 0) (max_attempts options)) as [Hle|_].
    + exfalso. unfold max_attempts in *. destruct options as [[[z|] ?]|]; simpl in *; try lia.
      destruct (Z.eqb_spec z 0); lia.
    + by eexists _, _.
Qed.

(** Under a positive maximum the first attempt is made, with no uplift. *)
Lemma submitWithRetry_first :
  0 < default 1 (options ≫= maxRetryAttempts) ->
  exists res trace, submitWithRetry callback options = Some (res, Attempt 0 :: trace).
Proof.
  intros Hpos.
  pose proof (HostClientFacts.max_attempts_configured options ltac:(lia)) as Hm.
  unfold submitWithRetry.
  destruct (HostClientFacts.retry_loop_spec callback options
              (S (Z.to_nat (max_attempts options))) 0 0 [])
    as (res & ext & Hrun & _ & Hfirst & _); [done|lia|lia|].
  destruct ext as [|ev ext]; [by specialize (Hfirst ltac:(lia))|].
  specialize (Hfirst ltac:(lia)). injection Hfirst as ->. by exists res, ext.
Qed.

End Retry.

(** X25. The retry wrapper on success.  The first attempt that returns ends
    the run, and the wrapper returns that attempt's value: no attempt follows
    it.  A value the wrapper returns under a positive maximum is the value of
    the last attempt it made.  Under a negative maximum the wrapper calls
    nothing and returns [undefined]. *)
Theorem retry_returns_first_success (callback : nat -> Z -> outcome val)
    (options : option retry_options) :
  exists res trace,
    submitWithRetry callback options = Some (res, trace)
    /\ (forall n fee v,
          trace !! (2 * n)%nat = Some (Attempt fee) -> callback (S n) fee = Return v ->
          res = Return v /\ length trace = S (2 * n))
    /\ (forall v, 0 < max_attempts options -> res = Return v ->
          exists n fee, length trace = S (2 * n)
            /\ trace !! (2 * n)%nat = Some (Attempt fee) /\ callback (S n) fee = Return v)
    /\ (max_attempts options < 0 -> res = Return VUndef /\ trace = []).
Proof.
  unfold submitWithRetry.
  destruct (Z.ltb_spec 0 (max_attempts options)) as [Hpos|Hneg].
  - destruct (retry_loop_success callback options (S (Z.to_nat (max_attempts options))) 0 0 [])
      as (res & ext & Hrun & Hfirst & Hback); [done|lia|lia|].
    simpl in Hrun, Hfirst, Hback. exists res, ext. split; [done|]. split; [|split].
    + intros n fee v Hl Hcb. apply Hfirst; [lia|]. by exists fee.
    + intros v _ Hv. destruct (Hback v Hv) as (n & Hlen & fee & Hl & Hcb). by exists n, fee.
    + lia.
  - assert (Hlt : max_attempts options < 0).
    { unfold max_attempts in *. destruct options as [[[z|] ?]|]; simpl in *; try lia.
      destruct (Z.eqb_spec z 0); lia. }
    exists (Return VUndef), []. cbn [retry_loop].
    destruct (Z.leb_spec (Z.of_nat 0) (max_attempts options)) as [Hle|_]; [lia|].
    split; [done|]. split; [|split]; [done|lia|done].
Qed.

Example retry_negative_maximum :
  submitWithRetry (fun n fee => Return (VNum fee)) (Some (RetryOptions (Some (-1)) None))
  = Some (Return VUndef, []).
Proof. vm_compute. reflexivity. Qed.

End RetryFacts.

Module HostStatusFacts.
Import HostClient HostStatus JSFacts RetryFacts.

(** *** The wait at the end of [transfer] *)

Section TransferWait.
Variable getURITokens : nat -> outcome (list uri_token).
Variable wanted : string.

Lemma find_index_none (tokens : list uri_token) :
  List.find (fun o => bool_decide (index o = wanted)) tokens = None ->
  Forall (fun o => index o <> wanted) tokens.
Proof.
  intros Hnone. apply Forall_forall. intros o Hin Heq.
  apply list_elem_of_In in Hin.
  apply (List.find_none _ _ Hnone) in Hin. by apply bool_decide_eq_false in Hin.
Qed.

Lemma transfer_loop_spec left : forall a,
  (forall j, (j < a)%nat -> not_yet getURITokens wanted j) ->
  exists res sleeps,
    transfer_loop getURITokens wanted left a = (res, sleeps)
    /\ (a <= sleeps <= a + left)%nat
    /\ (forall j, (j < sleeps)%nat -> not_yet getURITokens wanted j)
    /\ match res with
       | Return _ =>
           (sleeps < a + left)%nat
           /\ exists tokens token,
                getURITokens sleeps = Return tokens /\ token ∈ tokens /\ index token = wanted
       | Throw e =>
           (sleeps = (a + left)%nat /\ e = VStr TRANSFER_TIMEOUT)
           \/ ((sleeps < a + left)%nat /\ getURITokens sleeps = Throw e)
       end.
Proof.
  induction left as [|left IH]; intros a Hbefore; cbn [transfer_loop].
  - exists (Throw (VStr TRANSFER_TIMEOUT)), a. split; [done|]. split; [lia|].
    split; [done|]. left. split; [lia|done].
  - destruct (getURITokens a) as [tokens|e] eqn:Hpoll.
    + destruct (List.find _ tokens) as [token|] eqn:Hfind.
      * exists (Return tt), a. split; [done|]. split; [lia|]. split; [done|].
        split; [lia|]. exists tokens, token. split; [done|].
        apply List.find_some in Hfind as [Hin Heq].
        split; [by apply list_elem_of_In|by apply bool_decide_eq_true in Heq].
      * destruct (IH (S a)) as (res & sleeps & Hrun & Hrange & Hnot & Hres).
        { intros j Hj. destruct (decide (j = a)) as [->|Hne]; [|apply Hbefore; lia].
          exists tokens. split; [done|]. by apply find_index_none. }
        exists res, sleeps. split; [done|]. split; [lia|]. split; [done|].
        destruct res as [[]|e].
        -- destruct Hres as [Hlt Hfound]. split; [lia|done].
        -- destruct Hres as [[-> ->]|[Hlt Hthrow]]; [left|right]; split; (lia || done).
    + exists (Throw e), a. split; [done|]. split; [lia|]. split; [done|].
      right. split; [lia|done].
Qed.

End TransferWait.

(** X26. The wait that ends [transfer] polls the tokens of the registry
    account at most 60 times, a second apart, and stops at the first poll
    that shows the sold token: it then returns, after as many sleeps as polls
    came before.  It throws its timeout message exactly when it has slept 60
    times, every poll having answered without the token; and a poll that
    fails ends the wait with that failure. *)
Theorem transfer_wait_bounded (getURITokens : nat -> outcome (list uri_token))
    (wanted : string) :
  exists res sleeps,
    transfer_wait getURITokens wanted = (res, sleeps)
    /\ (sleeps <= 60)%nat
    /\ (forall j, (j < sleeps)%nat -> not_yet getURITokens wanted j)
    /\ match res with
       | Return _ =>
           (sleeps < 60)%nat
           /\ exists tokens token,
                getURITokens sleeps = Return tokens /\ token ∈ tokens /\ index token = wanted
       | Throw e =>
           (sleeps = 60%nat /\ e = VStr TRANSFER_TIMEOUT)
           \/ ((sleeps < 60)%nat /\ getURITokens sleeps = Throw e)
       end.
Proof.
  destruct (transfer_loop_spec getURITokens wanted OFFER_WAIT_TIMEOUT 0)
    as (res & sleeps & Hrun & Hrange & Hnot & Hres); [lia|].
  exists res, sleeps. change OFFER_WAIT_TIMEOUT with 60%nat in *.
  split; [done|]. split; [lia|]. split; [done|]. by destruct res.
Qed.

Example transfer_wait_sample :
  transfer_wait registry_tokens "00BB" = (Return tt, 3%nat)
  /\ transfer_wait registry_tokens "00CC" = (Throw (VStr TRANSFER_TIMEOUT), 60%nat).
Proof. split; vm_compute; reflexivity. Qed.

(** *** Registration status *)

Lemma find_first {A} (f : A -> bool) pre x post :
  (forall y, y ∈ pre -> f y = false) -> f x = true ->
  List.find f (pre ++ x :: post) = Some x.
Proof.
  intros Hpre Hx. induction pre as [|y pre IH]; simpl.
  - by rewrite Hx.
  - rewrite (Hpre y) by apply list_elem_of_here.
    apply IH. intros z Hz. apply Hpre. by apply list_elem_of_further.
Qed.

Lemma find_split {A} (f : A -> bool) l x :
  List.find f l = Some x ->
  exists pre post, l = pre ++ x :: post /\ (forall y, y ∈ pre -> f y = false) /\ f x = true.
Proof.
  induction l as [|y l IH]; [done|]. simpl. destruct (f y) eqn:Hy.
  - intros [= ->]. exists [], l. split; [done|]. split; [|done].
    intros z Hz. by apply not_elem_of_nil in Hz.
  - intros H. destruct (IH H) as (pre & post & -> & Hpre & Hx).
    exists (y :: pre), post. split; [done|]. split; [|done].
    intros z Hz. apply elem_of_cons in Hz as [->|Hz]; [done|by apply Hpre].
Qed.

Lemma find_nothing {A} (f : A -> bool) l :
  (forall y, y ∈ l -> f y = false) -> List.find f l = None.
Proof.
  intros Hl. induction l as [|y l IH]; [done|]. simpl.
  rewrite (Hl y) by apply list_elem_of_here.
  apply IH. intros z Hz. apply Hl. by apply list_elem_of_further.
Qed.

Lemma registration_token_spec prefix registry n :
  registration_token prefix registry n = true
  <-> String.prefix prefix (URI n) = true /\ Issuer n = registry.
Proof.
  unfold registration_token. rewrite andb_true_iff, bool_decide_eq_true. done.
Qed.

Lemma registration_token_not prefix registry n :
  ~ (String.prefix prefix (URI n) = true /\ Issuer n = registry) ->
  registration_token prefix registry n = false.
Proof.
  intros Hn. destruct (registration_token prefix registry n) eqn:H; [|done].
  by apply registration_token_spec in H.
Qed.

(** X27. A host counts as registered exactly when it holds a registration
    token and the host info names the index of that token.  The registration
    token is the first of the host's URI tokens whose URI starts with the
    token prefix and whose issuer is the registry; a later such token is not
    looked at.  With a registration token, the answer is false when there is
    no host info or when its token id is missing or another, and a failure to
    read the host info is thrown on.  Without one the answer is false and the
    host info is not asked for, so that its failure does not show.  A failure
    to list the tokens is thrown on. *)
Theorem registered_iff_first_token_matches (getURITokens : outcome (list uri_token))
    (getHostInfo : outcome (option host_info)) (TOKEN_PREFIX_HEX registryAddress : string) :
  let registered := isRegistered getURITokens getHostInfo TOKEN_PREFIX_HEX registryAddress in
  let of_registry (n : uri_token) :=
    String.prefix TOKEN_PREFIX_HEX (URI n) = true /\ Issuer n = registryAddress in
  let first_of_registry (tokens : list uri_token) (token : uri_token) :=
    exists pre post,
      tokens = pre ++ token :: post /\ (forall n, n ∈ pre -> ~ of_registry n)
      /\ of_registry token in
  (registered = Return true
   <-> exists tokens token host,
         getURITokens = Return tokens /\ first_of_registry tokens token
         /\ getHostInfo = Return (Some host)
         /\ uriTokenId host = Some (index token))
  /\ (forall tokens token,
        getURITokens = Return tokens -> first_of_registry tokens token ->
        (getHostInfo = Return None -> registered = Return false)
        /\ (forall host, getHostInfo = Return (Some host) ->
              uriTokenId host <> Some (index token) -> registered = Return false)
        /\ (forall e, getHostInfo = Throw e -> registered = Throw e))
  /\ (forall tokens,
        getURITokens = Return tokens -> (forall n, n ∈ tokens -> ~ of_registry n) ->
        registered = Return false)
  /\ (forall e, getURITokens = Throw e -> registered = Throw e).
Proof.
  intros registered of_registry first_of_registry.
  assert (Hfirst : forall tokens token,
            first_of_registry tokens token ->
            List.find (registration_token TOKEN_PREFIX_HEX registryAddress) tokens
            = Some token).
  { intros tokens token (pre & post & -> & Hpre & Htoken). apply find_first.
    - intros n Hn. apply registration_token_not. by apply Hpre.
    - by apply registration_token_spec. }
  unfold registered, isRegistered, getRegistration, getRegistrationUriToken.
  split; [|split; [|split]].
  - split.
    + destruct getURITokens as [tokens|e]; [|done]. simpl.
      destruct (List.find _ tokens) as [token|] eqn:Hfind; [|done]. simpl.
      destruct getHostInfo as [[host|]|e]; simpl; [|done|done].
      destruct (decide (uriTokenId host = Some (index token))) as [Heq|Hne].
      * intros _. exists tokens, token, host. split; [done|]. split; [|done].
        apply find_split in Hfind as (pre & post & -> & Hpre & Htoken).
        exists pre, post. split; [done|]. split.
        -- intros n Hn Hreg. apply registration_token_spec in Hreg.
           by rewrite (Hpre n Hn) in Hreg.
        -- by apply registration_token_spec.
      * rewrite (bool_decide_eq_false_2 (uriTokenId host = _)) by done. done.
    + intros (tokens & token & host & -> & Htoken & -> & Hid). simpl.
      rewrite (Hfirst _ _ Htoken). simpl.
      by rewrite (bool_decide_eq_true_2 (uriTokenId host = _)) by done.
  - intros tokens token -> Htoken. simpl. rewrite (Hfirst _ _ Htoken). simpl.
    split; [|split].
    + by intros ->.
    + intros host -> Hne. simpl.
      by rewrite (bool_decide_eq_false_2 (uriTokenId host = _)) by done.
    + by intros e ->.
  - intros tokens -> Hnone. simpl. rewrite find_nothing; [done|].
    intros n Hn. apply registration_token_not. by apply Hnone.
  - by intros e ->.
Qed.

Example second_token_is_not_looked_at :
  isRegistered
    (Return [UriToken "00AA" "657672686F7374AA" "rRegistry";
             UriToken "00BB" "657672686F7374BB" "rRegistry"])
    (Return (Some (HostInfo (Some "00BB") VNull)))
    "657672686F7374" "rRegistry"
  = Return false.
Proof. vm_compute. reflexivity. Qed.

(** *** [prepareAccount] *)

Lemma tagged_elem (tag : Z -> submission) (trace : list event) (s : submission) :
  s ∈ tagged tag trace -> exists fee, s = tag fee.
Proof.
  unfold tagged. intros Hin. apply list_elem_of_omap in Hin as (ev & _ & Hev).
  destruct ev as [fee|ms]; [|done]. injection Hev as <-. by exists fee.
Qed.

Lemma accountSetFields_spec publicKey flags msgKey curDomain domain d :
  get flags "lsfDefaultRipple" = Return d ->
  let lower := toLowerCase domain in
  let kept := truthy curDomain && strict_eq curDomain (VStr lower) in
  exists fields,
    accountSetFields publicKey flags msgKey curDomain domain = Return fields
    /\ fields !! "Flags"
       = (if truthy d then Some (obj [("asfDefaultRipple", VBool false)]) else None)
    /\ fields !! "MessageKey" = (if truthy msgKey then None else Some publicKey)
    /\ fields !! "Domain" = (if kept then None else Some (VStr lower))
    /\ (forall k, k <> "Flags" -> k <> "MessageKey" -> k <> "Domain" -> fields !! k = None)
    /\ (truthy d = false -> truthy msgKey = true -> kept = true -> fields = ∅).
Proof.
  intros Hd lower kept. unfold accountSetFields. rewrite Hd. cbn [obind].
  fold lower.
  replace (negb (truthy curDomain) || negb (strict_eq curDomain (VStr lower)))
    with (negb kept) by (unfold kept; by destruct (truthy curDomain), (strict_eq _ _)).
  eexists. split; [done|].
  unfold obj_merge.
  destruct (truthy d), (truthy msgKey), kept; cbn [negb];
    repeat split; try done;
    try (intros k H1 H2 H3);
    rewrite ?lookup_union, ?lookup_empty;
    rewrite ?lookup_singleton_eq; rewrite ?lookup_singleton_ne by done; done.
Qed.

(** X28. [prepareAccount] submits what the account lacks, and only that.
    The account fields it sets are [Flags] with [asfDefaultRipple] off when
    the account has default ripple on, [MessageKey] with the public key of
    the client when the account has no message key, and [Domain] with the
    argument in lower case unless that text is the account's domain already.
    When one of the three is lacking, the first thing submitted is these
    fields, and they are what every later attempt to set fields submits; when
    none is, no fields are submitted.  The EVR trust line is set when the
    account has none, after the fields and only once these are set: a call
    that succeeds on an account without trust lines has submitted the trust
    line.  On an account that lacks nothing the call submits nothing.  (What
    is said to be submitted is so under a retry maximum above 0.) *)
Theorem prepare_account_submits_what_is_missing
    (account : outcome (val * list val * val * val)) (publicKey : val)
    (setAccountFields : gmap string val -> nat -> Z -> outcome val)
    (setTrustLine : nat -> Z -> outcome val)
    (domain : string) (retryOptions : option retry_options)
    (flags : val) (trustLines : list val) (msgKey curDomain d : val) :
  account = Return (flags, trustLines, msgKey, curDomain) ->
  get flags "lsfDefaultRipple" = Return d ->
  let lower := toLowerCase domain in
  let kept := truthy curDomain && strict_eq curDomain (VStr lower) in
  let lacking := truthy d = true \/ truthy msgKey = false \/ kept = false in
  let maximum := default 1 (retryOptions ≫= maxRetryAttempts) in
  exists res subs fields,
    prepareAccount account publicKey setAccountFields setTrustLine domain retryOptions
    = Some (res, subs)
    /\ (fields !! "Flags"
        = (if truthy d then Some (obj [("asfDefaultRipple", VBool false)]) else None)
        /\ fields !! "MessageKey" = (if truthy msgKey then None else Some publicKey)
        /\ fields !! "Domain" = (if kept then None else Some (VStr lower))
        /\ (forall k, k <> "Flags" -> k <> "MessageKey" -> k <> "Domain" ->
              fields !! k = None))
    /\ (0 < maximum -> lacking -> subs !! O = Some (SetAccountFields fields 0))
    /\ (forall fields' fee, SetAccountFields fields' fee ∈ subs -> lacking /\ fields' = fields)
    /\ (0 < maximum -> trustLines = [] -> res = Return tt -> SetTrustLine 0 ∈ subs)
    /\ (0 < maximum -> trustLines = [] -> ~ lacking -> subs !! O = Some (SetTrustLine 0))
    /\ (forall fee, SetTrustLine fee ∈ subs -> trustLines = [])
    /\ (forall i j fields' fee fee',
          subs !! i = Some (SetAccountFields fields' fee) ->
          subs !! j = Some (SetTrustLine fee') -> (i < j)%nat)
    /\ (~ lacking -> trustLines <> [] -> res = Return tt /\ subs = []).
Proof.
  intros Haccount Hd lower kept lacking maximum.
  destruct (accountSetFields_spec publicKey flags msgKey curDomain domain d Hd)
    as (fields & Hfields & HF & HM & HD & Hother & Hempty).
  fold lower in HD. fold kept in HD, Hempty.
  assert (Hlack : fields = ∅ <-> ~ lacking).
  { unfold lacking. split.
    - intros -> [H|[H|H]].
      + rewrite H in HF. by rewrite lookup_empty in HF.
      + rewrite H in HM. by rewrite lookup_empty in HM.
      + rewrite H in HD. by rewrite lookup_empty in HD.
    - intros Hno. apply Hempty.
      + destruct (truthy d) eqn:H1; [|done]. destruct Hno. by left.
      + destruct (truthy msgKey) eqn:H2; [done|]. destruct Hno. right. by left.
      + apply not_false_is_true. intros H3. destruct Hno. right. by right. }
  unfold prepareAccount. rewrite Haccount, Hfields.
  (* what the submission of the fields leaves *)
  assert (Hfirst : exists res1 done1,
    (if negb (bool_decide (fields = ∅))
     then match submitWithRetry (awaited (setAccountFields fields)) retryOptions with
          | Some (res, trace) => Some (res, tagged (SetAccountFields fields) trace)
          | None => None
          end
     else Some (Return VUndef, [])) = Some (res1, done1)
    /\ (~ lacking -> res1 = Return VUndef /\ done1 = [])
    /\ (forall s, s ∈ done1 -> lacking /\ exists fee, s = SetAccountFields fields fee)
    /\ (0 < maximum -> lacking -> done1 !! O = Some (SetAccountFields fields 0))).
  { destruct (decide (fields = ∅)) as [He|Hne].
    - rewrite bool_decide_eq_true_2 by done. exists (Return VUndef), [].
      split; [done|]. split; [done|]. split.
      + intros s Hs. by apply not_elem_of_nil in Hs.
      + intros _ Hl. by apply Hlack in He.
    - rewrite bool_decide_eq_false_2 by done. cbn [negb].
      assert (Hl : lacking).
      { destruct (truthy d) eqn:H1; [by left|]. destruct (truthy msgKey) eqn:H2; [|right; by left].
        destruct (decide (kept = true)) as [H3|H3].
        - destruct Hne. by apply Hempty.
        - right. right. by apply not_true_is_false. }
      destruct (Z.ltb_spec 0 maximum) as [Hpos|Hneg].
      + destruct (submitWithRetry_first (awaited (setAccountFields fields)) retryOptions Hpos)
          as (res & trace & ->).
        eexists _, _. split; [done|]. split; [by intros []|]. split; [|done].
        intros s Hs. split; [done|]. by apply tagged_elem in Hs.
      + destruct (submitWithRetry_ends (awaited (setAccountFields fields)) retryOptions)
          as (res & trace & ->).
        eexists _, _. split; [done|]. split; [by intros []|]. split; [|lia].
        intros s Hs. split; [done|]. by apply tagged_elem in Hs. }
  destruct Hfirst as (res1 & done1 & -> & Hidle & Hdone & Hhead).
  assert (Hnoline : forall fee, SetTrustLine fee ∈ done1 -> False).
  { intros fee Hin. by destruct (Hdone _ Hin) as (_ & fee0 & ?). }
  assert (Hset : forall fields' fee,
            SetAccountFields fields' fee ∈ done1 -> lacking /\ fields' = fields).
  { intros fields' fee Hin. destruct (Hdone _ Hin) as (Hl & fee0 & [= -> _]). done. }
  destruct res1 as [v1|e1].
  2:{ exists (Throw e1), done1, fields. split; [done|]. split; [done|].
      split; [done|]. split; [done|]. split; [done|]. split.
      { intros _ _ Hno. by destruct (Hidle Hno). }
      split; [intros fee Hin; by destruct (Hnoline fee Hin)|]. split.
      - intros i j f fee fee' _ Hj. apply list_elem_of_lookup_2 in Hj.
        by destruct (Hnoline fee' Hj).
      - intros Hno _. by destruct (Hidle Hno). }
  destruct trustLines as [|line rest]; cbn [length Nat.eqb].
  - assert (Hsecond : exists res2 trace2,
              submitWithRetry (awaited setTrustLine) retryOptions = Some (res2, trace2)
              /\ (0 < maximum -> tagged SetTrustLine trace2 !! O = Some (SetTrustLine 0))).
    { destruct (Z.ltb_spec 0 maximum) as [Hpos|Hneg].
      - destruct (submitWithRetry_first (awaited setTrustLine) retryOptions Hpos)
          as (res2 & trace2 & ->). by eexists _, _.
      - destruct (submitWithRetry_ends (awaited setTrustLine) retryOptions)
          as (res2 & trace2 & ->). eexists _, _. split; [done|lia]. }
    destruct Hsecond as (res2 & trace2 & -> & Hline).
    exists (match res2 with Return _ => Return tt | Throw e => Throw e end),
      (done1 ++ tagged SetTrustLine trace2), fields.
    split; [by destruct res2|]. split; [done|]. split.
    { intros Hpos Hl. apply lookup_app_l_Some. by apply Hhead. }
    split.
    { intros f fee Hin. apply elem_of_app in Hin as [Hin|Hin]; [by apply (Hset f fee)|].
      by destruct (tagged_elem _ _ _ Hin) as (fee0 & ?). }
    split.
    { intros Hpos _ _. apply elem_of_app. right.
      by apply list_elem_of_lookup_2 with (i := O), Hline. }
    split.
    { intros Hpos _ Hno. destruct (Hidle Hno) as [_ ->]. by apply Hline. }
    split; [done|]. split; [|done].
    intros i j f fee fee' Hi Hj.
    apply lookup_app_Some in Hi as [Hi|[_ Hi]].
    2:{ apply list_elem_of_lookup_2 in Hi. by destruct (tagged_elem _ _ _ Hi) as (fee0 & ?). }
    apply lookup_app_Some in Hj as [Hj|[Hj _]].
    { apply list_elem_of_lookup_2 in Hj. by destruct (Hnoline fee' Hj). }
    apply lookup_lt_Some in Hi. lia.
  - exists (Return tt), done1, fields. split; [done|]. split; [done|].
    split; [done|]. split; [done|]. split; [done|]. split; [done|].
    split; [intros fee Hin; by destruct (Hnoline fee Hin)|]. split.
    + intros i j f fee fee' _ Hj. apply list_elem_of_lookup_2 in Hj.
      by destruct (Hnoline fee' Hj).
    + intros Hno _. by destruct (Hidle Hno) as [_ ->].
Qed.

Lemma prepare_account_witness :
  let account : outcome (val * list val * val * val) :=
    Return (obj [("lsfDefaultRipple", VBool true)], [], VStr "02ABCDEF",
            VStr "Host.example.org") in
  exists res subs fields,
    prepareAccount account (VStr "02ABCDEF") (fun _ _ _ => Return VUndef)
      (fun _ _ => Return VUndef) "host.example.org" None = Some (res, subs)
    /\ subs !! O = Some (SetAccountFields fields 0)
    /\ fields !! "Domain" = Some (VStr "host.example.org")
    /\ SetTrustLine 0 ∈ subs.
Proof.
  intros account.
  destruct (prepare_account_submits_what_is_missing account (VStr "02ABCDEF")
              (fun _ _ _ => Return VUndef) (fun _ _ => Return VUndef) "host.example.org" None
              _ _ _ _ (VBool true) eq_refl eq_refl)
    as (res & subs & fields & Hrun & (_ & _ & HD & _) & Hhead & _ & Hline & _).
  exists res, subs, fields. split; [exact Hrun|]. split; [|split].
  - apply Hhead; [reflexivity|]. left. reflexivity.
  - exact HD.
  - apply Hline; [reflexivity|reflexivity|].
    vm_compute in Hrun. by injection Hrun as <- _.
Defined.

Example prepare_account_sets_what_is_missing :
  prepareAccount
    (Return (obj [("lsfDefaultRipple", VBool true)], [], VStr "02ABCDEF", VStr "Host.example.org"))
    (VStr "02ABCDEF") (fun _ _ _ => Return VUndef) (fun _ _ => Return VUndef)
    "host.example.org" None
  = Some (Return tt,
          [SetAccountFields
             (spread (obj [("Flags", obj [("asfDefaultRipple", VBool false)]);
                           ("Domain", VStr "host.example.org")])) 0;
           SetTrustLine 0]).
Proof. vm_compute. reflexivity. Qed.

End HostStatusFacts.

(** ** EvernodeHook: moments *)

Module MomentFacts.
Import EvernodeHook JSFacts EvernodeHookFacts.

(** X29. With a moment size that is a positive double and a ledger index
    whose distance from the moment base index is below [2 ^ 53], the moment
    of a ledger is the whole number [m] whose window of [momentSize] ledgers,
    counted from the base index, holds the ledger.  Hence, within that
    distance, a later ledger never has an earlier moment, and the ledger one
    moment size later has the next moment. *)
Theorem moment_covers_its_ledgers (K : common)
    (getHookStates : nat -> outcome (list hook_state)) (xfl_toString : Z -> outcome val)
    (w : hook_world) (cfg : config) (lv : Z) :
  cachedConfig w = Some cfg -> 0 < momentSize cfg < 2 ^ 1024 -> lv <> 0 ->
  - 2 ^ 53 < lv - momentBaseIdx cfg < 2 ^ 53 ->
  exists m,
    getMoment K getHookStates xfl_toString (Some lv) w = (Return (Fin (inject_Z m)), w)
    /\ momentBaseIdx cfg + m * momentSize cfg <= lv
       < momentBaseIdx cfg + (m + 1) * momentSize cfg
    /\ (forall lv', lv' <> 0 -> lv <= lv' -> lv' - momentBaseIdx cfg < 2 ^ 53 ->
        exists m',
          getMoment K getHookStates xfl_toString (Some lv') w
          = (Return (Fin (inject_Z m')), w)
          /\ m <= m' /\ (lv' = lv + momentSize cfg -> m' = m + 1)).
Proof.
  intros Hc Hsize Hlv Hdiff. set (base := momentBaseIdx cfg) in *.
  set (size := momentSize cfg) in *.
  exists ((lv - base) / size). split; [apply getMoment_exact; try done; fold size; lia|]. split.
  - pose proof (Z.mul_div_le (lv - base) size ltac:(lia)).
    pose proof (Z.mul_succ_div_gt (lv - base) size ltac:(lia)). nia.
  - intros lv' Hlv' Hle Hdiff'. exists ((lv' - base) / size).
    split; [apply getMoment_exact; try done; fold base size; lia|]. split.
    + apply Z.div_le_mono; lia.
    + intros ->. replace (lv + size - base) with ((lv - base) + 1 * size) by lia.
      by rewrite Z.div_add by lia.
Qed.

Lemma moment_covers_its_ledgers_witness :
  let w := HookWorld (Some (Config (VStr "5120") 72 12 12 1000)) 1 (Some 1200) in
  exists m,
    getMoment sample_common sample_states decimal (Some 1150) w = (Return (Fin (inject_Z m)), w)
    /\ 1000 + m * 72 <= 1150 < 1000 + (m + 1) * 72.
Proof.
  intros w.
  destruct (moment_covers_its_ledgers sample_common sample_states decimal w
              (Config (VStr "5120") 72 12 12 1000) 1150 eq_refl)
    as (m & Hrun & Hwindow & _).
  - split; reflexivity.
  - discriminate.
  - split; reflexivity.
  - exists m. split; [exact Hrun|exact Hwindow].
Defined.

End MomentFacts.

(** ** HostClient: the answer to an acquired lease *)

Module HostAcquireFacts.
Import Buffer HostMessages HostAcquire JSFacts.

(** X30. The instance info leaves the host in the clear only on request.  A
    payment that [acquireSuccess] has made goes to the tenant for the minimum
    amount and carries one memo of the type [ACQUIRE_SUCCESS] in the format
    [base64].  The data of that memo are either the clear text behind a zero
    byte, and then the options hold the message key ['none'], or the cipher
    text behind a one byte, encrypted with a key that is not empty: the
    message key of the options when that passes the key test, or, when the
    options hold none, the message key of the tenant's account. *)
Theorem acquire_success_clear_only_on_request
    (JSON_stringify : val -> outcome val) (PublicPrivateKey_test : val -> bool)
    (getMessageKey : outcome val) (encrypt : val -> val -> outcome val)
    (from_base64 : val -> outcome buffer) (to_base64 : buffer -> string)
    (makePayment : list val -> outcome val)
    (PARAM_EVENT_TYPE_KEY PARAM_EVENT_DATA1_KEY ACQUIRE_SUCCESS MIN_DROPS : val)
    (ledgerIndex : Z) (txHash tenantAddress instanceInfo : val)
    (options : gmap string val) (res : val) :
  acquireSuccess JSON_stringify PublicPrivateKey_test getMessageKey encrypt from_base64
    to_base64 makePayment PARAM_EVENT_TYPE_KEY PARAM_EVENT_DATA1_KEY ACQUIRE_SUCCESS MIN_DROPS
    ledgerIndex txHash tenantAddress instanceInfo options = Return res ->
  exists (data : string) (memo : gmap string val) (transactionOptions : val),
    makePayment [tenantAddress; MIN_DROPS; VNull; VNull; VArr [VObj memo]; transactionOptions]
    = Return res
    /\ memo !! "type" = Some ACQUIRE_SUCCESS
    /\ memo !! "format" = Some (VStr "base64")
    /\ memo !! "data" = Some (VStr data)
    /\ ((options !! "messageKey" = Some (VStr "none")
         /\ exists text, JSON_stringify instanceInfo = Return (VStr text)
              /\ data = to_base64 (0 :: utf8 text))
        \/ (exists encKey encrypted cipher,
              truthy encKey = true
              /\ encrypt encKey instanceInfo = Return encrypted
              /\ from_base64 encrypted = Return cipher
              /\ data = to_base64 (1 :: cipher)
              /\ ((options !! "messageKey" = Some encKey
                   /\ encKey <> VStr "none" /\ PublicPrivateKey_test encKey = true)
                  \/ (options !! "messageKey" = None /\ getMessageKey = Return encKey)))).
Proof.
  assert (Hsent : forall data,
            makePayment (acquire_payment PARAM_EVENT_TYPE_KEY PARAM_EVENT_DATA1_KEY
                           ACQUIRE_SUCCESS MIN_DROPS ledgerIndex txHash tenantAddress options
                           data) = Return res ->
            exists (memo : gmap string val) (transactionOptions : val),
              makePayment [tenantAddress; MIN_DROPS; VNull; VNull; VArr [VObj memo];
                           transactionOptions] = Return res
              /\ memo !! "type" = Some ACQUIRE_SUCCESS
              /\ memo !! "format" = Some (VStr "base64")
              /\ memo !! "data" = Some (VStr data)).
  { intros data Hpay. unfold acquire_payment, obj in Hpay. cbn [fold_left fst snd] in Hpay.
    eexists _, _. split; [exact Hpay|].
    rewrite !lookup_insert_ne, lookup_insert_eq by done.
    rewrite lookup_insert_ne, lookup_insert_eq by done.
    by rewrite lookup_insert_eq. }
  unfold acquireSuccess, acquire_data, stringified, encryption_key.
  destruct (JSON_stringify instanceInfo) as [[| | | |text| |]|e]; try done. cbn [obind].
  destruct (options !! "messageKey") as [messageKey|] eqn:Hkey.
  - destruct (strict_eq messageKey (VStr "none")) eqn:Hnone; cbn [negb andb].
    + cbn [obind]. intros Hpay. destruct (Hsent _ Hpay) as (memo & topts & H1 & H2 & H3 & H4).
      eexists _, memo, topts. repeat (split; [done|]). left.
      assert (messageKey = VStr "none") as ->.
      { destruct messageKey; try done. simpl in Hnone. by apply bool_decide_eq_true in Hnone as ->. }
      split; [done|]. by exists text.
    + destruct (PublicPrivateKey_test messageKey) eqn:Htest; [|done]. cbn [obind].
      destruct (truthy messageKey) eqn:Htruthy; [|done]. cbn [negb].
      destruct (encrypt messageKey instanceInfo) as [encrypted|e] eqn:Henc; [|done]. cbn [obind].
      destruct (from_base64 encrypted) as [cipher|e] eqn:Hfrom; [|done]. cbn [obind].
      intros Hpay. destruct (Hsent _ Hpay) as (memo & topts & H1 & H2 & H3 & H4).
      eexists _, memo, topts. repeat (split; [done|]). right.
      exists messageKey, encrypted, cipher. repeat split; try done. left.
      repeat split; try done. intros ->. done.
  - destruct getMessageKey as [encKey|e] eqn:Hget; [|done]. cbn [obind].
    destruct (truthy encKey) eqn:Htruthy; [|done]. cbn [negb].
    destruct (encrypt encKey instanceInfo) as [encrypted|e] eqn:Henc; [|done]. cbn [obind].
    destruct (from_base64 encrypted) as [cipher|e] eqn:Hfrom; [|done]. cbn [obind].
    intros Hpay. destruct (Hsent _ Hpay) as (memo & topts & H1 & H2 & H3 & H4).
    eexists _, memo, topts. repeat (split; [done|]). right.
    exists encKey, encrypted, cipher. repeat split; try done. by right.
Qed.

Lemma acquire_success_witness :
  let options : gmap string val := {["messageKey" := VStr "none"]} in
  let sent (args : list val) : outcome val := Return (VArr args) in
  exists (data : string) (memo : gmap string val) (transactionOptions : val),
    VArr [VStr "rTenant"; VStr "1"; VNull; VNull; VArr [VObj memo]; transactionOptions]
    = acquire_receipt
    /\ memo !! "data" = Some (VStr data)
    /\ data = toString_hex (0 :: utf8 (String (ascii_of_nat 34) "ip" +:+ String (ascii_of_nat 34) "")).
Proof.
  intros options sent.
  destruct (acquire_success_clear_only_on_request quoted (fun _ => false) (Return (VStr "02AB"))
              sealed (fun _ => Return [115; 101; 97; 108]) toString_hex sent
              (VStr "10") (VStr "11") (VStr "evnAcquireSuccess") (VStr "1") 500
              (VStr "E3F1") (VStr "rTenant") (VStr "ip") options acquire_receipt eq_refl)
    as (data & memo & topts & Hpay & _ & _ & Hdata & [(_ & text & Htext & Hclear)|Hsealed]).
  - exists data, memo, topts. injection Hpay as Hmemo Hopts. injection Htext as <-.
    split; [by rewrite Hmemo, Hopts|]. split; [exact Hdata|exact Hclear].
  - destruct Hsealed as (k & ? & ? & _ & _ & _ & _ & [(_ & _ & Htest)|(Hno & _)]);
      [discriminate Htest|discriminate Hno].
Defined.

Example acquire_success_sample :
  acquire_data quoted (fun _ => false) (Return (VStr "02AB")) sealed
    (fun _ => Return [115; 101; 97; 108]) toString_hex (VStr "ip") ∅
  = Return "017365616c"
  /\ acquire_data quoted (fun _ => false) (Return (VStr "02AB")) sealed
       (fun _ => Return [115; 101; 97; 108]) toString_hex (VStr "ip")
       {["messageKey" := VStr "none"]}
     = Return "0022697022"
  /\ acquire_data quoted (fun _ => false) (Return (VStr "02AB")) sealed
       (fun _ => Return [115; 101; 97; 108]) toString_hex (VStr "ip")
       {["messageKey" := VStr "02AB"]}
     = Throw (VStr KEY_NOT_VALID).
Proof. repeat split; vm_compute; reflexivity. Qed.

End HostAcquireFacts.
